(** * VoiceChef back end: a shallow embedding of the request handlers

    The development follows the layout of the Python sources under [app/]:
    Python-level helpers first (exceptions, [str] methods, floats), then the
    ORM models, the utility modules, and the routers.  Every handler is a
    function over an explicit database state; an exception is a value of
    [result].  The second half of the file states and proves the properties
    of the handlers.

    Conventions.
    - A Python [str] is the list of its code points.  [len] counts code
      points; [strip], [lower], [isalpha], [isdigit] and [int()] follow the
      Unicode character database of CPython 3.11 (Unicode 14.0), whose
      tables are part of the file; [encode()] is UTF-8.
      [int()] and [str()] are followed without the interpreter's limit
      of 4300 digits on the conversion.
    - A Python [float] is the rational it denotes exactly (every binary64
      value is a dyadic rational); [Float.div] rounds the quotient of two
      integers to binary64 as Python's [/] does.
    - A table is the list of its rows in storage order; a query is a filter
      over that list.  [datetime] values are seconds since the epoch.  The
      [created_at]/[updated_at] columns, which the database stamps on
      insert and on every update and which no handler reads, are not part
      of the rows: what is said of a row is said of its other columns. *)

From Stdlib Require Import ZArith NArith QArith Qround Qpower List Bool Lia.
From Stdlib Require Import Permutation Sorted DecimalPos.
From Stdlib Require Import Strings.Byte.
Import ListNotations.

Local Open Scope Z_scope.

(* ================================================================== *)
(** * Part I: definitions                                              *)
(* ================================================================== *)

(** ** The Unicode character database *)

Module Unicode.
Local Open Scope N_scope.

Definition in_ranges (rs : list (N * N)) (c : N) : bool :=
  existsb (fun r => (fst r <=? c) && (c <=? snd r)) rs.

(** The characters [str.isspace] accepts, which are those [str.strip] removes. *)
Definition space_ranges : list (N * N) :=
  [(9, 13); (28, 32); (133, 133); (160, 160); (5760, 5760); (8192, 8202); (8232, 8233);
   (8239, 8239); (8287, 8287); (12288, 12288)].

(** The characters [str.isalpha] accepts: the letters, general categories Lu, Ll, Lt, Lm and Lo. *)
Definition alpha_ranges : list (N * N) :=
  [(65, 90); (97, 122); (170, 170); (181, 181); (186, 186); (192, 214); (216, 246);
   (248, 705); (710, 721); (736, 740); (748, 748); (750, 750); (880, 884); (886, 887);
   (890, 893); (895, 895); (902, 902); (904, 906); (908, 908); (910, 929); (931, 1013);
   (1015, 1153); (1162, 1327); (1329, 1366); (1369, 1369); (1376, 1416); (1488, 1514);
   (1519, 1522); (1568, 1610); (1646, 1647); (1649, 1747); (1749, 1749); (1765, 1766);
   (1774, 1775); (1786, 1788); (1791, 1791); (1808, 1808); (1810, 1839); (1869, 1957);
   (1969, 1969); (1994, 2026); (2036, 2037); (2042, 2042); (2048, 2069); (2074, 2074);
   (2084, 2084); (2088, 2088); (2112, 2136); (2144, 2154); (2160, 2183); (2185, 2190);
   (2208, 2249); (2308, 2361); (2365, 2365); (2384, 2384); (2392, 2401); (2417, 2432);
   (2437, 2444); (2447, 2448); (2451, 2472); (2474, 2480); (2482, 2482); (2486, 2489);
   (2493, 2493); (2510, 2510); (2524, 2525); (2527, 2529); (2544, 2545); (2556, 2556);
   (2565, 2570); (2575, 2576); (2579, 2600); (2602, 2608); (2610, 2611); (2613, 2614);
   (2616, 2617); (2649, 2652); (2654, 2654); (2674, 2676); (2693, 2701); (2703, 2705);
   (2707, 2728); (2730, 2736); (2738, 2739); (2741, 2745); (2749, 2749); (2768, 2768);
   (2784, 2785); (2809, 2809); (2821, 2828); (2831, 2832); (2835, 2856); (2858, 2864);
   (2866, 2867); (2869, 2873); (2877, 2877); (2908, 2909); (2911, 2913); (2929, 2929);
   (2947, 2947); (2949, 2954); (2958, 2960); (2962, 2965); (2969, 2970); (2972, 2972);
   (2974, 2975); (2979, 2980); (2984, 2986); (2990, 3001); (3024, 3024); (3077, 3084);
   (3086, 3088); (3090, 3112); (3114, 3129); (3133, 3133); (3160, 3162); (3165, 3165);
   (3168, 3169); (3200, 3200); (3205, 3212); (3214, 3216); (3218, 3240); (3242, 3251);
   (3253, 3257); (3261, 3261); (3293, 3294); (3296, 3297); (3313, 3314); (3332, 3340);
   (3342, 3344); (3346, 3386); (3389, 3389); (3406, 3406); (3412, 3414); (3423, 3425);
   (3450, 3455); (3461, 3478); (3482, 3505); (3507, 3515); (3517, 3517); (3520, 3526);
   (3585, 3632); (3634, 3635); (3648, 3654); (3713, 3714); (3716, 3716); (3718, 3722);
   (3724, 3747); (3749, 3749); (3751, 3760); (3762, 3763); (3773, 3773); (3776, 3780);
   (3782, 3782); (3804, 3807); (3840, 3840); (3904, 3911); (3913, 3948); (3976, 3980);
   (4096, 4138); (4159, 4159); (4176, 4181); (4186, 4189); (4193, 4193); (4197, 4198);
   (4206, 4208); (4213, 4225); (4238, 4238); (4256, 4293); (4295, 4295); (4301, 4301);
   (4304, 4346); (4348, 4680); (4682, 4685); (4688, 4694); (4696, 4696); (4698, 4701);
   (4704, 4744); (4746, 4749); (4752, 4784); (4786, 4789); (4792, 4798); (4800, 4800);
   (4802, 4805); (4808, 4822); (4824, 4880); (4882, 4885); (4888, 4954); (4992, 5007);
   (5024, 5109); (5112, 5117); (5121, 5740); (5743, 5759); (5761, 5786); (5792, 5866);
   (5873, 5880); (5888, 5905); (5919, 5937); (5952, 5969); (5984, 5996); (5998, 6000);
   (6016, 6067); (6103, 6103); (6108, 6108); (6176, 6264); (6272, 6276); (6279, 6312);
   (6314, 6314); (6320, 6389); (6400, 6430); (6480, 6509); (6512, 6516); (6528, 6571);
   (6576, 6601); (6656, 6678); (6688, 6740); (6823, 6823); (6917, 6963); (6981, 6988);
   (7043, 7072); (7086, 7087); (7098, 7141); (7168, 7203); (7245, 7247); (7258, 7293);
   (7296, 7304); (7312, 7354); (7357, 7359); (7401, 7404); (7406, 7411); (7413, 7414);
   (7418, 7418); (7424, 7615); (7680, 7957); (7960, 7965); (7968, 8005); (8008, 8013);
   (8016, 8023); (8025, 8025); (8027, 8027); (8029, 8029); (8031, 8061); (8064, 8116);
   (8118, 8124); (8126, 8126); (8130, 8132); (8134, 8140); (8144, 8147); (8150, 8155);
   (8160, 8172); (8178, 8180); (8182, 8188); (8305, 8305); (8319, 8319); (8336, 8348);
   (8450, 8450); (8455, 8455); (8458, 8467); (8469, 8469); (8473, 8477); (8484, 8484);
   (8486, 8486); (8488, 8488); (8490, 8493); (8495, 8505); (8508, 8511); (8517, 8521);
   (8526, 8526); (8579, 8580); (11264, 11492); (11499, 11502); (11506, 11507);
   (11520, 11557); (11559, 11559); (11565, 11565); (11568, 11623); (11631, 11631);
   (11648, 11670); (11680, 11686); (11688, 11694); (11696, 11702); (11704, 11710);
   (11712, 11718); (11720, 11726); (11728, 11734); (11736, 11742); (11823, 11823);
   (12293, 12294); (12337, 12341); (12347, 12348); (12353, 12438); (12445, 12447);
   (12449, 12538); (12540, 12543); (12549, 12591); (12593, 12686); (12704, 12735);
   (12784, 12799); (13312, 19903); (19968, 42124); (42192, 42237); (42240, 42508);
   (42512, 42527); (42538, 42539); (42560, 42606); (42623, 42653); (42656, 42725);
   (42775, 42783); (42786, 42888); (42891, 42954); (42960, 42961); (42963, 42963);
   (42965, 42969); (42994, 43009); (43011, 43013); (43015, 43018); (43020, 43042);
   (43072, 43123); (43138, 43187); (43250, 43255); (43259, 43259); (43261, 43262);
   (43274, 43301); (43312, 43334); (43360, 43388); (43396, 43442); (43471, 43471);
   (43488, 43492); (43494, 43503); (43514, 43518); (43520, 43560); (43584, 43586);
   (43588, 43595); (43616, 43638); (43642, 43642); (43646, 43695); (43697, 43697);
   (43701, 43702); (43705, 43709); (43712, 43712); (43714, 43714); (43739, 43741);
   (43744, 43754); (43762, 43764); (43777, 43782); (43785, 43790); (43793, 43798);
   (43808, 43814); (43816, 43822); (43824, 43866); (43868, 43881); (43888, 44002);
   (44032, 55203); (55216, 55238); (55243, 55291); (63744, 64109); (64112, 64217);
   (64256, 64262); (64275, 64279); (64285, 64285); (64287, 64296); (64298, 64310);
   (64312, 64316); (64318, 64318); (64320, 64321); (64323, 64324); (64326, 64433);
   (64467, 64829); (64848, 64911); (64914, 64967); (65008, 65019); (65136, 65140);
   (65142, 65276); (65313, 65338); (65345, 65370); (65382, 65470); (65474, 65479);
   (65482, 65487); (65490, 65495); (65498, 65500); (65536, 65547); (65549, 65574);
   (65576, 65594); (65596, 65597); (65599, 65613); (65616, 65629); (65664, 65786);
   (66176, 66204); (66208, 66256); (66304, 66335); (66349, 66368); (66370, 66377);
   (66384, 66421); (66432, 66461); (66464, 66499); (66504, 66511); (66560, 66717);
   (66736, 66771); (66776, 66811); (66816, 66855); (66864, 66915); (66928, 66938);
   (66940, 66954); (66956, 66962); (66964, 66965); (66967, 66977); (66979, 66993);
   (66995, 67001); (67003, 67004); (67072, 67382); (67392, 67413); (67424, 67431);
   (67456, 67461); (67463, 67504); (67506, 67514); (67584, 67589); (67592, 67592);
   (67594, 67637); (67639, 67640); (67644, 67644); (67647, 67669); (67680, 67702);
   (67712, 67742); (67808, 67826); (67828, 67829); (67840, 67861); (67872, 67897);
   (67968, 68023); (68030, 68031); (68096, 68096); (68112, 68115); (68117, 68119);
   (68121, 68149); (68192, 68220); (68224, 68252); (68288, 68295); (68297, 68324);
   (68352, 68405); (68416, 68437); (68448, 68466); (68480, 68497); (68608, 68680);
   (68736, 68786); (68800, 68850); (68864, 68899); (69248, 69289); (69296, 69297);
   (69376, 69404); (69415, 69415); (69424, 69445); (69488, 69505); (69552, 69572);
   (69600, 69622); (69635, 69687); (69745, 69746); (69749, 69749); (69763, 69807);
   (69840, 69864); (69891, 69926); (69956, 69956); (69959, 69959); (69968, 70002);
   (70006, 70006); (70019, 70066); (70081, 70084); (70106, 70106); (70108, 70108);
   (70144, 70161); (70163, 70187); (70272, 70278); (70280, 70280); (70282, 70285);
   (70287, 70301); (70303, 70312); (70320, 70366); (70405, 70412); (70415, 70416);
   (70419, 70440); (70442, 70448); (70450, 70451); (70453, 70457); (70461, 70461);
   (70480, 70480); (70493, 70497); (70656, 70708); (70727, 70730); (70751, 70753);
   (70784, 70831); (70852, 70853); (70855, 70855); (71040, 71086); (71128, 71131);
   (71168, 71215); (71236, 71236); (71296, 71338); (71352, 71352); (71424, 71450);
   (71488, 71494); (71680, 71723); (71840, 71903); (71935, 71942); (71945, 71945);
   (71948, 71955); (71957, 71958); (71960, 71983); (71999, 71999); (72001, 72001);
   (72096, 72103); (72106, 72144); (72161, 72161); (72163, 72163); (72192, 72192);
   (72203, 72242); (72250, 72250); (72272, 72272); (72284, 72329); (72349, 72349);
   (72368, 72440); (72704, 72712); (72714, 72750); (72768, 72768); (72818, 72847);
   (72960, 72966); (72968, 72969); (72971, 73008); (73030, 73030); (73056, 73061);
   (73063, 73064); (73066, 73097); (73112, 73112); (73440, 73458); (73648, 73648);
   (73728, 74649); (74880, 75075); (77712, 77808); (77824, 78894); (82944, 83526);
   (92160, 92728); (92736, 92766); (92784, 92862); (92880, 92909); (92928, 92975);
   (92992, 92995); (93027, 93047); (93053, 93071); (93760, 93823); (93952, 94026);
   (94032, 94032); (94099, 94111); (94176, 94177); (94179, 94179); (94208, 100343);
   (100352, 101589); (101632, 101640); (110576, 110579); (110581, 110587);
   (110589, 110590); (110592, 110882); (110928, 110930); (110948, 110951);
   (110960, 111355); (113664, 113770); (113776, 113788); (113792, 113800);
   (113808, 113817); (119808, 119892); (119894, 119964); (119966, 119967);
   (119970, 119970); (119973, 119974); (119977, 119980); (119982, 119993);
   (119995, 119995); (119997, 120003); (120005, 120069); (120071, 120074);
   (120077, 120084); (120086, 120092); (120094, 120121); (120123, 120126);
   (120128, 120132); (120134, 120134); (120138, 120144); (120146, 120485);
   (120488, 120512); (120514, 120538); (120540, 120570); (120572, 120596);
   (120598, 120628); (120630, 120654); (120656, 120686); (120688, 120712);
   (120714, 120744); (120746, 120770); (120772, 120779); (122624, 122654);
   (123136, 123180); (123191, 123197); (123214, 123214); (123536, 123565);
   (123584, 123627); (124896, 124902); (124904, 124907); (124909, 124910);
   (124912, 124926); (124928, 125124); (125184, 125251); (125259, 125259);
   (126464, 126467); (126469, 126495); (126497, 126498); (126500, 126500);
   (126503, 126503); (126505, 126514); (126516, 126519); (126521, 126521);
   (126523, 126523); (126530, 126530); (126535, 126535); (126537, 126537);
   (126539, 126539); (126541, 126543); (126545, 126546); (126548, 126548);
   (126551, 126551); (126553, 126553); (126555, 126555); (126557, 126557);
   (126559, 126559); (126561, 126562); (126564, 126564); (126567, 126570);
   (126572, 126578); (126580, 126583); (126585, 126588); (126590, 126590);
   (126592, 126601); (126603, 126619); (126625, 126627); (126629, 126633);
   (126635, 126651); (131072, 173791); (173824, 177976); (177984, 178205);
   (178208, 183969); (183984, 191456); (194560, 195101); (196608, 201546)].

(** The characters [str.isdigit] accepts: numeric type Digit or Decimal. *)
Definition digit_ranges : list (N * N) :=
  [(48, 57); (178, 179); (185, 185); (1632, 1641); (1776, 1785); (1984, 1993);
   (2406, 2415); (2534, 2543); (2662, 2671); (2790, 2799); (2918, 2927); (3046, 3055);
   (3174, 3183); (3302, 3311); (3430, 3439); (3558, 3567); (3664, 3673); (3792, 3801);
   (3872, 3881); (4160, 4169); (4240, 4249); (4969, 4977); (6112, 6121); (6160, 6169);
   (6470, 6479); (6608, 6618); (6784, 6793); (6800, 6809); (6992, 7001); (7088, 7097);
   (7232, 7241); (7248, 7257); (8304, 8304); (8308, 8313); (8320, 8329); (9312, 9320);
   (9332, 9340); (9352, 9360); (9450, 9450); (9461, 9469); (9471, 9471);
   (10102, 10110); (10112, 10120); (10122, 10130); (42528, 42537); (43216, 43225);
   (43264, 43273); (43472, 43481); (43504, 43513); (43600, 43609); (44016, 44025);
   (65296, 65305); (66720, 66729); (68160, 68163); (68912, 68921); (69216, 69224);
   (69714, 69722); (69734, 69743); (69872, 69881); (69942, 69951); (70096, 70105);
   (70384, 70393); (70736, 70745); (70864, 70873); (71248, 71257); (71360, 71369);
   (71472, 71481); (71904, 71913); (72016, 72025); (72784, 72793); (73040, 73049);
   (73120, 73129); (92768, 92777); (92864, 92873); (93008, 93017); (120782, 120831);
   (123200, 123209); (123632, 123641); (125264, 125273); (127232, 127242);
   (130032, 130041)].

(** The decimal digits [int()] reads: each range is a run of the digits 0 to 9, ten after ten. *)
Definition decimal_ranges : list (N * N) :=
  [(48, 57); (1632, 1641); (1776, 1785); (1984, 1993); (2406, 2415); (2534, 2543);
   (2662, 2671); (2790, 2799); (2918, 2927); (3046, 3055); (3174, 3183); (3302, 3311);
   (3430, 3439); (3558, 3567); (3664, 3673); (3792, 3801); (3872, 3881); (4160, 4169);
   (4240, 4249); (6112, 6121); (6160, 6169); (6470, 6479); (6608, 6617); (6784, 6793);
   (6800, 6809); (6992, 7001); (7088, 7097); (7232, 7241); (7248, 7257);
   (42528, 42537); (43216, 43225); (43264, 43273); (43472, 43481); (43504, 43513);
   (43600, 43609); (44016, 44025); (65296, 65305); (66720, 66729); (68912, 68921);
   (69734, 69743); (69872, 69881); (69942, 69951); (70096, 70105); (70384, 70393);
   (70736, 70745); (70864, 70873); (71248, 71257); (71360, 71369); (71472, 71481);
   (71904, 71913); (72016, 72025); (72784, 72793); (73040, 73049); (73120, 73129);
   (92768, 92777); (92864, 92873); (93008, 93017); (120782, 120831); (123200, 123209);
   (123632, 123641); (125264, 125273); (130032, 130041)].

(** The Cased characters. *)
Definition cased_ranges : list (N * N) :=
  [(65, 90); (97, 122); (170, 170); (181, 181); (186, 186); (192, 214); (216, 246);
   (248, 442); (444, 447); (452, 659); (661, 696); (704, 705); (736, 740); (837, 837);
   (880, 883); (886, 887); (890, 893); (895, 895); (902, 902); (904, 906); (908, 908);
   (910, 929); (931, 1013); (1015, 1153); (1162, 1327); (1329, 1366); (1376, 1416);
   (4256, 4293); (4295, 4295); (4301, 4301); (4304, 4346); (4349, 4351); (5024, 5109);
   (5112, 5117); (7296, 7304); (7312, 7354); (7357, 7359); (7424, 7615); (7680, 7957);
   (7960, 7965); (7968, 8005); (8008, 8013); (8016, 8023); (8025, 8025); (8027, 8027);
   (8029, 8029); (8031, 8061); (8064, 8116); (8118, 8124); (8126, 8126); (8130, 8132);
   (8134, 8140); (8144, 8147); (8150, 8155); (8160, 8172); (8178, 8180); (8182, 8188);
   (8305, 8305); (8319, 8319); (8336, 8348); (8450, 8450); (8455, 8455); (8458, 8467);
   (8469, 8469); (8473, 8477); (8484, 8484); (8486, 8486); (8488, 8488); (8490, 8493);
   (8495, 8500); (8505, 8505); (8508, 8511); (8517, 8521); (8526, 8526); (8544, 8575);
   (8579, 8580); (9398, 9449); (11264, 11492); (11499, 11502); (11506, 11507);
   (11520, 11557); (11559, 11559); (11565, 11565); (42560, 42605); (42624, 42653);
   (42786, 42887); (42891, 42894); (42896, 42954); (42960, 42961); (42963, 42963);
   (42965, 42969); (42997, 42998); (43000, 43002); (43824, 43866); (43868, 43880);
   (43888, 43967); (64256, 64262); (64275, 64279); (65313, 65338); (65345, 65370);
   (66560, 66639); (66736, 66771); (66776, 66811); (66928, 66938); (66940, 66954);
   (66956, 66962); (66964, 66965); (66967, 66977); (66979, 66993); (66995, 67001);
   (67003, 67004); (67456, 67456); (67459, 67461); (67463, 67504); (67506, 67514);
   (68736, 68786); (68800, 68850); (71840, 71903); (93760, 93823); (119808, 119892);
   (119894, 119964); (119966, 119967); (119970, 119970); (119973, 119974);
   (119977, 119980); (119982, 119993); (119995, 119995); (119997, 120003);
   (120005, 120069); (120071, 120074); (120077, 120084); (120086, 120092);
   (120094, 120121); (120123, 120126); (120128, 120132); (120134, 120134);
   (120138, 120144); (120146, 120485); (120488, 120512); (120514, 120538);
   (120540, 120570); (120572, 120596); (120598, 120628); (120630, 120654);
   (120656, 120686); (120688, 120712); (120714, 120744); (120746, 120770);
   (120772, 120779); (122624, 122633); (122635, 122654); (125184, 125251);
   (127280, 127305); (127312, 127337); (127344, 127369)].

(** The Case_Ignorable characters. *)
Definition case_ignorable_ranges : list (N * N) :=
  [(39, 39); (46, 46); (58, 58); (94, 94); (96, 96); (168, 168); (173, 173);
   (175, 175); (180, 180); (183, 184); (688, 879); (884, 885); (890, 890); (900, 901);
   (903, 903); (1155, 1161); (1369, 1369); (1375, 1375); (1425, 1469); (1471, 1471);
   (1473, 1474); (1476, 1477); (1479, 1479); (1524, 1524); (1536, 1541); (1552, 1562);
   (1564, 1564); (1600, 1600); (1611, 1631); (1648, 1648); (1750, 1757); (1759, 1768);
   (1770, 1773); (1807, 1807); (1809, 1809); (1840, 1866); (1958, 1968); (2027, 2037);
   (2042, 2042); (2045, 2045); (2070, 2093); (2137, 2139); (2184, 2184); (2192, 2193);
   (2200, 2207); (2249, 2306); (2362, 2362); (2364, 2364); (2369, 2376); (2381, 2381);
   (2385, 2391); (2402, 2403); (2417, 2417); (2433, 2433); (2492, 2492); (2497, 2500);
   (2509, 2509); (2530, 2531); (2558, 2558); (2561, 2562); (2620, 2620); (2625, 2626);
   (2631, 2632); (2635, 2637); (2641, 2641); (2672, 2673); (2677, 2677); (2689, 2690);
   (2748, 2748); (2753, 2757); (2759, 2760); (2765, 2765); (2786, 2787); (2810, 2815);
   (2817, 2817); (2876, 2876); (2879, 2879); (2881, 2884); (2893, 2893); (2901, 2902);
   (2914, 2915); (2946, 2946); (3008, 3008); (3021, 3021); (3072, 3072); (3076, 3076);
   (3132, 3132); (3134, 3136); (3142, 3144); (3146, 3149); (3157, 3158); (3170, 3171);
   (3201, 3201); (3260, 3260); (3263, 3263); (3270, 3270); (3276, 3277); (3298, 3299);
   (3328, 3329); (3387, 3388); (3393, 3396); (3405, 3405); (3426, 3427); (3457, 3457);
   (3530, 3530); (3538, 3540); (3542, 3542); (3633, 3633); (3636, 3642); (3654, 3662);
   (3761, 3761); (3764, 3772); (3782, 3782); (3784, 3789); (3864, 3865); (3893, 3893);
   (3895, 3895); (3897, 3897); (3953, 3966); (3968, 3972); (3974, 3975); (3981, 3991);
   (3993, 4028); (4038, 4038); (4141, 4144); (4146, 4151); (4153, 4154); (4157, 4158);
   (4184, 4185); (4190, 4192); (4209, 4212); (4226, 4226); (4229, 4230); (4237, 4237);
   (4253, 4253); (4348, 4348); (4957, 4959); (5906, 5908); (5938, 5939); (5970, 5971);
   (6002, 6003); (6068, 6069); (6071, 6077); (6086, 6086); (6089, 6099); (6103, 6103);
   (6109, 6109); (6155, 6159); (6211, 6211); (6277, 6278); (6313, 6313); (6432, 6434);
   (6439, 6440); (6450, 6450); (6457, 6459); (6679, 6680); (6683, 6683); (6742, 6742);
   (6744, 6750); (6752, 6752); (6754, 6754); (6757, 6764); (6771, 6780); (6783, 6783);
   (6823, 6823); (6832, 6862); (6912, 6915); (6964, 6964); (6966, 6970); (6972, 6972);
   (6978, 6978); (7019, 7027); (7040, 7041); (7074, 7077); (7080, 7081); (7083, 7085);
   (7142, 7142); (7144, 7145); (7149, 7149); (7151, 7153); (7212, 7219); (7222, 7223);
   (7288, 7293); (7376, 7378); (7380, 7392); (7394, 7400); (7405, 7405); (7412, 7412);
   (7416, 7417); (7468, 7530); (7544, 7544); (7579, 7679); (8125, 8125); (8127, 8129);
   (8141, 8143); (8157, 8159); (8173, 8175); (8189, 8190); (8203, 8207); (8216, 8217);
   (8228, 8228); (8231, 8231); (8234, 8238); (8288, 8292); (8294, 8303); (8305, 8305);
   (8319, 8319); (8336, 8348); (8400, 8432); (11388, 11389); (11503, 11505);
   (11631, 11631); (11647, 11647); (11744, 11775); (11823, 11823); (12293, 12293);
   (12330, 12333); (12337, 12341); (12347, 12347); (12441, 12446); (12540, 12542);
   (40981, 40981); (42232, 42237); (42508, 42508); (42607, 42610); (42612, 42621);
   (42623, 42623); (42652, 42655); (42736, 42737); (42752, 42785); (42864, 42864);
   (42888, 42890); (42994, 42996); (43000, 43001); (43010, 43010); (43014, 43014);
   (43019, 43019); (43045, 43046); (43052, 43052); (43204, 43205); (43232, 43249);
   (43263, 43263); (43302, 43309); (43335, 43345); (43392, 43394); (43443, 43443);
   (43446, 43449); (43452, 43453); (43471, 43471); (43493, 43494); (43561, 43566);
   (43569, 43570); (43573, 43574); (43587, 43587); (43596, 43596); (43632, 43632);
   (43644, 43644); (43696, 43696); (43698, 43700); (43703, 43704); (43710, 43711);
   (43713, 43713); (43741, 43741); (43756, 43757); (43763, 43764); (43766, 43766);
   (43867, 43871); (43881, 43883); (44005, 44005); (44008, 44008); (44013, 44013);
   (64286, 64286); (64434, 64450); (65024, 65039); (65043, 65043); (65056, 65071);
   (65106, 65106); (65109, 65109); (65279, 65279); (65287, 65287); (65294, 65294);
   (65306, 65306); (65342, 65342); (65344, 65344); (65392, 65392); (65438, 65439);
   (65507, 65507); (65529, 65531); (66045, 66045); (66272, 66272); (66422, 66426);
   (67456, 67461); (67463, 67504); (67506, 67514); (68097, 68099); (68101, 68102);
   (68108, 68111); (68152, 68154); (68159, 68159); (68325, 68326); (68900, 68903);
   (69291, 69292); (69446, 69456); (69506, 69509); (69633, 69633); (69688, 69702);
   (69744, 69744); (69747, 69748); (69759, 69761); (69811, 69814); (69817, 69818);
   (69821, 69821); (69826, 69826); (69837, 69837); (69888, 69890); (69927, 69931);
   (69933, 69940); (70003, 70003); (70016, 70017); (70070, 70078); (70089, 70092);
   (70095, 70095); (70191, 70193); (70196, 70196); (70198, 70199); (70206, 70206);
   (70367, 70367); (70371, 70378); (70400, 70401); (70459, 70460); (70464, 70464);
   (70502, 70508); (70512, 70516); (70712, 70719); (70722, 70724); (70726, 70726);
   (70750, 70750); (70835, 70840); (70842, 70842); (70847, 70848); (70850, 70851);
   (71090, 71093); (71100, 71101); (71103, 71104); (71132, 71133); (71219, 71226);
   (71229, 71229); (71231, 71232); (71339, 71339); (71341, 71341); (71344, 71349);
   (71351, 71351); (71453, 71455); (71458, 71461); (71463, 71467); (71727, 71735);
   (71737, 71738); (71995, 71996); (71998, 71998); (72003, 72003); (72148, 72151);
   (72154, 72155); (72160, 72160); (72193, 72202); (72243, 72248); (72251, 72254);
   (72263, 72263); (72273, 72278); (72281, 72283); (72330, 72342); (72344, 72345);
   (72752, 72758); (72760, 72765); (72767, 72767); (72850, 72871); (72874, 72880);
   (72882, 72883); (72885, 72886); (73009, 73014); (73018, 73018); (73020, 73021);
   (73023, 73029); (73031, 73031); (73104, 73105); (73109, 73109); (73111, 73111);
   (73459, 73460); (78896, 78904); (92912, 92916); (92976, 92982); (92992, 92995);
   (94031, 94031); (94095, 94111); (94176, 94177); (94179, 94180); (110576, 110579);
   (110581, 110587); (110589, 110590); (113821, 113822); (113824, 113827);
   (118528, 118573); (118576, 118598); (119143, 119145); (119155, 119170);
   (119173, 119179); (119210, 119213); (119362, 119364); (121344, 121398);
   (121403, 121452); (121461, 121461); (121476, 121476); (121499, 121503);
   (121505, 121519); (122880, 122886); (122888, 122904); (122907, 122913);
   (122915, 122916); (122918, 122922); (123184, 123197); (123566, 123566);
   (123628, 123631); (125136, 125142); (125252, 125259); (127995, 127999);
   (917505, 917505); (917536, 917631); (917760, 917999)].

(** The simple lower-case mappings, as arithmetic runs [(first, last, step, image of first)]. *)
Definition lower_runs : list (N * N * N * N) :=
  [(65, 90, 1, 97); (192, 214, 1, 224); (216, 222, 1, 248); (256, 302, 2, 257);
   (306, 310, 2, 307); (313, 327, 2, 314); (330, 374, 2, 331); (376, 376, 1, 255);
   (377, 381, 2, 378); (385, 385, 1, 595); (386, 388, 2, 387); (390, 390, 1, 596);
   (391, 391, 1, 392); (393, 394, 1, 598); (395, 395, 1, 396); (398, 398, 1, 477);
   (399, 399, 1, 601); (400, 400, 1, 603); (401, 401, 1, 402); (403, 403, 1, 608);
   (404, 404, 1, 611); (406, 406, 1, 617); (407, 407, 1, 616); (408, 408, 1, 409);
   (412, 412, 1, 623); (413, 413, 1, 626); (415, 415, 1, 629); (416, 420, 2, 417);
   (422, 422, 1, 640); (423, 423, 1, 424); (425, 425, 1, 643); (428, 428, 1, 429);
   (430, 430, 1, 648); (431, 431, 1, 432); (433, 434, 1, 650); (435, 437, 2, 436);
   (439, 439, 1, 658); (440, 440, 1, 441); (444, 444, 1, 445); (452, 452, 1, 454);
   (453, 453, 1, 454); (455, 455, 1, 457); (456, 456, 1, 457); (458, 458, 1, 460);
   (459, 475, 2, 460); (478, 494, 2, 479); (497, 497, 1, 499); (498, 500, 2, 499);
   (502, 502, 1, 405); (503, 503, 1, 447); (504, 542, 2, 505); (544, 544, 1, 414);
   (546, 562, 2, 547); (570, 570, 1, 11365); (571, 571, 1, 572); (573, 573, 1, 410);
   (574, 574, 1, 11366); (577, 577, 1, 578); (579, 579, 1, 384); (580, 580, 1, 649);
   (581, 581, 1, 652); (582, 590, 2, 583); (880, 882, 2, 881); (886, 886, 1, 887);
   (895, 895, 1, 1011); (902, 902, 1, 940); (904, 906, 1, 941); (908, 908, 1, 972);
   (910, 911, 1, 973); (913, 929, 1, 945); (931, 939, 1, 963); (975, 975, 1, 983);
   (984, 1006, 2, 985); (1012, 1012, 1, 952); (1015, 1015, 1, 1016);
   (1017, 1017, 1, 1010); (1018, 1018, 1, 1019); (1021, 1023, 1, 891);
   (1024, 1039, 1, 1104); (1040, 1071, 1, 1072); (1120, 1152, 2, 1121);
   (1162, 1214, 2, 1163); (1216, 1216, 1, 1231); (1217, 1229, 2, 1218);
   (1232, 1326, 2, 1233); (1329, 1366, 1, 1377); (4256, 4293, 1, 11520);
   (4295, 4295, 1, 11559); (4301, 4301, 1, 11565); (5024, 5103, 1, 43888);
   (5104, 5109, 1, 5112); (7312, 7354, 1, 4304); (7357, 7359, 1, 4349);
   (7680, 7828, 2, 7681); (7838, 7838, 1, 223); (7840, 7934, 2, 7841);
   (7944, 7951, 1, 7936); (7960, 7965, 1, 7952); (7976, 7983, 1, 7968);
   (7992, 7999, 1, 7984); (8008, 8013, 1, 8000); (8025, 8031, 2, 8017);
   (8040, 8047, 1, 8032); (8072, 8079, 1, 8064); (8088, 8095, 1, 8080);
   (8104, 8111, 1, 8096); (8120, 8121, 1, 8112); (8122, 8123, 1, 8048);
   (8124, 8124, 1, 8115); (8136, 8139, 1, 8050); (8140, 8140, 1, 8131);
   (8152, 8153, 1, 8144); (8154, 8155, 1, 8054); (8168, 8169, 1, 8160);
   (8170, 8171, 1, 8058); (8172, 8172, 1, 8165); (8184, 8185, 1, 8056);
   (8186, 8187, 1, 8060); (8188, 8188, 1, 8179); (8486, 8486, 1, 969);
   (8490, 8490, 1, 107); (8491, 8491, 1, 229); (8498, 8498, 1, 8526);
   (8544, 8559, 1, 8560); (8579, 8579, 1, 8580); (9398, 9423, 1, 9424);
   (11264, 11311, 1, 11312); (11360, 11360, 1, 11361); (11362, 11362, 1, 619);
   (11363, 11363, 1, 7549); (11364, 11364, 1, 637); (11367, 11371, 2, 11368);
   (11373, 11373, 1, 593); (11374, 11374, 1, 625); (11375, 11375, 1, 592);
   (11376, 11376, 1, 594); (11378, 11378, 1, 11379); (11381, 11381, 1, 11382);
   (11390, 11391, 1, 575); (11392, 11490, 2, 11393); (11499, 11501, 2, 11500);
   (11506, 11506, 1, 11507); (42560, 42604, 2, 42561); (42624, 42650, 2, 42625);
   (42786, 42798, 2, 42787); (42802, 42862, 2, 42803); (42873, 42875, 2, 42874);
   (42877, 42877, 1, 7545); (42878, 42886, 2, 42879); (42891, 42891, 1, 42892);
   (42893, 42893, 1, 613); (42896, 42898, 2, 42897); (42902, 42920, 2, 42903);
   (42922, 42922, 1, 614); (42923, 42923, 1, 604); (42924, 42924, 1, 609);
   (42925, 42925, 1, 620); (42926, 42926, 1, 618); (42928, 42928, 1, 670);
   (42929, 42929, 1, 647); (42930, 42930, 1, 669); (42931, 42931, 1, 43859);
   (42932, 42946, 2, 42933); (42948, 42948, 1, 42900); (42949, 42949, 1, 642);
   (42950, 42950, 1, 7566); (42951, 42953, 2, 42952); (42960, 42960, 1, 42961);
   (42966, 42968, 2, 42967); (42997, 42997, 1, 42998); (65313, 65338, 1, 65345);
   (66560, 66599, 1, 66600); (66736, 66771, 1, 66776); (66928, 66938, 1, 66967);
   (66940, 66954, 1, 66979); (66956, 66962, 1, 66995); (66964, 66965, 1, 67003);
   (68736, 68786, 1, 68800); (71840, 71871, 1, 71872); (93760, 93791, 1, 93792);
   (125184, 125217, 1, 125218)].

(** [ch.isspace()], and what [str.strip()] removes. *)
Definition isspace (c : N) : bool := in_ranges space_ranges c.
(** [ch.isalpha()]. *)
Definition isalpha (c : N) : bool := in_ranges alpha_ranges c.
(** [ch.isdigit()]. *)
Definition isdigit (c : N) : bool := in_ranges digit_ranges c.
Definition is_cased (c : N) : bool := in_ranges cased_ranges c.
Definition is_case_ignorable (c : N) : bool := in_ranges case_ignorable_ranges c.

(** The value of a decimal digit, in any script. *)
Fixpoint decimal_in (rs : list (N * N)) (c : N) : option N :=
  match rs with
  | [] => None
  | r :: rest =>
      if (fst r <=? c) && (c <=? snd r) then Some ((c - fst r) mod 10)
      else decimal_in rest c
  end.
Definition to_decimal (c : N) : option N := decimal_in decimal_ranges c.

Fixpoint lower_in (runs : list (N * N * N * N)) (c : N) : option N :=
  match runs with
  | [] => None
  | (lo, hi, step, image) :: rest =>
      if (lo <=? c) && (c <=? hi) && ((c - lo) mod step =? 0) then Some (image + (c - lo))
      else lower_in rest c
  end.

(** The full lower-case mapping of one character: U+0130 is the one
    character whose image has two. *)
Definition to_lower_full (c : N) : list N :=
  if c =? 304 then [105; 775]
  else match lower_in lower_runs c with
       | Some d => [d]
       | None => [c]
       end.

(** ASCII classes, as the character sets of a regular expression name
    them. *)
Definition ascii_upper (c : N) : bool := (65 <=? c) && (c <=? 90).
Definition ascii_lower (c : N) : bool := (97 <=? c) && (c <=? 122).
Definition ascii_digit (c : N) : bool := (48 <=? c) && (c <=? 57).
Definition ascii_alpha (c : N) : bool := ascii_upper c || ascii_lower c.
Definition ascii_alnum (c : N) : bool := ascii_alpha c || ascii_digit c.

End Unicode.

(** ** UTF-8 *)

Module Utf8.
Local Open Scope N_scope.

Definition encode1 (c : N) : list N :=
  if c <? 128 then [c]
  else if c <? 2048 then [192 + c / 64; 128 + c mod 64]
  else if c <? 65536 then [224 + c / 4096; 128 + (c / 64) mod 64; 128 + c mod 64]
  else [240 + c / 262144; 128 + (c / 4096) mod 64; 128 + (c / 64) mod 64; 128 + c mod 64].

(** The bytes of a string of scalar values. *)
Definition bytes (s : list N) : list N := flat_map encode1 s.

(** A surrogate has no encoding, and nothing is a character above
    U+10FFFF. *)
Definition encodable1 (c : N) : bool :=
  ((c <? 55296) || (57343 <? c)) && (c <? 1114112).
Definition encodable (s : list N) : bool := forallb encodable1 s.

Definition cont (b : N) : bool := (128 <=? b) && (b <=? 191).

(** Decoding, for the string literals of this file: well-formed sequences
    decode to their character, any other byte to itself. *)
Fixpoint decode_fuel (n : nat) (bs : list N) : list N :=
  match n with
  | O => []
  | S k =>
    match bs with
    | [] => []
    | b0 :: r0 =>
      match r0 with
      | b1 :: b2 :: b3 :: r3 =>
          if (240 <=? b0) && (b0 <=? 244) && cont b1 && cont b2 && cont b3 then
            ((b0 - 240) * 262144 + (b1 - 128) * 4096 + (b2 - 128) * 64 + (b3 - 128))
              :: decode_fuel k r3
          else if (224 <=? b0) && (b0 <=? 239) && cont b1 && cont b2 then
            ((b0 - 224) * 4096 + (b1 - 128) * 64 + (b2 - 128)) :: decode_fuel k (b3 :: r3)
          else if (194 <=? b0) && (b0 <=? 223) && cont b1 then
            ((b0 - 192) * 64 + (b1 - 128)) :: decode_fuel k (b2 :: b3 :: r3)
          else b0 :: decode_fuel k r0
      | [b1; b2] =>
          if (224 <=? b0) && (b0 <=? 239) && cont b1 && cont b2 then
            [(b0 - 224) * 4096 + (b1 - 128) * 64 + (b2 - 128)]
          else if (194 <=? b0) && (b0 <=? 223) && cont b1 then
            ((b0 - 192) * 64 + (b1 - 128)) :: decode_fuel k [b2]
          else b0 :: decode_fuel k r0
      | [b1] =>
          if (194 <=? b0) && (b0 <=? 223) && cont b1 then [(b0 - 192) * 64 + (b1 - 128)]
          else b0 :: decode_fuel k r0
      | [] => [b0]
      end
    end
  end.

Definition decode (bs : list N) : list N := decode_fuel (List.length bs) bs.

End Utf8.

(** ** Python-level helpers *)

Module Py.
Export Unicode.

(** A [str]: its code points. *)
Definition str : Type := list N.

(** String literals denote the characters of their UTF-8 text. *)
Inductive literal : Type :=
| lit_nil
| lit_cons (c : N) (s : literal).

Fixpoint literal_of (l : list N) : literal :=
  match l with
  | [] => lit_nil
  | c :: rest => lit_cons c (literal_of rest)
  end.

Fixpoint chars_of (l : literal) : list N :=
  match l with
  | lit_nil => []
  | lit_cons c rest => c :: chars_of rest
  end.

Definition literal_parse (bs : list byte) : literal :=
  literal_of (Utf8.decode (map Byte.to_N bs)).

Fixpoint bytes_of (l : list N) : option (list byte) :=
  match l with
  | [] => Some []
  | b :: rest =>
      match Byte.of_N b, bytes_of rest with
      | Some x, Some y => Some (x :: y)
      | _, _ => None
      end
  end.

Definition literal_print (l : literal) : option (list byte) :=
  bytes_of (Utf8.bytes (chars_of l)).

Declare Scope str_scope.
Delimit Scope str_scope with str.
Bind Scope str_scope with str.
#[warnings="-via-type-mismatch,-via-type-remapping"]
String Notation str literal_parse literal_print
  (via literal mapping [[nil] => lit_nil, [cons] => lit_cons]) : str_scope.
Local Open Scope str_scope.

(** The one character of a one-character literal. *)
Definition chr (s : str) : N := hd 0%N s.

(** [a == b]. *)
Fixpoint str_eqb (a b : str) : bool :=
  match a, b with
  | [], [] => true
  | x :: a', y :: b' => (x =? y)%N && str_eqb a' b'
  | _, _ => false
  end.

(** Exceptions that the handlers raise or catch. *)
Inductive exn : Type :=
| HTTPException (status_code : Z) (detail : str) (headers : list (str * str))
| ValueError (msg : str)
| TypeError (msg : str)
| AttributeError (msg : str)
| UnicodeEncodeError (msg : str)
| IntegrityError (msg : str)
| JWTError (msg : str)
| RequestValidationError (field msg : str).

Inductive result (A : Type) : Type :=
| Ok (a : A)
| Raise (e : exn).
Arguments Ok {A} a.
Arguments Raise {A} e.

Definition bind {A B} (r : result A) (k : A -> result B) : result B :=
  match r with
  | Ok a => k a
  | Raise e => Raise e
  end.

Definition is_ok {A} (r : result A) : bool :=
  match r with Ok _ => true | Raise _ => false end.

(** [try: body / except HTTPException: raise / except Exception: raise
    HTTPException(status, detail, headers)], the shape of every handler. *)
Definition reraise_http {A} (status : Z) (detail : str)
    (headers : list (str * str)) (r : result A) : result A :=
  match r with
  | Ok a => Ok a
  | Raise (HTTPException s d h) => Raise (HTTPException s d h)
  | Raise _ => Raise (HTTPException status detail headers)
  end.

(** *** [str] methods *)

Fixpoint drop_while {A} (p : A -> bool) (l : list A) : list A :=
  match l with
  | [] => []
  | x :: rest => if p x then drop_while p rest else l
  end.

Fixpoint take_while {A} (p : A -> bool) (l : list A) : list A :=
  match l with
  | [] => []
  | x :: rest => if p x then x :: take_while p rest else []
  end.

(** Whether a capital sigma stands in final position: the nearest
    character before it that is not case-ignorable is cased, and the
    nearest such character after it, if any, is not.  [before] lists the
    preceding characters, the nearest first. *)
Definition final_sigma (before after : str) : bool :=
  match drop_while is_case_ignorable before with
  | c :: _ => is_cased c
  | [] => false
  end
  && match drop_while is_case_ignorable after with
     | c :: _ => negb (is_cased c)
     | [] => true
     end.

(** The lower-case image of one character of a string: a capital sigma
    becomes a final or a medial small sigma, any other character has its
    full mapping. *)
Definition lower_char (before : str) (c : N) (after : str) : str :=
  if (c =? 931)%N then [if final_sigma before after then 962%N else 963%N]
  else to_lower_full c.

(** Lower-casing the part [s] of a string, between [before] (nearest
    character first) and [after]. *)
Fixpoint lower_between (before s after : str) : str :=
  match s with
  | [] => []
  | c :: rest =>
      (lower_char before c (rest ++ after) ++ lower_between (c :: before) rest after)%list
  end.

(** [s.lower()]. *)
Definition lower (s : str) : str := lower_between [] s [].

Fixpoint lstrip (s : str) : str :=
  match s with
  | [] => []
  | c :: s' => if isspace c then lstrip s' else s
  end.

Fixpoint rstrip (s : str) : str :=
  match s with
  | [] => []
  | c :: s' =>
      match rstrip s' with
      | [] => if isspace c then [] else [c]
      | r => c :: r
      end
  end.

(** [s.strip()]. *)
Definition strip (s : str) : str := rstrip (lstrip s).

(** [s.lstrip(chars)] for a one-character [chars]. *)
Fixpoint lstrip_char (ch : N) (s : str) : str :=
  match s with
  | [] => []
  | c :: s' => if (c =? ch)%N then lstrip_char ch s' else s
  end.

Definition len (s : str) : Z := Z.of_nat (List.length s).

(** Truth value of a [str]: the empty string is false. *)
Definition truthy (s : str) : bool :=
  match s with [] => false | _ => true end.

Definition truthy_opt (o : option str) : bool :=
  match o with None => false | Some s => truthy s end.

(** [any(p(ch) for ch in s)] and [all(p(ch) for ch in s)]. *)
Fixpoint any_char (p : N -> bool) (s : str) : bool :=
  match s with
  | [] => false
  | c :: s' => p c || any_char p s'
  end.

Fixpoint all_char (p : N -> bool) (s : str) : bool :=
  match s with
  | [] => true
  | c :: s' => p c && all_char p s'
  end.

(** [s.startswith(pre)]. *)
Fixpoint startswith (pre s : str) : bool :=
  match pre, s with
  | [], _ => true
  | x :: pre', y :: s' => (x =? y)%N && startswith pre' s'
  | _ :: _, [] => false
  end.

(** [sub in s]. *)
Fixpoint contains (sub s : str) : bool :=
  startswith sub s ||
  match s with
  | [] => false
  | _ :: s' => contains sub s'
  end.

(** [s.endswith(suf)]. *)
Definition endswith (suf s : str) : bool :=
  let n := List.length s in
  let k := List.length suf in
  (k <=? n)%nat && str_eqb (skipn (n - k) s) suf.

(** [str(n)] for an [int]. *)
Definition digit_char (d : N) : N := (48 + d)%N.

Fixpoint uint_str (u : Decimal.uint) : str :=
  match u with
  | Decimal.Nil => []
  | Decimal.D0 r => digit_char 0 :: uint_str r
  | Decimal.D1 r => digit_char 1 :: uint_str r
  | Decimal.D2 r => digit_char 2 :: uint_str r
  | Decimal.D3 r => digit_char 3 :: uint_str r
  | Decimal.D4 r => digit_char 4 :: uint_str r
  | Decimal.D5 r => digit_char 5 :: uint_str r
  | Decimal.D6 r => digit_char 6 :: uint_str r
  | Decimal.D7 r => digit_char 7 :: uint_str r
  | Decimal.D8 r => digit_char 8 :: uint_str r
  | Decimal.D9 r => digit_char 9 :: uint_str r
  end.

Definition str_of_int (n : Z) : str :=
  match n with
  | Z0 => "0"
  | Zpos p => uint_str (Pos.to_uint p)
  | Zneg p => "-" ++ uint_str (Pos.to_uint p)
  end.

(** [str(e)] for an exception. *)
Definition exn_str (e : exn) : str :=
  match e with
  | HTTPException s d _ => str_of_int s ++ ": " ++ d
  | ValueError m | TypeError m | AttributeError m | UnicodeEncodeError m
  | IntegrityError m | JWTError m => m
  | RequestValidationError f m => f ++ ": " ++ m
  end.

(** [x in xs] for a list of strings. *)
Definition mem_str (x : str) (xs : list str) : bool :=
  existsb (str_eqb x) xs.

Definition mem_Z (x : Z) (xs : list Z) : bool := existsb (Z.eqb x) xs.

(** A [set] built by a comprehension: the distinct elements. *)
Fixpoint set_of (xs : list str) : list str :=
  match xs with
  | [] => []
  | x :: rest => if mem_str x rest then set_of rest else x :: set_of rest
  end.

(** [a & b] on sets. *)
Definition set_inter (a b : list str) : list str :=
  filter (fun x => mem_str x b) a.

(** [q.first()]. *)
Definition first {A} (p : A -> bool) (rows : list A) : option A := find p rows.

End Py.
Import Py.
Local Open Scope str_scope.


(** ** [hashlib.md5] (RFC 1321) over byte strings *)

Module MD5.
Local Open Scope N_scope.

Definition w32 : N := 4294967296.
Definition mask32 : N := 4294967295.

Definition add32 (a b : N) : N := (a + b) mod w32.
Definition not32 (a : N) : N := N.lxor a mask32.
Definition rotl32 (x c : N) : N :=
  N.lor (N.shiftl x c mod w32) (N.shiftr x (32 - c)).

Definition K : list N :=
  [ 3614090360; 3905402710; 606105819; 3250441966;
    4118548399; 1200080426; 2821735955; 4249261313;
    1770035416; 2336552879; 4294925233; 2304563134;
    1804603682; 4254626195; 2792965006; 1236535329;
    4129170786; 3225465664; 643717713; 3921069994;
    3593408605; 38016083; 3634488961; 3889429448;
    568446438; 3275163606; 4107603335; 1163531501;
    2850285829; 4243563512; 1735328473; 2368359562;
    4294588738; 2272392833; 1839030562; 4259657740;
    2763975236; 1272893353; 4139469664; 3200236656;
    681279174; 3936430074; 3572445317; 76029189;
    3654602809; 3873151461; 530742520; 3299628645;
    4096336452; 1126891415; 2878612391; 4237533241;
    1700485571; 2399980690; 4293915773; 2240044497;
    1873313359; 4264355552; 2734768916; 1309151649;
    4149444226; 3174756917; 718787259; 3951481745 ].

Definition S : list N :=
  [ 7; 12; 17; 22; 7; 12; 17; 22; 7; 12; 17; 22; 7; 12; 17; 22;
    5; 9; 14; 20; 5; 9; 14; 20; 5; 9; 14; 20; 5; 9; 14; 20;
    4; 11; 16; 23; 4; 11; 16; 23; 4; 11; 16; 23; 4; 11; 16; 23;
    6; 10; 15; 21; 6; 10; 15; 21; 6; 10; 15; 21; 6; 10; 15; 21 ].

(** [s.encode()], for a string that has an encoding. *)
Definition bytes_of_string (s : str) : list N := Utf8.bytes s.

(** Little-endian bytes of the low [n] bytes of [x]. *)
Fixpoint le_bytes (n : nat) (x : N) : list N :=
  match n with
  | O => []
  | Datatypes.S k => (x mod 256) :: le_bytes k (x / 256)
  end.

Fixpoint le_word (bs : list N) : N :=
  match bs with
  | [] => 0
  | b :: rest => b + 256 * le_word rest
  end.

(** Padding: a 1 bit, zeros up to 56 mod 64, then the bit length on 64
    bits. *)
Definition pad (msg : list N) : list N :=
  let l := N.of_nat (List.length msg) in
  let zeros := N.to_nat ((119 - (l mod 64)) mod 64) in
  msg ++ [128] ++ repeat 0 zeros ++ le_bytes 8 ((8 * l) mod 18446744073709551616).

Fixpoint words (n : nat) (bs : list N) : list N :=
  match n with
  | O => []
  | Datatypes.S k => le_word (firstn 4 bs) :: words k (skipn 4 bs)
  end.

Definition state : Type := (N * N * N * N)%type.

Definition round (M : list N) (st : state) (i : nat) : state :=
  let '(a, b, c, d) := st in
  let i' := N.of_nat i in
  let '(f, g) :=
    if i' <? 16 then (N.lor (N.land b c) (N.land (not32 b) d), i')
    else if i' <? 32 then (N.lor (N.land d b) (N.land (not32 d) c), (5 * i' + 1) mod 16)
    else if i' <? 48 then (N.lxor (N.lxor b c) d, (3 * i' + 5) mod 16)
    else (N.lxor c (N.lor b (not32 d)), (7 * i') mod 16) in
  let f' := add32 (add32 (add32 f a) (nth i K 0)) (nth (N.to_nat g) M 0) in
  (d, add32 b (rotl32 f' (nth i S 0)), b, c).

Definition chunk (st : state) (block : list N) : state :=
  let M := words 16 block in
  let '(a, b, c, d) := fold_left (round M) (seq 0 64) st in
  let '(a0, b0, c0, d0) := st in
  (add32 a0 a, add32 b0 b, add32 c0 c, add32 d0 d).

Fixpoint chunks (n : nat) (st : state) (bs : list N) : state :=
  match n with
  | O => st
  | Datatypes.S k => chunks k (chunk st (firstn 64 bs)) (skipn 64 bs)
  end.

Definition digest (msg : list N) : list N :=
  let p := pad msg in
  let '(a, b, c, d) :=
    chunks (List.length p / 64) (1732584193, 4023233417, 2562383102, 271733878) p in
  le_bytes 4 a ++ le_bytes 4 b ++ le_bytes 4 c ++ le_bytes 4 d.

Definition hex_digit (n : N) : N :=
  if n <? 10 then 48 + n else 87 + n.

Fixpoint hex (bs : list N) : str :=
  match bs with
  | [] => []
  | b :: rest => hex_digit (b / 16) :: hex_digit (b mod 16) :: hex rest
  end.

(** [hashlib.md5(s.encode()).hexdigest()]. *)
Definition hexdigest (s : str) : str := hex (digest (bytes_of_string s)).

End MD5.

(** ** [app/utils/tts.py] *)

Definition CACHE_DIR : str := "cache/tts".

(** [Path / name]. *)
Definition path_join (dir name : str) : str := dir ++ "/" ++ name.

(** [encode()] raises on a string that holds a surrogate. *)
Definition get_tts_cache_path (text voice : str) : result str :=
  if negb (Utf8.encodable (text ++ "_" ++ voice)) then
    Raise (UnicodeEncodeError "'utf-8' codec can't encode character: surrogates not allowed")
  else
    let content_hash := MD5.hexdigest (text ++ "_" ++ voice) in
    Ok (path_join CACHE_DIR (content_hash ++ ".mp3")).

(** [app/routers/tts.py]: every call there passes as voice
    [f"recipe_{recipe_id}_step_{step_number}"]. *)
Definition voice_id (recipe_id step_number : Z) : str :=
  "recipe_" ++ str_of_int recipe_id ++ "_step_" ++ str_of_int step_number.

(** ** Python [float] as exact binary64 values *)

Module Float.
Local Open Scope Q_scope.

Definition float : Type := Q.

(** Nearest integer, ties to even. *)
Definition round_half_even (q : Q) : Z :=
  let f := Qfloor q in
  match Qcompare (q - inject_Z f) (1 # 2) with
  | Lt => f
  | Gt => (f + 1)%Z
  | Eq => if Z.even f then f else (f + 1)%Z
  end.

(** [floor (log2 q)] for [0 < q]. *)
Definition ilog2 (q : Q) : Z :=
  let e := (Z.log2 (Qnum q) - Z.log2 (Zpos (Qden q)))%Z in
  if Qle_bool (Qpower 2 e) q then e else (e - 1)%Z.

(** The binary64 value nearest to [0 < q] (53-bit significand, gradual
    underflow below [2^-1022]; no magnitude in this program overflows). *)
Definition nearest_pos (q : Q) : float :=
  let p := Z.max (ilog2 q - 52) (-1074) in
  Qred (inject_Z (round_half_even (q / Qpower 2 p)) * Qpower 2 p).

Definition of_Q (q : Q) : float :=
  match Qcompare q 0 with
  | Eq => 0
  | Gt => nearest_pos q
  | Lt => - nearest_pos (- q)
  end.

(** [a / b] on two [int]s, [b > 0]: the correctly rounded quotient. *)
Definition div (a b : Z) : float := of_Q (Qmake a (Z.to_pos b)).

(** [round(x, 2)]: the exact value of [x] is rounded to two decimals, ties
    to even, and the decimal result is read back as a binary64. *)
Definition round2 (x : float) : float :=
  of_Q (inject_Z (round_half_even (x * 100)) / 100).

Definition neg (x : float) : float := Qred (- x).

(** [x >= y]. *)
Definition ge (x y : float) : bool := Qle_bool y x.
(** [x <= y]. *)
Definition le (x y : float) : bool := Qle_bool x y.

End Float.

(** ** JSON values carried by a token's claims *)

Inductive json : Type :=
| JNull
| JBool (b : bool)
| JInt (n : Z)
| JStr (s : str).

Definition claims : Type := list (str * json).

(** [d.get(key)]. *)
Fixpoint dict_get (key : str) (d : claims) : option json :=
  match d with
  | [] => None
  | (k, v) :: rest => if str_eqb k key then Some v else dict_get key rest
  end.

(** Truth value of [d.get(key)]: [None], [False], [0] and [''] are false. *)
Definition json_truthy (o : option json) : bool :=
  match o with
  | None | Some JNull => false
  | Some (JBool b) => b
  | Some (JInt n) => negb (n =? 0)
  | Some (JStr s) => truthy s
  end.

(** The blanks [int()] skips around a literal: C's [isspace] below 127,
    every Unicode space from there on. *)
Definition int_space (c : N) : bool :=
  if (c <? 127)%N then ((9 <=? c) && (c <=? 13) || (c =? 32))%N else isspace c.

(** Digits of an [int] literal, in any script, with underscores only
    between digits; what follows the digits is blank. *)
Fixpoint digits_val (acc : Z) (after_digit : bool) (s : str) : option Z :=
  match s with
  | [] => if after_digit then Some acc else None
  | c :: s' =>
      match to_decimal c with
      | Some d => digits_val (10 * acc + Z.of_N d) true s'
      | None =>
          if (c =? chr "_")%N && after_digit then digits_val acc false s'
          else if after_digit && forallb int_space s then Some acc
          else None
      end
  end.

(** [int(s)] for a [str]: surrounding blanks and a sign are accepted.  The
    message of the [ValueError] also quotes the literal; no handler reads
    it. *)
Definition int_of_str (s : str) : result Z :=
  let bad := Raise (ValueError "invalid literal for int() with base 10") in
  match drop_while int_space s with
  | c :: ds =>
      if (c =? chr "-")%N then
        match digits_val 0 false ds with Some n => Ok (- n) | None => bad end
      else if (c =? chr "+")%N then
        match digits_val 0 false ds with Some n => Ok n | None => bad end
      else match digits_val 0 false (c :: ds) with Some n => Ok n | None => bad end
  | [] => bad
  end.

(** [int(v)] for a claim value. *)
Definition py_int (v : json) : result Z :=
  match v with
  | JNull =>
      Raise (TypeError "int() argument must be a string, a bytes-like object or a real number, not 'NoneType'")
  | JBool b => Ok (if b then 1 else 0)
  | JInt n => Ok n
  | JStr s => int_of_str s
  end.

(** ** [app/models]: the columns the handlers below read or write.
    The [created_at]/[updated_at] bookkeeping columns are left out. *)

Module User.
Record t : Type := mk {
  id : Z;
  email : str;
  hashed_password : str;
  is_premium : bool;
  is_active : bool;
  is_admin : bool;
  is_verified : bool;
  permissions : option str;
  first_name : option str;
  last_name : option str;
  last_login : option Z;
  language : str;
  timezone : str
}.

Definition set_is_active (b : bool) (u : t) : t :=
  mk (id u) (email u) (hashed_password u) (is_premium u) b (is_admin u)
     (is_verified u) (permissions u) (first_name u) (last_name u)
     (last_login u) (language u) (timezone u).

Definition set_is_premium (b : bool) (u : t) : t :=
  mk (id u) (email u) (hashed_password u) b (is_active u) (is_admin u)
     (is_verified u) (permissions u) (first_name u) (last_name u)
     (last_login u) (language u) (timezone u).

Definition set_last_login (ts : option Z) (u : t) : t :=
  mk (id u) (email u) (hashed_password u) (is_premium u) (is_active u) (is_admin u)
     (is_verified u) (permissions u) (first_name u) (last_name u)
     ts (language u) (timezone u).

(** [update_last_login]. *)
Definition update_last_login (now : Z) (u : t) : t := set_last_login (Some now) u.
End User.

Inductive DishCategory : Type := first_course | second_course | garnish.

Module Dish.
Record t : Type := mk {
  id : Z;
  name : str;
  category : DishCategory;
  user_id : Z
}.
End Dish.

Module Recipe.
Record t : Type := mk {
  id : Z;
  cook_time : Z;
  cook_method : str;
  servings : Z;
  photo_url : option str;
  is_favorite : bool;
  dish_id : Z
}.
End Recipe.

Module Ingredient.
Record t : Type := mk {
  id : Z;
  name : str
}.
End Ingredient.

Module RecipeIngredient.
Record t : Type := mk {
  id : Z;
  recipe_id : Z;
  ingredient_id : Z
}.
End RecipeIngredient.

Module CookingSession.
Record t : Type := mk {
  id : Z;
  user_id : Z;
  recipe_id : Z;
  is_completed : bool;
  started_at : Z
}.
End CookingSession.

(** The database: one list per table, and the id sequences of the tables
    the handlers insert into. *)
Record Db : Type := mkDb {
  users : list User.t;
  dishes : list Dish.t;
  recipes : list Recipe.t;
  ingredients : list Ingredient.t;
  recipe_ingredients : list RecipeIngredient.t;
  cooking_sessions : list CookingSession.t;
  users_id_seq : Z;
  dishes_id_seq : Z
}.

Definition set_users (us : list User.t) (db : Db) : Db :=
  mkDb us (dishes db) (recipes db) (ingredients db) (recipe_ingredients db)
       (cooking_sessions db) (users_id_seq db) (dishes_id_seq db).

Definition empty_db : Db := mkDb [] [] [] [] [] [] 1 1.

(** ** [app/utils/limits.py] *)

Record Limits : Type := mkLimits {
  max_dishes : Z;
  max_recipes_per_dish : Z;
  max_photo_size : Z;
  max_tts_cache_size : Z;
  can_use_premium_tts : bool;
  max_ingredients_per_recipe : Z;
  can_export_recipes : bool
}.

Definition get_user_limits (is_premium : bool) : Limits :=
  if is_premium then
    mkLimits 45 5 (10 * 1024 * 1024) (200 * 1024 * 1024) true 50 true
  else
    mkLimits 15 3 (2 * 1024 * 1024) (50 * 1024 * 1024) false 20 false.

(** ** [app/auth/security.py] *)

(** passlib's [CryptContext]: bcrypt is outside the repository.  [hash]
    draws a fresh salt, so a context value stands for one such draw. *)
Record CryptContext : Type := mkCryptContext {
  hash : str -> result str;
  verify : str -> str -> result bool
}.

Definition hash_password (pwd_context : CryptContext) (password : str) : result str :=
  if negb (truthy password) then
    Raise (HTTPException 400 "Password cannot be empty" [])
  else
    match hash pwd_context password with
    | Ok h => Ok h
    | Raise e => Raise (HTTPException 500 ("Error hashing password: " ++ exn_str e) [])
    end.

Definition verify_password (pwd_context : CryptContext)
    (plain_password hashed_password : str) : result bool :=
  if negb (truthy plain_password) || negb (truthy hashed_password) then
    Raise (HTTPException 400 "Password and hash must not be empty" [])
  else
    match verify pwd_context plain_password hashed_password with
    | Ok b => Ok b
    | Raise e => Raise (HTTPException 500 ("Error verifying password: " ++ exn_str e) [])
    end.

(** ** [app/auth/jwt.py] *)

(** python-jose's codec with the configured key and algorithm bound; both
    directions raise [JWTError] on failure.  [utcnow] is the clock. *)
Record Jose : Type := mkJose {
  jwt_encode : claims -> result str;
  jwt_decode : str -> result claims;
  utcnow : Z
}.

Definition JWT_ACCESS_TOKEN_EXPIRE_MINUTES : Z := 1440.

Definition bearer : list (str * str) := [("WWW-Authenticate", "Bearer")].

(** [d.update({key: v})]. *)
Fixpoint dict_set (key : str) (v : json) (d : claims) : claims :=
  match d with
  | [] => [(key, v)]
  | (k, w) :: rest =>
      if str_eqb k key then (k, v) :: rest else (k, w) :: dict_set key v rest
  end.

(** [expires_delta] is a number of seconds; a zero [timedelta] is false. *)
Definition create_access_token (jose : Jose) (data : claims)
    (expires_delta : option Z) : result str :=
  let expire :=
    match expires_delta with
    | Some d => if d =? 0 then utcnow jose + JWT_ACCESS_TOKEN_EXPIRE_MINUTES * 60
                else utcnow jose + d
    | None => utcnow jose + JWT_ACCESS_TOKEN_EXPIRE_MINUTES * 60
    end in
  let to_encode :=
    dict_set "type" (JStr "access")
      (dict_set "iat" (JInt (utcnow jose))
         (dict_set "exp" (JInt expire) data)) in
  match jwt_encode jose to_encode with
  | Raise (JWTError m) =>
      Raise (HTTPException 500 ("Could not create access token: " ++ m) [])
  | r => r
  end.

Definition is_access (v : option json) : bool :=
  match v with
  | Some (JStr s) => str_eqb s "access"
  | _ => false
  end.

Definition decode_access_token (jose : Jose) (token : str) : result claims :=
  match jwt_decode jose token with
  | Ok payload =>
      if negb (is_access (dict_get "type" payload)) then
        Raise (HTTPException 401 "Invalid token type" bearer)
      else Ok payload
  | Raise (JWTError _) => Raise (HTTPException 401 "Invalid token" bearer)
  | Raise e => Raise e
  end.

(** ** [app/dependencies/auth.py] *)

Definition get_current_user (jose : Jose) (token : str) (db : Db) : result User.t :=
  reraise_http 401 "Ошибка аутентификации" bearer
    (bind (decode_access_token jose token) (fun payload =>
     let user_id := dict_get "sub" payload in
     match user_id with
     | Some v =>
         if negb (json_truthy user_id) then
           Raise (HTTPException 401 "Некорректный токен" bearer)
         else
           bind (py_int v) (fun uid =>
           match first (fun u => User.id u =? uid) (users db) with
           | None => Raise (HTTPException 401 "Пользователь не найден" bearer)
           | Some user => Ok user
           end)
     | None => Raise (HTTPException 401 "Некорректный токен" bearer)
     end)).

Definition get_current_active_user (current_user : result User.t) : result User.t :=
  bind current_user (fun u => Ok u).

Definition get_current_admin_user (current_user : result User.t) : result User.t :=
  bind current_user (fun u =>
  if negb (User.is_admin u) then
    Raise (HTTPException 403 "Требуются права администратора" [])
  else Ok u).

(** ** [app/models/user.py]: the validators run by the constructor *)

(** [re.match(r"^[a-zA-Z0-9._%+-]+@[a-zA-Z0-9.-]+\.[a-zA-Z]{2,}$", s)]:
    the local part runs to the first [@]; the rest ends in a dot followed by
    at least two letters, and what precedes that dot is a non-empty run of
    domain characters. *)
Definition local_char (c : N) : bool :=
  ascii_alnum c || existsb (N.eqb c) "._%+-".

Definition domain_char (c : N) : bool :=
  ascii_alnum c || (c =? chr ".")%N || (c =? chr "-")%N.

Fixpoint split_at (ch : N) (s : str) : option (str * str) :=
  match s with
  | [] => None
  | c :: s' =>
      if (c =? ch)%N then Some ([], s')
      else match split_at ch s' with
           | Some (a, b) => Some (c :: a, b)
           | None => None
           end
  end.

Definition email_re_match (s : str) : bool :=
  (* [$] also matches before a newline that ends the string *)
  let s := match rev s with
           | 10%N :: r => rev r
           | _ => s
           end in
  match split_at (chr "@") s with
  | None => false
  | Some (local, rest) =>
      let r := rev rest in
      truthy local && all_char local_char local &&
      (2 <=? List.length (take_while ascii_alpha r))%nat &&
      match drop_while ascii_alpha r with
      | 46%N (* . *) :: d => negb (Nat.eqb (List.length d) 0) && forallb domain_char d
      | _ => false
      end
  end.

Definition User_validate_email (email : str) : result str :=
  if negb (truthy email) || negb (truthy (strip email)) then
    Raise (ValueError "Email не может быть пустым")
  else
    let email := lower (strip email) in
    if len email >? 255 then
      Raise (ValueError "Email не может быть длиннее 255 символов")
    else if negb (email_re_match email) then
      Raise (ValueError "Некорректный формат email")
    else Ok email.

Definition User_validate_hashed_password (hashed_password : str) : result str :=
  if negb (truthy hashed_password) then
    Raise (ValueError "Хэш пароля не может быть пустым")
  else if len hashed_password >? 1024 then
    Raise (ValueError "Хэш пароля не может быть длиннее 1024 символов")
  else Ok hashed_password.

(** [User(email=..., hashed_password=...)]: both validators run; every other
    column is left to its default, which the insert fills in. *)
Definition User_new (email hashed_password : str) : result (str * str) :=
  bind (User_validate_email email) (fun e =>
  bind (User_validate_hashed_password hashed_password) (fun h =>
  Ok (e, h))).

(** [db.add(user); db.commit(); db.refresh(user)]: the row gets the next id
    and the column defaults; the unique index on [email] rejects a
    duplicate. *)
Definition insert_user (email hashed_password : str) (db : Db) : result (Db * User.t) :=
  if existsb (fun u => str_eqb (User.email u) email) (users db) then
    Raise (IntegrityError "duplicate key value violates unique constraint")
  else
    let user :=
      User.mk (users_id_seq db) email hashed_password
              false true false false None None None None "ru" "UTC" in
    Ok (mkDb (users db ++ [user])%list (dishes db) (recipes db) (ingredients db)
             (recipe_ingredients db) (cooking_sessions db)
             (users_id_seq db + 1) (dishes_id_seq db),
        user).

(** ** [app/schemas/user.py] *)

(** What pydantic sees in a class body.  [field_validator] returns a
    descriptor proxy around the function (made a classmethod when its first
    parameter is [cls]); [classmethod] wraps whatever it is given.  When the
    model class is built, pydantic collects as validators the attributes of
    the class namespace that are descriptor proxies themselves. *)
Module Pydantic.

Inductive attr : Type :=
| Function (f : str -> result str)
| ClassMethod (a : attr)
| PydanticDescriptorProxy (wrapped : attr) (fields : list str).

Definition classmethod (a : attr) : attr := ClassMethod a.

Definition ensure_classmethod (a : attr) : attr :=
  match a with
  | Function f => ClassMethod (Function f)
  | _ => a
  end.

Definition field_validator (field : str) (a : attr) : attr :=
  PydanticDescriptorProxy (ensure_classmethod a) [field].

Fixpoint call (a : attr) (v : str) : result str :=
  match a with
  | Function f => f v
  | ClassMethod a' => call a' v
  | PydanticDescriptorProxy a' _ => call a' v
  end.

(** The validators registered for [field] in a class namespace. *)
Fixpoint field_validators (field : str) (ns : list (str * attr)) : list attr :=
  match ns with
  | [] => []
  | (_, PydanticDescriptorProxy w fs) :: rest =>
      if mem_str field fs then w :: field_validators field rest
      else field_validators field rest
  | _ :: rest => field_validators field rest
  end.

(** Run the registered validators in order; a [ValueError] becomes a
    validation error of the request. *)
Fixpoint run_validators (field : str) (vs : list attr) (v : str) : result str :=
  match vs with
  | [] => Ok v
  | a :: rest =>
      match call a v with
      | Ok v' => run_validators field rest v'
      | Raise e => Raise (RequestValidationError field (exn_str e))
      end
  end.

End Pydantic.

Module UserCreate.
Record t : Type := mk {
  email : str;
  password : str;
  first_name : option str;
  last_name : option str;
  language : str
}.

(** The request body before validation; [language] may be absent. *)
Record body : Type := mkBody {
  raw_email : str;
  raw_password : str;
  raw_first_name : option str;
  raw_last_name : option str;
  raw_language : option str
}.

Definition validate_password (v : str) : result str :=
  if negb (any_char isdigit v) then
    Raise (ValueError "Пароль должен содержать хотя бы одну цифру")
  else if negb (any_char isalpha v) then
    Raise (ValueError "Пароль должен содержать хотя бы одну букву")
  else Ok v.

(** The class body: [@classmethod] is written above
    [@field_validator('password')], so it is applied last. *)
Definition namespace : list (str * Pydantic.attr) :=
  [ ("validate_password",
     Pydantic.classmethod
       (Pydantic.field_validator "password" (Pydantic.Function validate_password))) ].

Definition check_max_length (field : str) (n : Z) (v : option str)
    : result (option str) :=
  match v with
  | Some s =>
      if len s >? n then
        Raise (RequestValidationError field "String should have at most 100 characters")
      else Ok v
  | None => Ok None
  end.

(** Validation of a request body against the schema.  [email_str] is the
    [EmailStr] check of the email-validator package: the normalised address,
    or [None] for a rejected one. *)
Definition validate (ns : list (str * Pydantic.attr))
    (email_str : str -> option str) (b : body) : result t :=
  match email_str (raw_email b) with
  | None => Raise (RequestValidationError "email" "value is not a valid email address")
  | Some e =>
      if len (raw_password b) <? 8 then
        Raise (RequestValidationError "password" "String should have at least 8 characters")
      else if len (raw_password b) >? 128 then
        Raise (RequestValidationError "password" "String should have at most 128 characters")
      else
        bind (Pydantic.run_validators "password"
                (Pydantic.field_validators "password" ns) (raw_password b)) (fun p =>
        bind (check_max_length "first_name" 100 (raw_first_name b)) (fun fn =>
        bind (check_max_length "last_name" 100 (raw_last_name b)) (fun ln =>
        Ok (mk e p fn ln
               (match raw_language b with Some l => l | None => "ru" end)))))
  end.
End UserCreate.

(** ** [app/routers/auth.py] *)

(** [user.<column> = ...; db.commit()]: the row with the primary key of
    [u] becomes [u]. *)
Definition update_user (u : User.t) (db : Db) : Db :=
  set_users (map (fun v => if User.id v =? User.id u then u else v) (users db)) db.

Inductive level : Type := INFO | WARNING | ERROR.
Definition log : Type := list (level * str).

(** [logger.<level>(msg)]. *)
Definition emit (lg : log) (l : level) (msg : str) : log :=
  (lg ++ [(l, msg)])%list.

Definition register (pwd_context : CryptContext) (user_data : UserCreate.t) (db : Db)
    : Db * result (User.t * list (str * str)) :=
  let email := UserCreate.email user_data in
  let body :=
    match first (fun u => str_eqb (User.email u) email) (users db) with
    | Some _ =>
        Raise (HTTPException 409 "Пользователь с таким email уже существует" [])
    | None =>
        bind (hash_password pwd_context (UserCreate.password user_data)) (fun hp =>
        bind (User_new email hp) (fun '(e, h) =>
        bind (insert_user e h db) (fun '(db', user) =>
        Ok (db', (user, [("Location", "/users/" ++ str_of_int (User.id user))])))))
    end in
  match reraise_http 500 "Произошла ошибка при регистрации" [] body with
  | Ok (db', r) => (db', Ok r)
  | Raise e => (db, Raise e)
  end.

(** [POST /auth/register]: the body is validated against [UserCreate]
    (a failure is answered 422 before the handler runs), then handled. *)
Definition post_register (pwd_context : CryptContext)
    (email_str : str -> option str) (b : UserCreate.body) (db : Db)
    : Db * result (User.t * list (str * str)) :=
  match UserCreate.validate UserCreate.namespace email_str b with
  | Raise e => (db, Raise e)
  | Ok user_data => register pwd_context user_data db
  end.

(** [POST /auth/subscription/upgrade]. *)
Definition upgrade (user : User.t) (db : Db) : Db * result str :=
  if User.is_premium user then
    (db, Raise (HTTPException 400 "Премиум подписка уже активирована" []))
  else
    (update_user (User.set_is_premium true user) db,
     Ok "Премиум подписка успешно активирована").

Record OAuth2PasswordRequestForm : Type := mkForm {
  username : str;
  password : str
}.

Record TokenResponse : Type := mkTokenResponse {
  access_token : str;
  token_type : str;
  expires_in : Z;
  user : User.t
}.

Definition invalid_credentials : exn :=
  HTTPException 401 "Неверный email или пароль" bearer.

Definition login (pwd_context : CryptContext) (jose : Jose)
    (form_data : OAuth2PasswordRequestForm) (db : Db)
    : Db * log * result TokenResponse :=
  let username := strip (lower (username form_data)) in
  let '(db', lg, r) :=
    match first (fun u => str_eqb (User.email u) username) (users db) with
    | None =>
        (db, [(WARNING, "Login attempt for non-existent user: " ++ username)],
         Raise invalid_credentials)
    | Some user =>
        let stored_hash := User.hashed_password user in
        let lg := [(INFO, "Login attempt for user: " ++ username)] in
        match verify_password pwd_context (password form_data) stored_hash with
        | Raise e => (db, lg, Raise e)
        | Ok false =>
            (db, emit lg WARNING ("Invalid password for user: " ++ username),
             Raise invalid_credentials)
        | Ok true =>
            let user := User.update_last_login (utcnow jose) user in
            let db := update_user user db in
            match create_access_token jose
                    [("sub", JStr (str_of_int (User.id user)))] (Some (24 * 3600)) with
            | Raise e => (db, lg, Raise e)
            | Ok access_token =>
                (db, emit lg INFO ("Successful login for user: " ++ username),
                 Ok (mkTokenResponse access_token "bearer" (24 * 60 * 60) user))
            end
        end
    end in
  match r with
  | Raise (HTTPException _ _ _) | Ok _ => (db', lg, r)
  | Raise e =>
      (db', emit lg ERROR ("Unexpected error during login: " ++ exn_str e),
       Raise (HTTPException 500 "Произошла ошибка при входе в систему" []))
  end.

(** ** [app/models/dish.py] and [app/models/ingredient.py]: validators *)

Definition Dish_validate_name (name : str) : result str :=
  if negb (truthy name) || negb (truthy (strip name)) then
    Raise (ValueError "Название блюда не может быть пустым")
  else if len name >? 100 then
    Raise (ValueError "Название блюда не может быть длиннее 100 символов")
  else Ok (strip name).

Definition Ingredient_validate_name (name : str) : result str :=
  if negb (truthy name) || negb (truthy (strip name)) then
    Raise (ValueError "Название ингредиента не может быть пустым")
  else if len name >? 100 then
    Raise (ValueError "Название ингредиента не может быть длиннее 100 символов")
  else Ok (strip name).

(** ** [app/routers/dishes.py] *)

Module DishCreate.
Record t : Type := mk {
  name : str;
  category : DishCategory
}.
(** The schema's constraint on [name]: 2 to 100 characters. *)
Definition valid (d : t) : bool := (2 <=? len (name d)) && (len (name d) <=? 100).
End DishCreate.

(** [db.query(Dish).filter(Dish.user_id == uid).count()]. *)
Definition dish_count (uid : Z) (db : Db) : Z :=
  Z.of_nat (List.length (filter (fun d => Dish.user_id d =? uid) (dishes db))).

Definition insert_dish (name : str) (category : DishCategory) (uid : Z) (db : Db)
    : Db * Dish.t :=
  let dish := Dish.mk (dishes_id_seq db) name category uid in
  (mkDb (users db) (dishes db ++ [dish])%list (recipes db) (ingredients db)
        (recipe_ingredients db) (cooking_sessions db)
        (users_id_seq db) (dishes_id_seq db + 1),
   dish).

Definition create_dish (data : DishCreate.t) (user : User.t) (db : Db)
    : Db * result Dish.t :=
  let limits := get_user_limits (User.is_premium user) in
  let count := dish_count (User.id user) db in
  let body :=
    if count >=? max_dishes limits then
      Raise (HTTPException 403
               ("Превышен лимит блюд (" ++ str_of_int (max_dishes limits) ++ ")") [])
    else
      bind (Dish_validate_name (strip (DishCreate.name data))) (fun name =>
      Ok (insert_dish name (DishCreate.category data) (User.id user) db)) in
  match reraise_http 500 "Ошибка при создании блюда" [] body with
  | Ok (db', dish) => (db', Ok dish)
  | Raise e => (db, Raise e)
  end.

(** Successive [POST /dishes/] requests of one user, in order. *)
Fixpoint create_dishes (datas : list DishCreate.t) (user : User.t) (db : Db)
    : Db * list (result Dish.t) :=
  match datas with
  | [] => (db, [])
  | data :: rest =>
      let '(db1, r) := create_dish data user db in
      let '(db2, rs) := create_dishes rest user db1 in
      (db2, r :: rs)
  end.

(** ** [app/routers/suggestions.py] *)

Module RecipeSuggestion.
Record t : Type := mk {
  id : Z;
  cook_time : Z;
  cook_method : str;
  servings : Z;
  photo_url : option str;
  is_favorite : bool;
  match_percent : Float.float
}.
End RecipeSuggestion.

(** [db.query(Recipe).join(Dish).filter(Dish.user_id == uid).all()]: the
    recipes whose dish (found by its primary key) belongs to [uid]. *)
Definition owned_by (uid : Z) (db : Db) (r : Recipe.t) : bool :=
  existsb (fun d => (Dish.id d =? Recipe.dish_id r) && (Dish.user_id d =? uid)) (dishes db).

Definition user_recipes (uid : Z) (db : Db) : list Recipe.t :=
  filter (owned_by uid db) (recipes db).

(** The rows of [recipe_ingredients] of one recipe, joined with their
    ingredient: the ingredient names, one per row. *)
Definition recipe_ingredient_names (recipe_id : Z) (db : Db) : list str :=
  flat_map
    (fun ri =>
       if RecipeIngredient.recipe_id ri =? recipe_id then
         match first (fun i => Ingredient.id i =? RecipeIngredient.ingredient_id ri)
                     (ingredients db) with
         | Some i => [Ingredient.name i]
         | None => []
         end
       else [])
    (recipe_ingredients db).

Definition set_len (s : list str) : Z := Z.of_nat (List.length s).

(** One iteration of the loop over the caller's recipes. *)
Definition suggest_step (db : Db) (input_names : list str) (min_match : Float.float)
    (results : list RecipeSuggestion.t) (recipe : Recipe.t) : list RecipeSuggestion.t :=
  let ingredient_names :=
    set_of (map lower (recipe_ingredient_names (Recipe.id recipe) db)) in
  match ingredient_names with
  | [] => results
  | _ =>
      let score :=
        Float.div (set_len (set_inter ingredient_names input_names))
                  (set_len ingredient_names) in
      if Float.ge score min_match then
        (results ++
         [RecipeSuggestion.mk (Recipe.id recipe) (Recipe.cook_time recipe)
            (Recipe.cook_method recipe) (Recipe.servings recipe)
            (Recipe.photo_url recipe) (Recipe.is_favorite recipe)
            (Float.round2 score)])%list
      else results
  end.

(** [sorted(xs, key=key)]: a stable sort, ascending in the key. *)
Fixpoint insert_by {A} (key : A -> Float.float) (x : A) (l : list A) : list A :=
  match l with
  | [] => [x]
  | y :: ys => if Float.le (key x) (key y) then x :: l else y :: insert_by key x ys
  end.

Definition sorted {A} (key : A -> Float.float) (l : list A) : list A :=
  fold_right (insert_by key) [] l.

Definition suggest_recipes (data_ingredients : list str) (min_match : Float.float)
    (user : User.t) (db : Db) : result (list RecipeSuggestion.t) :=
  reraise_http 500 "Ошибка при подборе рецептов" []
    (match data_ingredients with
     | [] => Ok []
     | _ =>
         let input_names := set_of (map (fun i => lower (strip i)) data_ingredients) in
         let recipes := user_recipes (User.id user) db in
         let results := fold_left (suggest_step db input_names min_match) recipes [] in
         Ok (sorted (fun x => Float.neg (RecipeSuggestion.match_percent x)) results)
     end).

(** [POST /dishes/recipes/suggest]: the body is an [IngredientList] of 1 to
    20 strings, and the query parameter [min_match] defaults to 0.3 and
    must lie in [0, 1]; a request that fails this is answered 422. *)
Definition default_min_match : Float.float := Float.of_Q (3 # 10).

Definition post_suggest (data_ingredients : list str)
    (min_match : option Float.float) (user : User.t) (db : Db)
    : result (list RecipeSuggestion.t) :=
  let n := List.length data_ingredients in
  if negb ((1 <=? n)%nat && (n <=? 20)%nat) then
    Raise (RequestValidationError "ingredients" "List should have 1 to 20 items")
  else
    let m := match min_match with Some m => m | None => default_min_match end in
    if negb (Float.le 0%Q m && Float.le m 1%Q) then
      Raise (RequestValidationError "min_match" "Input should be between 0 and 1")
    else suggest_recipes data_ingredients m user db.

(** ** [app/utils/tts.py]: purging the cache of a recipe *)

(** [Path.stem] of a file name that ends in [.mp3]. *)
Definition stem (name : str) : str :=
  if str_eqb name ".mp3" then name
  else firstn (List.length name - 4) name.

(** The cache directory is the list of its file names.  Returns what is
    left of it and [deleted_count]. *)
Definition delete_tts_cache_for_recipe (recipe_id : Z) (cache : list str)
    : list str * Z :=
  let pattern := "recipe_" ++ str_of_int recipe_id ++ "_step_" in
  fold_left
    (fun '(kept, deleted_count) file_path =>
       if endswith ".mp3" file_path && contains pattern (stem file_path) then
         (kept, deleted_count + 1)
       else ((kept ++ [file_path])%list, deleted_count))
    cache ([], 0).

(** ** [app/utils/media.py] *)

(** The upload area is the list of the paths that exist. *)
Definition cleanup_old_photo (file_path : str) (files : list str) : list str :=
  let file_path :=
    match file_path with
    | 47%N (* / *) :: rest => rest
    | _ => file_path
    end in
  filter (fun p => negb (str_eqb p file_path)) files.

(** ** [app/routers/recipes.py] *)

Inductive task : Type :=
| CleanupOldPhoto (path : str).

Record World : Type := mkWorld {
  w_db : Db;
  tts_cache : list str;
  background_tasks : list task
}.

(** Attribute lookup [s.scalar] on a [str]: the type has no such
    attribute. *)
Definition str_scalar (s : str) : result str :=
  Raise (AttributeError "'str' object has no attribute 'scalar'").

(** [db.delete(recipe); db.commit()], with the cascade to the rows that
    reference the recipe. *)
Definition delete_recipe_row (recipe : Recipe.t) (d : Db) : Db :=
  mkDb (users d) (dishes d)
       (filter (fun r => negb (Recipe.id r =? Recipe.id recipe)) (recipes d))
       (ingredients d)
       (filter (fun ri => negb (RecipeIngredient.recipe_id ri =? Recipe.id recipe))
               (recipe_ingredients d))
       (filter (fun s => negb (CookingSession.recipe_id s =? Recipe.id recipe))
               (cooking_sessions d))
       (users_id_seq d) (dishes_id_seq d).

Definition delete_recipe (recipe_id : Z) (user : User.t) (w : World)
    : World * result str :=
  let body :=
    match first (fun r => (Recipe.id r =? recipe_id) && owned_by (User.id user) (w_db w) r)
                (recipes (w_db w)) with
    | None => Raise (HTTPException 404 "Рецепт не найден" [])
    | Some recipe =>
        (* if recipe.photo_url and recipe.photo_url.scalar(): *)
        bind (match Recipe.photo_url recipe with
              | Some url =>
                  if truthy url then
                    bind (str_scalar url) (fun s =>
                    if truthy s then
                      bind (str_scalar url) (fun s' =>
                      Ok [CleanupOldPhoto (lstrip_char (chr "/") s')])
                    else Ok [])
                  else Ok []
              | None => Ok []
              end) (fun scheduled =>
        let '(cache', _) := delete_tts_cache_for_recipe recipe_id (tts_cache w) in
        Ok (mkWorld (delete_recipe_row recipe (w_db w)) cache'
                    (background_tasks w ++ scheduled)%list,
            "Рецепт успешно удалён"))
    end in
  match reraise_http 500 "Ошибка при удалении рецепта" [] body with
  | Ok (w', msg) => (w', Ok msg)
  | Raise e => (w, Raise e)
  end.

(** ** [app/routers/analytics.py]: the streak block of
    [get_personalized_dashboard] *)

(** [func.date(ts)] and [datetime.date()]: the day number. *)
Definition date_of (ts : Z) : Z := ts / 86400.

Definition sessions_count (uid check_date : Z) (d : Db) : Z :=
  Z.of_nat (List.length
    (filter (fun s => (CookingSession.user_id s =? uid)
                      && (date_of (CookingSession.started_at s) =? check_date)
                      && CookingSession.is_completed s)
            (cooking_sessions d))).

(** The [for days_back in range(7)] loop; returning is [break]. *)
Fixpoint streak_loop (uid today : Z) (d : Db) (days : list Z) (cooking_streak : Z) : Z :=
  match days with
  | [] => cooking_streak
  | days_back :: rest =>
      let check_date := today - days_back in
      if sessions_count uid check_date d >? 0 then
        if days_back =? cooking_streak then
          streak_loop uid today d rest (cooking_streak + 1)
        else cooking_streak
      else
        if days_back =? 0 then cooking_streak
        else if days_back =? cooking_streak then cooking_streak
        else streak_loop uid today d rest cooking_streak
  end.

Definition range (n : nat) : list Z := map Z.of_nat (seq 0 n).

Definition cooking_streak (now : Z) (user : User.t) (d : Db) : Z :=
  streak_loop (User.id user) (date_of now) d (range 7) 0.

(** ** [app/routers/users.py] *)

Definition toggle_user_active (user_id : Z) (admin_user : User.t) (d : Db)
    : Db * result (str * User.t) :=
  match first (fun u => User.id u =? user_id) (users d) with
  | None => (d, Raise (HTTPException 404 "Пользователь не найден" []))
  | Some user =>
      if User.id user =? User.id admin_user then
        (d, Raise (HTTPException 400 "Нельзя деактивировать собственный аккаунт" []))
      else
        let user := User.set_is_active (negb (User.is_active user)) user in
        (update_user user d,
         Ok ("Пользователь " ++
             (if User.is_active user then "активирован" else "деактивирован"),
             user))
  end.

(** [POST /users/me/deactivate]. *)
Definition deactivate_account (current_user : User.t) (d : Db) : Db * result (str * str) :=
  (update_user (User.set_is_active false current_user) d,
   Ok ("Аккаунт успешно деактивирован", "Account deactivated")).

(** ** [app/routers/admin.py] *)

Module UserBulkAction.
Record t : Type := mk {
  user_ids : list Z;
  action : str
}.
End UserBulkAction.

Record BulkResult : Type := mkBulkResult {
  success : bool;
  message : str;
  updated_count : Z
}.

(** One iteration of the loop over the selected users. *)
Definition bulk_step (action : str) (admin : User.t) (acc : Db * Z) (user : User.t)
    : Db * Z :=
  let '(d, updated_count) := acc in
  if mem_str action ["deactivate"] && (User.id user =? User.id admin) then acc
  else if str_eqb action "activate" then
    (update_user (User.set_is_active true user) d, updated_count + 1)
  else if str_eqb action "deactivate" then
    (update_user (User.set_is_active false user) d, updated_count + 1)
  else if str_eqb action "premium_on" then
    (update_user (User.set_is_premium true user) d, updated_count + 1)
  else if str_eqb action "premium_off" then
    (update_user (User.set_is_premium false user) d, updated_count + 1)
  else acc.

Definition bulk_user_action (action_data : UserBulkAction.t) (admin : User.t) (d : Db)
    : Db * result BulkResult :=
  let ids := UserBulkAction.user_ids action_data in
  let action := UserBulkAction.action action_data in
  let users := filter (fun u => mem_Z (User.id u) ids) (users d) in
  if negb (Nat.eqb (List.length users) (List.length ids)) then
    (d, Raise (HTTPException 400 "Некоторые пользователи не найдены" []))
  else
    let '(d', updated_count) := fold_left (bulk_step action admin) users (d, 0) in
    (d', Ok (mkBulkResult true
               ("Действие " ++ action ++ " применено к " ++
                str_of_int updated_count ++ " пользователям")
               updated_count)).

(** ** Specification-level notions used by the statements of Part II *)

(** The user has a completed session that started on [day]. *)
Definition cooked_on (uid day : Z) (d : Db) : bool :=
  existsb (fun s => (CookingSession.user_id s =? uid)
                    && (date_of (CookingSession.started_at s) =? day)
                    && CookingSession.is_completed s)
          (cooking_sessions d).

(** Length of the run of consecutive [true] days among the [n] days
    [from], [from + 1], ... *)
Fixpoint initial_run (has : Z -> bool) (from : Z) (n : nat) : Z :=
  match n with
  | O => 0
  | S k => if has from then 1 + initial_run has (from + 1) k else 0
  end.

(** How many of the rows are dishes of [uid]. *)
Fixpoint dishes_of (uid : Z) (rows : list Dish.t) : Z :=
  match rows with
  | [] => 0
  | x :: rest => (if Dish.user_id x =? uid then 1 else 0) + dishes_of uid rest
  end.

(** A string of blanks. *)
Definition blank (s : str) : Prop := forall c, In c s -> isspace c = true.

(** Text that a request carries and the database stores: Unicode scalar
    values, none of them NUL. *)
Definition storable (s : str) : Prop := Utf8.encodable s = true /\ ~ In 0%N s.

(** A dish payload the schema lets through, a name of 2 to 100
    characters, whose name is not blank. *)
Definition acceptable (data : DishCreate.t) : Prop :=
  2 <= len (DishCreate.name data) <= 100
  /\ ~ blank (DishCreate.name data)
  /\ storable (DishCreate.name data).

(** The tier ceilings as the specification quotes them. *)
Definition tier_ceiling (is_premium : bool) : Z := if is_premium then 45 else 15.

(** Suggestions, in the specification's words.  The recipe hangs on a
    dish of [uid]. *)
Definition owns (uid : Z) (d : Db) (r : Recipe.t) : Prop :=
  exists dish,
    In dish (dishes d) /\ Dish.id dish = Recipe.dish_id r /\ Dish.user_id dish = uid.

(** A name, trimmed and lower-cased. *)
Definition normal (s : str) : str := lower (strip s).

(** [n] is the name, trimmed and lower-cased, of an ingredient that the
    recipe is linked to. *)
Definition recipe_uses (d : Db) (r : Recipe.t) (n : str) : Prop :=
  exists ri i,
    In ri (recipe_ingredients d)
    /\ RecipeIngredient.recipe_id ri = Recipe.id r
    /\ In i (ingredients d)
    /\ Ingredient.id i = RecipeIngredient.ingredient_id ri
    /\ n = normal (Ingredient.name i).

(** [n] is one of the names the request offers. *)
Definition offered (data_ingredients : list str) (n : str) : Prop :=
  exists i, In i data_ingredients /\ n = normal i.

(** The recipe has ingredients, and [q] is the share of its distinct
    names that the request offers: [|names ∩ offered| / |names|]. *)
Definition match_is (d : Db) (data_ingredients : list str) (r : Recipe.t)
    (q : Float.float) : Prop :=
  exists names common : list str,
    NoDup names /\ (forall n, In n names <-> recipe_uses d r n)
    /\ NoDup common
    /\ (forall n, In n common <-> recipe_uses d r n /\ offered data_ingredients n)
    /\ names <> []
    /\ q = Float.div (Z.of_nat (List.length common)) (Z.of_nat (List.length names)).

(** What is reported for a recipe whose match is [q]. *)
Definition suggestion (r : Recipe.t) (q : Float.float) : RecipeSuggestion.t :=
  RecipeSuggestion.mk (Recipe.id r) (Recipe.cook_time r) (Recipe.cook_method r)
    (Recipe.servings r) (Recipe.photo_url r) (Recipe.is_favorite r) (Float.round2 q).

(** Primary keys are unique. *)
Definition ingredients_pk (d : Db) : Prop := NoDup (map Ingredient.id (ingredients d)).
Definition recipes_pk (d : Db) : Prop := NoDup (map Recipe.id (recipes d)).

(** The same notions as the loop computes them, for the proofs. *)
Definition recipe_name_set (r : Recipe.t) (d : Db) : list str :=
  set_of (map normal (recipe_ingredient_names (Recipe.id r) d)).

Definition input_name_set (data_ingredients : list str) : list str :=
  set_of (map normal data_ingredients).

Definition match_score (data_ingredients : list str) (r : Recipe.t) (d : Db)
    : Float.float :=
  Float.div (set_len (set_inter (recipe_name_set r d) (input_name_set data_ingredients)))
            (set_len (recipe_name_set r d)).

Definition kept (data_ingredients : list str) (min_match : Float.float) (d : Db)
    (r : Recipe.t) : bool :=
  negb (Nat.eqb (List.length (recipe_name_set r d)) 0)
  && Float.ge (match_score data_ingredients r d) min_match.

(** Ascending in the sort key. *)
Definition key_le {A} (key : A -> Float.float) (a b : A) : Prop :=
  (key a <= key b)%Q.

(** Every stored ingredient name is as [Ingredient_validate_name] leaves
    it. *)
Definition names_trimmed (d : Db) : Prop :=
  forall i, In i (ingredients d) -> strip (Ingredient.name i) = Ingredient.name i.

(** Primary keys are unique. *)
Definition users_pk (d : Db) : Prop := NoDup (map User.id (users d)).

(** Erasing the [is_active] flag, to compare what a caller observes on two
    databases that differ in that flag only. *)
Definition mask_active (u : User.t) : User.t := User.set_is_active true u.

Definition mask_db (d : Db) : Db := set_users (map mask_active (users d)) d.

Definition mask_user_result (r : result User.t) : result User.t :=
  match r with
  | Ok u => Ok (mask_active u)
  | Raise e => Raise e
  end.

Definition mask_login (o : Db * log * result TokenResponse)
    : Db * log * result TokenResponse :=
  let '(d, lg, r) := o in
  (mask_db d, lg,
   match r with
   | Ok t => Ok (mkTokenResponse (access_token t) (token_type t) (expires_in t)
                                 (mask_active (user t)))
   | Raise e => Raise e
   end).

(** The rows a bulk deactivation by [admin] over [ids] is expected to
    leave. *)
Definition deactivate_others (ids : list Z) (admin : User.t) (us : list User.t)
    : list User.t :=
  map (fun u => if mem_Z (User.id u) ids && negb (User.id u =? User.id admin)
                then User.set_is_active false u else u) us.

(** *** Stand-ins for the external services, for closed examples *)

(** A [CryptContext] whose hash is a tagged copy of the password. *)
Definition demo_pwd_context : CryptContext :=
  mkCryptContext
    (fun p => Ok ("$2b$12$" ++ p))
    (fun p h => Ok (str_eqb h ("$2b$12$" ++ p))).

(** A codec whose token is the decimal [sub] claim behind a fixed tag. *)
Definition demo_jose : Jose :=
  mkJose
    (fun c => match dict_get "sub" c with
              | Some (JStr s) => Ok ("tok." ++ s)
              | _ => Raise (JWTError "no subject")
              end)
    (fun t => if startswith "tok." t then
                Ok [("sub", JStr (skipn 4 t)); ("type", JStr "access")]
              else Raise (JWTError "bad token"))
    1700000000.

(** An [EmailStr] check that accepts what the model's own pattern
    accepts. *)
Definition demo_email_str (s : str) : option str :=
  if email_re_match s then Some s else None.

(** *** Fixtures for the closed examples *)

Definition day0 : Z := 19700 * 86400.

Definition cook : User.t :=
  User.mk 1 "cook@example.com" "$2b$12$secret123" false true false false
          None None None None "ru" "UTC".

(** Completed sessions today and yesterday, an open one three days ago. *)
Definition db_today_yesterday : Db :=
  mkDb [cook] [] [] [] []
       [ CookingSession.mk 1 1 1 true (day0 + 3600);
         CookingSession.mk 2 1 1 true (day0 - 86400 + 7200);
         CookingSession.mk 3 1 1 false (day0 - 3 * 86400) ] 2 1.

(** A completed session two days ago only. *)
Definition db_two_days_ago : Db :=
  mkDb [cook] [] [] [] []
       [ CookingSession.mk 1 1 1 true (day0 - 2 * 86400 + 60) ] 2 1.

Definition borscht : DishCreate.t := DishCreate.mk "Borscht" first_course.

Definition db_one_cook : Db := mkDb [cook] [] [] [] [] [] 2 1.

(** The cook's database after fifteen dishes, and the same after the cook
    upgraded to premium. *)
Definition db_fifteen : Db := fst (create_dishes (repeat borscht 15) cook db_one_cook).

Definition db_fifteen_premium : Db := fst (upgrade cook db_fifteen).

(** The caller as the authentication layer resolves it from a database. *)
Definition caller (uid : Z) (db : Db) : User.t :=
  match first (fun u => User.id u =? uid) (users db) with
  | Some u => u
  | None => cook
  end.

(** The same database after the cook's account was deactivated. *)
Definition db_cook_inactive : Db :=
  mkDb [User.set_is_active false cook] [] [] [] [] [] 2 1.

Definition form_unknown : OAuth2PasswordRequestForm :=
  mkForm "Nobody@Example.com " "secret123".

Definition form_wrong_password : OAuth2PasswordRequestForm :=
  mkForm "cook@example.com" "letmein99".

Definition form_cook : OAuth2PasswordRequestForm :=
  mkForm "cook@example.com" "secret123".

Definition anna_full : UserCreate.t :=
  UserCreate.mk "anna@example.com" "secret123" (Some "Anna") (Some "Petrova") "en".

Definition anna_bare : UserCreate.t :=
  UserCreate.mk "anna@example.com" "secret123" None None "ru".

(** Registration bodies whose password has no digit, and no letter. *)
Definition body_no_digit : UserCreate.body :=
  UserCreate.mkBody "anna@example.com" "abcdefgh" None None None.

Definition body_no_letter : UserCreate.body :=
  UserCreate.mkBody "boris@example.com" "12345678" None None None.

(** The class body of [UserCreate] had the two decorators been written in
    the other order, [@field_validator('password')] above [@classmethod]. *)
Definition namespace_validator_outermost : list (str * Pydantic.attr) :=
  [ ("validate_password",
     Pydantic.field_validator "password"
       (Pydantic.classmethod (Pydantic.Function UserCreate.validate_password))) ].

(** A world where the cook owns dish 1 with two recipes: recipe 7 has a
    photo, recipe 8 has none.  The cache holds the audio of step 1 of each
    recipe under the name [get_tts_cache_path] gives it. *)
Definition photo_7 : str := "/uploads/photos/7_ab12cd34.jpg".

Definition recipe_7 : Recipe.t := Recipe.mk 7 30 "stew" 4 (Some photo_7) false 1.
Definition recipe_8 : Recipe.t := Recipe.mk 8 10 "fry" 2 None false 1.

Definition audio_7 : str := MD5.hexdigest ("Chop the onions_recipe_7_step_1") ++ ".mp3".
Definition audio_8 : str := MD5.hexdigest ("Heat the pan_recipe_8_step_1") ++ ".mp3".

Definition kitchen : World :=
  mkWorld
    (mkDb [cook] [Dish.mk 1 "Borscht" first_course 1] [recipe_7; recipe_8] [] [] [] 2 2)
    [audio_7; audio_8] [].

Definition admin : User.t :=
  User.mk 10 "admin@example.com" "$2b$12$admin4321" false true true true
          None None None None "ru" "UTC".

Definition guest : User.t :=
  User.mk 2 "guest@example.com" "$2b$12$guest1234" false true false false
          None None None None "ru" "UTC".

Definition db_staff : Db := mkDb [cook; guest; admin] [] [] [] [] [] 11 1.

(** Two owners in one table: fifteen dishes of the guest, then fourteen of
    the cook. *)
Definition db_shared : Db :=
  fst (create_dishes (repeat borscht 14) cook
         (fst (create_dishes (repeat borscht 15) guest
                 (mkDb [cook; guest] [] [] [] [] [] 3 1)))).

(** A name of sixty Cyrillic letters, and a name of two no-break spaces. *)
Definition shchi : DishCreate.t := DishCreate.mk (repeat (chr "щ") 60) first_course.

Definition no_break_spaces : DishCreate.t := DishCreate.mk [160; 160]%N first_course.

(** A pantry: the cook's recipe 9 uses salt, pepper and chicken, recipe 10
    has no ingredient, and recipe 11 (rice only) is the guest's. *)
Definition db_pantry : Db :=
  mkDb [cook; guest]
       [Dish.mk 1 "Roast" second_course 1; Dish.mk 2 "Pilaf" second_course 2]
       [Recipe.mk 9 60 "oven" 4 None false 1;
        Recipe.mk 10 5 "none" 1 None false 1;
        Recipe.mk 11 40 "pot" 3 None true 2]
       [Ingredient.mk 1 "Salt"; Ingredient.mk 2 "pepper";
        Ingredient.mk 3 "Chicken"; Ingredient.mk 4 "rice"]
       [RecipeIngredient.mk 1 9 1; RecipeIngredient.mk 2 9 2;
        RecipeIngredient.mk 3 9 3; RecipeIngredient.mk 4 11 4]
       [] 3 3.

Definition on_hand : list str := [" Chicken"; "salt "].

Definition roast : Recipe.t := Recipe.mk 9 60 "oven" 4 None false 1.

(** The same pantry in Russian, and what is on hand written in capitals
    and with a no-break space behind. *)
Definition db_pantry_ru : Db :=
  mkDb [cook; guest]
       [Dish.mk 1 "Жаркое" second_course 1; Dish.mk 2 "Плов" second_course 2]
       [Recipe.mk 9 60 "духовка" 4 None false 1;
        Recipe.mk 10 5 "нет" 1 None false 1;
        Recipe.mk 11 40 "казан" 3 None true 2]
       [Ingredient.mk 1 "Соль"; Ingredient.mk 2 "перец";
        Ingredient.mk 3 "Курица"; Ingredient.mk 4 "рис"]
       [RecipeIngredient.mk 1 9 1; RecipeIngredient.mk 2 9 2;
        RecipeIngredient.mk 3 9 3; RecipeIngredient.mk 4 11 4]
       [] 3 3.

Definition on_hand_ru : list str := [" КУРИЦА"; ("соль" ++ [160%N])%list].

(** ** More of the code *)

(** *** [app/models/user.py]: derived attributes *)

(** [s.split('@')[0]]. *)
Definition before_at (s : str) : str :=
  match split_at (chr "@") s with
  | Some (a, _) => a
  | None => s
  end.

Definition User_full_name (u : User.t) : str :=
  match User.first_name u, User.last_name u with
  | Some f, Some l =>
      if truthy f && truthy l then f ++ " " ++ l
      else if truthy f then f
      else if truthy l then l
      else before_at (User.email u)
  | Some f, None => if truthy f then f else before_at (User.email u)
  | None, Some l => if truthy l then l else before_at (User.email u)
  | None, None => before_at (User.email u)
  end.

(** *** [app/routers/users.py]: password change and the premium toggle *)

Definition User_set_hashed_password (h : str) (u : User.t) : User.t :=
  User.mk (User.id u) (User.email u) h (User.is_premium u) (User.is_active u)
          (User.is_admin u) (User.is_verified u) (User.permissions u)
          (User.first_name u) (User.last_name u) (User.last_login u)
          (User.language u) (User.timezone u).

Module PasswordChange.
Record t : Type := mk {
  current_password : str;
  new_password : str
}.
End PasswordChange.

(** Assigning [current_user.hashed_password] runs the model's validator. *)
Definition change_password (pwd_context : CryptContext) (password_data : PasswordChange.t)
    (current_user : User.t) (d : Db) : Db * result (str * str) :=
  let body :=
    bind (verify_password pwd_context (PasswordChange.current_password password_data)
            (User.hashed_password current_user)) (fun ok =>
    if negb ok then Raise (HTTPException 400 "Неверный текущий пароль" [])
    else
      bind (hash_password pwd_context (PasswordChange.new_password password_data))
        (fun new_hashed_password =>
      bind (User_validate_hashed_password new_hashed_password) (fun h =>
      Ok (update_user (User_set_hashed_password h current_user) d,
          ("Пароль успешно изменен", "Password changed successfully"))))) in
  match reraise_http 500 "Ошибка при смене пароля" [] body with
  | Ok (d', r) => (d', Ok r)
  | Raise e => (d, Raise e)
  end.

Definition toggle_user_premium (user_id : Z) (admin_user : User.t) (d : Db)
    : Db * result (str * User.t) :=
  match first (fun u => User.id u =? user_id) (users d) with
  | None => (d, Raise (HTTPException 404 "Пользователь не найден" []))
  | Some user =>
      let user := User.set_is_premium (negb (User.is_premium user)) user in
      (update_user user d,
       Ok ("Премиум статус " ++
           (if User.is_premium user then "активирован" else "деактивирован"),
           user))
  end.

(** *** Invariants of the [users] table *)

(** Primary keys and emails are unique, every id was drawn from the
    sequence, and every email is in the form the model's validator leaves
    it. *)
Definition users_wf (d : Db) : Prop :=
  NoDup (map User.id (users d))
  /\ NoDup (map User.email (users d))
  /\ (forall u, In u (users d) -> User.id u < users_id_seq d)
  /\ (forall u, In u (users d) -> User_validate_email (User.email u) = Ok (User.email u)).

(** Horner value of a decimal numeral read after the accumulator [acc]. *)
Fixpoint uint_val (acc : Z) (d : Decimal.uint) : Z :=
  match d with
  | Decimal.Nil => acc
  | Decimal.D0 d => uint_val (10 * acc + 0) d
  | Decimal.D1 d => uint_val (10 * acc + 1) d
  | Decimal.D2 d => uint_val (10 * acc + 2) d
  | Decimal.D3 d => uint_val (10 * acc + 3) d
  | Decimal.D4 d => uint_val (10 * acc + 4) d
  | Decimal.D5 d => uint_val (10 * acc + 5) d
  | Decimal.D6 d => uint_val (10 * acc + 6) d
  | Decimal.D7 d => uint_val (10 * acc + 7) d
  | Decimal.D8 d => uint_val (10 * acc + 8) d
  | Decimal.D9 d => uint_val (10 * acc + 9) d
  end.

(** *** A second stand-in codec, for closed examples of round trips *)

Definition json_eqb (a b : json) : bool :=
  match a, b with
  | JNull, JNull => true
  | JBool x, JBool y => Bool.eqb x y
  | JInt x, JInt y => x =? y
  | JStr x, JStr y => str_eqb x y
  | _, _ => false
  end.

Fixpoint claims_eqb (a b : claims) : bool :=
  match a, b with
  | [], [] => true
  | (k, v) :: a', (k', v') :: b' => str_eqb k k' && json_eqb v v' && claims_eqb a' b'
  | _, _ => false
  end.

(** A codec that knows a single token, the one of the claims [c0]. *)
Definition single_token_jose (c0 : claims) (now : Z) : Jose :=
  mkJose
    (fun c => if claims_eqb c c0 then Ok "h.c0.s" else Raise (JWTError "unsupported claims"))
    (fun t => if str_eqb t "h.c0.s" then Ok c0 else Raise (JWTError "bad signature"))
    now.

(** The claims [login] signs for the cook at time 1700000000. *)
Definition cook_claims : claims :=
  [("sub", JStr "1"); ("exp", JInt 1700086400); ("iat", JInt 1700000000);
   ("type", JStr "access")].

Definition cook_jose : Jose := single_token_jose cook_claims 1700000000.

(** The lifetime [create_access_token] gives a token: a zero [timedelta]
    is false in Python, so it falls back to the configured default. *)
Definition token_lifetime (expires_delta : option Z) : Z :=
  match expires_delta with
  | Some d => if d =? 0 then JWT_ACCESS_TOKEN_EXPIRE_MINUTES * 60 else d
  | None => JWT_ACCESS_TOKEN_EXPIRE_MINUTES * 60
  end.

(** What identifies an account and guards it: no admin operation on flags
    is meant to touch these columns. *)
Definition credentials (u : User.t) : Z * str * str * bool :=
  (User.id u, User.email u, User.hashed_password u, User.is_admin u).

(** *** [app/routers/dishes.py]: listing *)

(** [ilike] is the database's case-insensitive [ILIKE] operator, applied as
    [ilike name pattern]. *)
Definition get_dishes (ilike : str -> str -> bool)
    (category : option DishCategory) (search : option str)
    (user : User.t) (d : Db) : list Dish.t :=
  let query := filter (fun x => Dish.user_id x =? User.id user) (dishes d) in
  let query :=
    match category with
    | Some c =>
        filter (fun x => match Dish.category x, c with
                         | first_course, first_course
                         | second_course, second_course
                         | garnish, garnish => true
                         | _, _ => false
                         end) query
    | None => query
    end in
  match search with
  | Some s =>
      if truthy s then
        filter (fun x => ilike (Dish.name x) ("%" ++ strip s ++ "%")) query
      else query
  | None => query
  end.

(** *** [app/routers/favorites.py] *)

Definition Recipe_set_is_favorite (b : bool) (r : Recipe.t) : Recipe.t :=
  Recipe.mk (Recipe.id r) (Recipe.cook_time r) (Recipe.cook_method r)
            (Recipe.servings r) (Recipe.photo_url r) b (Recipe.dish_id r).

(** [recipe.<column> = ...; db.commit()]. *)
Definition update_recipe (r : Recipe.t) (d : Db) : Db :=
  mkDb (users d) (dishes d)
       (map (fun x => if Recipe.id x =? Recipe.id r then r else x) (recipes d))
       (ingredients d) (recipe_ingredients d) (cooking_sessions d)
       (users_id_seq d) (dishes_id_seq d).

Definition toggle_favorite (recipe_id : Z) (user : User.t) (d : Db)
    : Db * result (Z * bool) :=
  match first (fun r => (Recipe.id r =? recipe_id) && owned_by (User.id user) d r)
              (recipes d) with
  | None => (d, Raise (HTTPException 404 "Рецепт не найден" []))
  | Some recipe =>
      let recipe := Recipe_set_is_favorite (negb (Recipe.is_favorite recipe)) recipe in
      (update_recipe recipe d, Ok (Recipe.id recipe, Recipe.is_favorite recipe))
  end.

Definition get_favorites (user : User.t) (d : Db) : list Recipe.t :=
  filter (fun r => owned_by (User.id user) d r && Recipe.is_favorite r) (recipes d).

(** *** [app/routers/suggestions.py]: the ingredient filter *)

(** [a.issubset(b)]. *)
Definition issubset (a b : list str) : bool := forallb (fun x => mem_str x b) a.

Definition filter_step (d : Db) (input_set : list str)
    (result : list Recipe.t) (recipe : Recipe.t) : list Recipe.t :=
  let ingredient_names :=
    set_of (map lower (recipe_ingredient_names (Recipe.id recipe) d)) in
  if issubset input_set ingredient_names then (result ++ [recipe])%list else result.

Definition filter_recipes_by_ingredients (ingredients : list str)
    (user : User.t) (d : Db) : result (list Recipe.t) :=
  reraise_http 500 "Ошибка при фильтрации рецептов" []
    (let input_set := set_of (map (fun i => lower (strip i)) ingredients) in
     let recipes := user_recipes (User.id user) d in
     Ok (fold_left (filter_step d input_set) recipes [])).

(** *** [app/routers/analytics.py]: cooking sessions *)

(** A new row in [cooking_sessions]. *)
Definition add_session (s : CookingSession.t) (d : Db) : Db :=
  mkDb (users d) (dishes d) (recipes d) (ingredients d) (recipe_ingredients d)
       (cooking_sessions d ++ [s])%list (users_id_seq d) (dishes_id_seq d).

(** [POST /analytics/cooking-sessions].  The row gets the id [new_id] that
    the database draws for it and the column defaults: not completed,
    started [now].  The handler also appends to the activity log, a table
    that is not part of [Db]. *)
Definition start_cooking_session (new_id now : Z) (recipe_id : Z) (user : User.t) (d : Db)
    : Db * result CookingSession.t :=
  match first (fun r => (Recipe.id r =? recipe_id) && owned_by (User.id user) d r)
              (recipes d) with
  | None => (d, Raise (HTTPException 404 "Рецепт не найден" []))
  | Some _ =>
      let cooking_session := CookingSession.mk new_id (User.id user) recipe_id false now in
      (add_session cooking_session d, Ok cooking_session)
  end.

Definition CookingSession_set_is_completed (b : bool) (s : CookingSession.t)
    : CookingSession.t :=
  CookingSession.mk (CookingSession.id s) (CookingSession.user_id s)
                    (CookingSession.recipe_id s) b (CookingSession.started_at s).

(** [cooking_session.<column> = ...; db.commit()]. *)
Definition update_session (s : CookingSession.t) (d : Db) : Db :=
  mkDb (users d) (dishes d) (recipes d) (ingredients d) (recipe_ingredients d)
       (map (fun x => if CookingSession.id x =? CookingSession.id s then s else x)
            (cooking_sessions d))
       (users_id_seq d) (dishes_id_seq d).

(** [PUT /analytics/cooking-sessions/{session_id}], with the
    [is_completed] field of the update; the other fields of the update go
    to columns that [CookingSession.t] does not carry. *)
Definition update_cooking_session (session_id : Z) (is_completed : option bool)
    (user : User.t) (d : Db) : Db * result CookingSession.t :=
  match first (fun s => (CookingSession.id s =? session_id)
                        && (CookingSession.user_id s =? User.id user))
              (cooking_sessions d) with
  | None => (d, Raise (HTTPException 404 "Сессия готовки не найдена" []))
  | Some cooking_session =>
      let cooking_session :=
        match is_completed with
        | Some b => CookingSession_set_is_completed b cooking_session
        | None => cooking_session
        end in
      (update_session cooking_session d, Ok cooking_session)
  end.

Definition sessions_pk (d : Db) : Prop :=
  NoDup (map CookingSession.id (cooking_sessions d)).

(** The cook opened session 5 yesterday evening and session 6 today. *)
Definition db_open_sessions : Db :=
  mkDb [cook] [] [] [] []
       [ CookingSession.mk 5 1 1 false (day0 - 3600);
         CookingSession.mk 6 1 1 false (day0 + 7200) ] 2 1.

(** *** [app/routers/ingredients.py] *)

(** [db.add(ing); db.commit(); db.refresh(ing)]: the row gets the id
    [new_id] that the database draws for it; the unique index on [name]
    rejects a duplicate. *)
Definition insert_ingredient (new_id : Z) (name : str) (d : Db)
    : result (Db * Ingredient.t) :=
  if existsb (fun i => str_eqb (Ingredient.name i) name) (ingredients d) then
    Raise (IntegrityError "duplicate key value violates unique constraint")
  else
    let ing := Ingredient.mk new_id name in
    Ok (mkDb (users d) (dishes d) (recipes d) (ingredients d ++ [ing])%list
             (recipe_ingredients d) (cooking_sessions d)
             (users_id_seq d) (dishes_id_seq d),
        ing).

(** [POST /ingredients/]; [ilike] as in [get_dishes].  The [type] of the
    ingredient is stored in a column that [Ingredient.t] does not carry. *)
Definition create_ingredient (ilike : str -> str -> bool) (new_id : Z)
    (data_name : str) (d : Db) : Db * result Ingredient.t :=
  let body :=
    match first (fun i => ilike (Ingredient.name i) data_name) (ingredients d) with
    | Some _ => Raise (HTTPException 400 "Такой ингредиент уже есть" [])
    | None =>
        bind (Ingredient_validate_name (strip data_name)) (fun name =>
        insert_ingredient new_id name d)
    end in
  match reraise_http 500 "Ошибка при создании ингредиента" [] body with
  | Ok (d', ing) => (d', Ok ing)
  | Raise e => (d, Raise e)
  end.

Definition ingredient_names_unique (d : Db) : Prop :=
  NoDup (map Ingredient.name (ingredients d)).

(** *** Names in the audio cache *)

(** A lower-case hexadecimal digit. *)
Definition hex_char (c : N) : bool := ascii_digit c || ((97 <=? c) && (c <=? 102))%N.

(** The file name, inside [CACHE_DIR], of a path [get_tts_cache_path]
    returns. *)
Definition cached_audio_name (name : str) : Prop :=
  exists text voice, get_tts_cache_path text voice = Ok (path_join CACHE_DIR name).

(* ================================================================== *)
(** * Part II: properties                                              *)
(* ================================================================== *)

(** A failed call is settled by cases on the exception it raised. *)
Ltac by_exn e := destruct e; first [reflexivity | discriminate].

(** ** Helper lemmas on [str] methods *)

Lemma str_eqb_refl (s : str) : str_eqb s s = true.
Proof.
  induction s as [|c s IH]; cbn [str_eqb]; [reflexivity|]. now rewrite N.eqb_refl.
Qed.

Lemma str_eqb_eq (a b : str) : str_eqb a b = true <-> a = b.
Proof.
  split; [|intros ->; apply str_eqb_refl].
  revert b. induction a as [|x a IH]; intros [|y b]; cbn [str_eqb];
    try discriminate; [reflexivity|].
  intros H. apply andb_prop in H as [H1 H2]. apply N.eqb_eq in H1.
  now rewrite H1, (IH b H2).
Qed.

Lemma str_eqb_neq (a b : str) : str_eqb a b = false <-> a <> b.
Proof.
  split.
  - intros H ->. rewrite str_eqb_refl in H. discriminate.
  - intros H. destruct (str_eqb a b) eqn:E; [|reflexivity].
    apply str_eqb_eq in E. contradiction.
Qed.

Lemma lstrip_head_not_space s c s' :
  lstrip s = c :: s' -> isspace c = false.
Proof.
  induction s as [|a s IH]; cbn [lstrip]; [discriminate|].
  destruct (isspace a) eqn:Ha; [exact IH|].
  intros H; injection H as -> _; exact Ha.
Qed.

Lemma lstrip_fixed c s : isspace c = false -> lstrip (c :: s) = c :: s.
Proof. intros H; cbn [lstrip]; now rewrite H. Qed.

Lemma rstrip_head c s :
  isspace c = false -> exists r, rstrip (c :: s) = c :: r.
Proof.
  intros H; cbn [rstrip]. destruct (rstrip s); [rewrite H|]; eauto.
Qed.

Lemma rstrip_idempotent s : rstrip (rstrip s) = rstrip s.
Proof.
  induction s as [|c s IH]; cbn [rstrip]; [reflexivity|].
  destruct (rstrip s) as [|d r] eqn:E.
  - destruct (isspace c) eqn:Hc; cbn [rstrip]; [reflexivity|now rewrite Hc].
  - cbn [rstrip]. cbn [rstrip] in IH. rewrite IH. reflexivity.
Qed.

Lemma strip_idempotent s : strip (strip s) = strip s.
Proof.
  unfold strip. destruct (lstrip s) as [|c t] eqn:E; [reflexivity|].
  pose proof (lstrip_head_not_space _ _ _ E) as Hc.
  destruct (rstrip_head c t Hc) as [r Hr]. rewrite Hr.
  rewrite (lstrip_fixed _ _ Hc), <- Hr. apply rstrip_idempotent.
Qed.

Lemma lstrip_length s : (List.length (lstrip s) <= List.length s)%nat.
Proof.
  induction s as [|c s IH]; cbn [lstrip List.length]; [lia|].
  destruct (isspace c); cbn [List.length]; lia.
Qed.

Lemma rstrip_length s : (List.length (rstrip s) <= List.length s)%nat.
Proof.
  induction s as [|c s IH]; cbn [rstrip List.length]; [lia|].
  destruct (rstrip s); [destruct (isspace c)|]; cbn [List.length] in *; lia.
Qed.

Lemma strip_len s : len (strip s) <= len s.
Proof.
  unfold len, strip. pose proof (rstrip_length (lstrip s)). pose proof (lstrip_length s). lia.
Qed.

(** What [lstrip] and [rstrip] take away is a run of blanks. *)
Lemma lstrip_split s : exists w, s = (w ++ lstrip s)%list /\ forallb isspace w = true.
Proof.
  induction s as [|c s [w [Hs Hw]]]; [now exists []|]. cbn [lstrip].
  destruct (isspace c) eqn:Hc.
  - exists (c :: w). cbn [app forallb]. rewrite Hc, Hw. now rewrite <- Hs.
  - now exists [].
Qed.

Lemma rstrip_nil s : rstrip s = [] <-> forallb isspace s = true.
Proof.
  induction s as [|c s IH]; cbn [rstrip forallb]; [tauto|].
  destruct (rstrip s) as [|d r].
  - destruct (isspace c); cbn [andb]; [|split; discriminate].
    split; [intros _; now apply IH|reflexivity].
  - split; [discriminate|]. intros H. apply andb_prop in H as [_ H].
    apply IH in H. discriminate.
Qed.

Lemma rstrip_app (x y : str) :
  rstrip (x ++ y) = match rstrip y with
                    | [] => rstrip x
                    | r => (x ++ r)%list
                    end.
Proof.
  induction x as [|c x IH]; cbn [app rstrip].
  - now destruct (rstrip y).
  - rewrite IH. destruct (rstrip y) as [|d r]; [reflexivity|].
    destruct x; reflexivity.
Qed.

Lemma rstrip_split s : exists w, s = (rstrip s ++ w)%list /\ forallb isspace w = true.
Proof.
  induction s as [|c s [w [Hs Hw]]]; [now exists []|]. cbn [rstrip].
  destruct (rstrip s) as [|d r] eqn:E.
  - cbn [app] in Hs. subst w. destruct (isspace c) eqn:Hc.
    + exists (c :: s). cbn [app forallb]. now rewrite Hc, Hw.
    + exists s. now split.
  - exists w. split; [|exact Hw]. rewrite Hs at 1. reflexivity.
Qed.

Lemma rstrip_not_space (y : str) :
  forallb (fun c => negb (isspace c)) y = true -> rstrip y = y.
Proof.
  induction y as [|c y IH]; cbn [forallb rstrip]; [reflexivity|].
  intros H. apply andb_prop in H as [Hc Hy]. rewrite (IH Hy).
  apply negb_true_iff in Hc. destruct y; [now rewrite Hc|reflexivity].
Qed.

(** A string that [rstrip] leaves alone is empty or ends in a character
    that is not a blank. *)
Lemma rstrip_fixed_cases (t : str) :
  rstrip t = t -> t = [] \/ exists t0 c, t = (t0 ++ [c])%list /\ isspace c = false.
Proof.
  intros H. destruct t as [|a t']; [now left|]. right.
  destruct (exists_last (l := a :: t')) as [t0 [c Ht]]; [discriminate|].
  exists t0, c. split; [exact Ht|]. rewrite Ht in H.
  rewrite rstrip_app in H. cbn [rstrip] in H.
  destruct (isspace c) eqn:Hc; [|reflexivity].
  pose proof (rstrip_length t0) as Hl. rewrite H, length_app in Hl.
  cbn [List.length] in Hl. lia.
Qed.

(** *** The character tables *)

Lemma in_ranges_true (rs : list (N * N)) (c : N) :
  in_ranges rs c = true <-> exists r, In r rs /\ (fst r <= c <= snd r)%N.
Proof.
  unfold in_ranges. rewrite existsb_exists. split; intros [r [Hr H]]; exists r;
    (split; [exact Hr|]).
  - apply andb_prop in H as [H1 H2]. apply N.leb_le in H1, H2. lia.
  - apply andb_true_intro. split; apply N.leb_le; lia.
Qed.

(** The blanks, one by one. *)
Lemma isspace_cases (c : N) :
  isspace c = true ->
  In c [9; 10; 11; 12; 13; 28; 29; 30; 31; 32; 133; 160; 5760; 8192; 8193; 8194; 8195;
        8196; 8197; 8198; 8199; 8200; 8201; 8202; 8232; 8233; 8239; 8287; 12288]%N.
Proof.
  intros H. apply in_ranges_true in H as [[lo hi] [Hr H]].
  cbn [fst snd] in H. unfold space_ranges in Hr. cbn [In] in Hr |- *.
  repeat (destruct Hr as [Hr|Hr]; [injection Hr as <- <-; lia|]). contradiction.
Qed.

(** A blank has no case: it is its own lower-case image, and the rule of
    the final sigma neither skips it nor counts it as a letter. *)
Lemma isspace_caseless (c : N) :
  isspace c = true ->
  (c =? 931)%N = false /\ to_lower_full c = [c]
  /\ is_case_ignorable c = false /\ is_cased c = false.
Proof.
  intros H. apply isspace_cases in H. cbn [In] in H.
  repeat (destruct H as [<-|H]; [vm_compute; auto|]). contradiction.
Qed.

Lemma lower_in_some (runs : list (N * N * N * N)) (c d : N) :
  lower_in runs c = Some d ->
  exists lo hi step image,
    In (lo, hi, step, image) runs /\ (lo <= c <= hi)%N /\ d = (image + (c - lo))%N.
Proof.
  induction runs as [|[[[lo hi] step] image] runs IH]; cbn [lower_in]; [discriminate|].
  destruct ((lo <=? c)%N && (c <=? hi)%N && ((c - lo) mod step =? 0)%N) eqn:E.
  - intros H. injection H as <-. exists lo, hi, step, image.
    apply andb_prop in E as [E _]. apply andb_prop in E as [E1 E2].
    apply N.leb_le in E1, E2. split; [now left|]. split; [lia|reflexivity].
  - intros H. destruct (IH H) as [lo' [hi' [st' [im' [Hin Hr]]]]].
    exists lo', hi', st', im'. split; [now right|exact Hr].
Qed.

(** No lower-case image is a blank, and none is a capital ASCII letter. *)
Lemma lower_runs_images :
  forallb (fun run =>
             match run with
             | (lo, hi, _, image) =>
                 negb (existsb (fun r => (fst r <=? image + (hi - lo))%N
                                         && (image <=? snd r)%N)
                               ((65, 90)%N :: space_ranges))
             end) lower_runs = true.
Proof. vm_compute. reflexivity. Qed.

(** Below 128 the letters A to Z are the characters with an image, which
    is the letter 32 places up. *)
Lemma lower_runs_ascii :
  forallb (fun run =>
             match run with
             | (lo, hi, step, image) =>
                 (128 <=? lo)%N
                 || ((lo =? 65) && (hi =? 90) && (step =? 1) && (image =? 97))%N
             end) lower_runs = true
  /\ forallb (fun c => match lower_in lower_runs c with
                       | Some d => (d =? c + 32)%N
                       | None => false
                       end)
             (map N.of_nat (seq 65 26)) = true.
Proof. split; vm_compute; reflexivity. Qed.

Lemma lower_in_image (c d : N) :
  lower_in lower_runs c = Some d -> isspace d = false /\ ascii_upper d = false.
Proof.
  intros H. destruct (lower_in_some _ _ _ H) as [lo [hi [st [im [Hin [Hc ->]]]]]].
  pose proof lower_runs_images as Ht. rewrite forallb_forall in Ht.
  specialize (Ht _ Hin). cbn beta iota in Ht. apply negb_true_iff in Ht.
  cbn [existsb] in Ht. apply orb_false_iff in Ht as [Hu Hs].
  split.
  - destruct (isspace (im + (c - lo))) eqn:E; [|reflexivity].
    apply in_ranges_true in E as [r [Hr Hb]].
    assert (Hx : existsb (fun r => (fst r <=? im + (hi - lo))%N && (im <=? snd r)%N)
                         space_ranges = true).
    { apply existsb_exists. exists r. split; [exact Hr|].
      apply andb_true_intro. split; apply N.leb_le; lia. }
    congruence.
  - cbn [fst snd] in Hu. unfold ascii_upper.
    destruct ((65 <=? im + (c - lo))%N && (im + (c - lo) <=? 90)%N) eqn:E; [|reflexivity].
    apply andb_prop in E as [E1 E2]. apply N.leb_le in E1, E2.
    apply andb_false_iff in Hu as [Hu|Hu]; apply N.leb_gt in Hu; lia.
Qed.

Lemma lower_in_ascii (c : N) :
  (c < 128)%N ->
  lower_in lower_runs c = if ascii_upper c then Some (c + 32)%N else None.
Proof.
  intros Hc. destruct (ascii_upper c) eqn:Hu.
  - unfold ascii_upper in Hu. apply andb_prop in Hu as [H1 H2].
    apply N.leb_le in H1, H2.
    pose proof (proj2 lower_runs_ascii) as Ht. rewrite forallb_forall in Ht.
    assert (Hin : In c (map N.of_nat (seq 65 26))).
    { apply in_map_iff. exists (N.to_nat c). split; [apply N2Nat.id|].
      apply in_seq. lia. }
    specialize (Ht _ Hin). cbn beta in Ht.
    destruct (lower_in lower_runs c) as [d|]; [|discriminate].
    apply N.eqb_eq in Ht. now subst d.
  - destruct (lower_in lower_runs c) as [d|] eqn:E; [|reflexivity].
    destruct (lower_in_some _ _ _ E) as [lo [hi [st [im [Hin [Hb _]]]]]].
    pose proof (proj1 lower_runs_ascii) as Ht. rewrite forallb_forall in Ht.
    specialize (Ht _ Hin). cbn beta iota in Ht.
    apply orb_prop in Ht as [Ht|Ht].
    + apply N.leb_le in Ht. lia.
    + apply andb_prop in Ht as [Ht _]. apply andb_prop in Ht as [Ht _].
      apply andb_prop in Ht as [H1 H2]. apply N.eqb_eq in H1, H2. subst lo hi.
      unfold ascii_upper in Hu. apply andb_false_iff in Hu as [Hu|Hu];
        apply N.leb_gt in Hu; lia.
Qed.

(** The image of a character that is not a blank is not empty and has no
    blank. *)
Lemma lower_char_not_space (before after : str) (c : N) :
  isspace c = false ->
  lower_char before c after <> []
  /\ forallb (fun x => negb (isspace x)) (lower_char before c after) = true.
Proof.
  intros Hc. unfold lower_char, to_lower_full.
  destruct (c =? 931)%N.
  { destruct (final_sigma before after); (split; [discriminate|vm_compute; reflexivity]). }
  destruct (c =? 304)%N; [split; [discriminate|vm_compute; reflexivity]|].
  destruct (lower_in lower_runs c) as [d|] eqn:E; (split; [discriminate|]);
    cbn [forallb]; rewrite andb_true_r; apply negb_true_iff; [|exact Hc].
  now apply lower_in_image in E.
Qed.

(** No image holds a capital ASCII letter. *)
Lemma lower_char_no_upper (before after : str) (c : N) :
  forallb (fun x => negb (ascii_upper x)) (lower_char before c after) = true.
Proof.
  unfold lower_char, to_lower_full.
  destruct (c =? 931)%N; [destruct (final_sigma before after); vm_compute; reflexivity|].
  destruct (c =? 304)%N; [vm_compute; reflexivity|].
  destruct (lower_in lower_runs c) as [d|] eqn:E; cbn [forallb]; rewrite andb_true_r;
    apply negb_true_iff.
  - now apply lower_in_image in E.
  - destruct (ascii_upper c) eqn:Hu; [|reflexivity].
    assert (Hc : (c < 128)%N).
    { unfold ascii_upper in Hu. apply andb_prop in Hu as [_ Hu]. apply N.leb_le in Hu. lia. }
    rewrite (lower_in_ascii c Hc), Hu in E. discriminate.
Qed.

(** An ASCII character other than a capital letter is its own image. *)
Lemma lower_char_ascii (before after : str) (c : N) :
  (c < 128)%N -> ascii_upper c = false -> lower_char before c after = [c].
Proof.
  intros Hc Hu. unfold lower_char, to_lower_full.
  replace (c =? 931)%N with false by (symmetry; apply N.eqb_neq; lia).
  replace (c =? 304)%N with false by (symmetry; apply N.eqb_neq; lia).
  now rewrite (lower_in_ascii c Hc), Hu.
Qed.

(** *** [lower] and [strip] *)

Lemma lower_between_app (before x y after : str) :
  lower_between before (x ++ y) after
  = (lower_between before x (y ++ after)
     ++ lower_between (rev x ++ before) y after)%list.
Proof.
  revert before. induction x as [|c x IH]; intros before; cbn [app lower_between rev];
    [reflexivity|].
  rewrite IH, <- !app_assoc. reflexivity.
Qed.

(** A blank ends what the rule of the final sigma looks at, on either
    side. *)
Lemma final_sigma_after (before rest after : str) (w : N) :
  isspace w = true ->
  final_sigma before (rest ++ w :: after) = final_sigma before rest.
Proof.
  intros Hw. destruct (isspace_caseless w Hw) as [_ [_ [Hi Hc]]].
  unfold final_sigma. f_equal.
  induction rest as [|c rest IH]; cbn [app drop_while].
  - now rewrite Hi, Hc.
  - destruct (is_case_ignorable c); [exact IH|reflexivity].
Qed.

Lemma final_sigma_before (before more after : str) (w : N) :
  isspace w = true ->
  final_sigma (before ++ w :: more) after = final_sigma before after.
Proof.
  intros Hw. destruct (isspace_caseless w Hw) as [_ [_ [Hi Hc]]].
  unfold final_sigma. f_equal.
  induction before as [|c before IH]; cbn [app drop_while].
  - now rewrite Hi, Hc.
  - destruct (is_case_ignorable c); [exact IH|reflexivity].
Qed.

Lemma lower_between_after (before s after : str) (w : N) :
  isspace w = true ->
  lower_between before s (w :: after) = lower_between before s [].
Proof.
  intros Hw. revert before. induction s as [|c s IH]; intros before;
    cbn [lower_between]; [reflexivity|].
  rewrite IH. f_equal. unfold lower_char.
  now rewrite (final_sigma_after before s after w Hw), app_nil_r.
Qed.

Lemma lower_between_before (before more s after : str) (w : N) :
  isspace w = true ->
  lower_between (before ++ w :: more) s after = lower_between before s after.
Proof.
  intros Hw. revert before. induction s as [|c s IH]; intros before;
    cbn [lower_between]; [reflexivity|].
  rewrite app_comm_cons, (IH (c :: before)). f_equal. unfold lower_char.
  now rewrite (final_sigma_before before more (s ++ after) w Hw).
Qed.

Lemma lower_between_blanks (before w after : str) :
  forallb isspace w = true -> lower_between before w after = w.
Proof.
  revert before. induction w as [|c w IH]; intros before; cbn [forallb lower_between];
    [reflexivity|].
  intros H. apply andb_prop in H as [Hc Hw]. rewrite (IH _ Hw).
  destruct (isspace_caseless c Hc) as [H1 [H2 _]].
  unfold lower_char. now rewrite H1, H2.
Qed.

Lemma lstrip_blanks (w t : str) : forallb isspace w = true -> lstrip (w ++ t) = lstrip t.
Proof.
  induction w as [|c w IH]; cbn [forallb app lstrip]; [reflexivity|].
  intros H. apply andb_prop in H as [Hc Hw]. now rewrite Hc, IH.
Qed.

Lemma lstrip_lower (s : str) : lstrip (lower s) = lower (lstrip s).
Proof.
  destruct (lstrip_split s) as [w [Hs Hw]]. unfold lower.
  rewrite Hs at 1. rewrite lower_between_app, app_nil_r.
  rewrite (lower_between_blanks _ _ _ Hw), (lstrip_blanks _ _ Hw).
  assert (Hctx : lower_between (rev w ++ []) (lstrip s) [] = lower_between [] (lstrip s) []).
  { rewrite app_nil_r. destruct (rev w) as [|w0 x] eqn:E; [reflexivity|].
    apply (lower_between_before [] x (lstrip s) [] w0).
    rewrite forallb_forall in Hw. apply Hw. apply in_rev. rewrite E. now left. }
  rewrite Hctx. destruct (lstrip s) as [|c t] eqn:E; [reflexivity|].
  apply lstrip_head_not_space in E. cbn [lower_between].
  destruct (lower_char_not_space [] (t ++ []) c E) as [Hne Hall].
  destruct (lower_char [] c (t ++ [])) as [|d img]; [contradiction|].
  cbn [forallb] in Hall. apply andb_prop in Hall as [Hd _].
  apply negb_true_iff in Hd. cbn [app lstrip]. now rewrite Hd.
Qed.

Lemma rstrip_lower_fixed (before t after : str) :
  rstrip t = t -> rstrip (lower_between before t after) = lower_between before t after.
Proof.
  intros H. destruct (rstrip_fixed_cases t H) as [->|[t0 [c [-> Hc]]]]; [reflexivity|].
  rewrite lower_between_app. cbn [lower_between]. rewrite app_nil_r.
  destruct (lower_char_not_space (rev t0 ++ before) ([] ++ after) c Hc) as [Hne Hall].
  rewrite rstrip_app, (rstrip_not_space _ Hall).
  destruct (lower_char (rev t0 ++ before) c ([] ++ after)); [contradiction|reflexivity].
Qed.

Lemma rstrip_lower (s : str) : rstrip (lower s) = lower (rstrip s).
Proof.
  destruct (rstrip_split s) as [w [Hs Hw]]. unfold lower.
  rewrite Hs at 1. rewrite lower_between_app, app_nil_r.
  rewrite (lower_between_blanks _ _ _ Hw).
  assert (Hctx : lower_between [] (rstrip s) w = lower_between [] (rstrip s) []).
  { destruct w as [|w0 x]; [reflexivity|]. apply lower_between_after.
    cbn [forallb] in Hw. now apply andb_prop in Hw as [Hw _]. }
  rewrite Hctx, rstrip_app. apply rstrip_nil in Hw. rewrite Hw.
  apply rstrip_lower_fixed, rstrip_idempotent.
Qed.

(** Trimming and lower-casing commute. *)
Lemma strip_lower (s : str) : strip (lower s) = lower (strip s).
Proof. unfold strip. now rewrite lstrip_lower, rstrip_lower. Qed.

(** The result of [lower] has no capital ASCII letter, and [lower] leaves
    an ASCII string without capital letters as it is. *)
Lemma lower_no_upper (before s after : str) :
  forallb (fun x => negb (ascii_upper x)) (lower_between before s after) = true.
Proof.
  revert before. induction s as [|c s IH]; intros before; cbn [lower_between];
    [reflexivity|].
  rewrite forallb_app, IH, lower_char_no_upper. reflexivity.
Qed.

Lemma lower_ascii_fixed (before s after : str) :
  forallb (fun c => (c <? 128)%N && negb (ascii_upper c)) s = true ->
  lower_between before s after = s.
Proof.
  revert before. induction s as [|c s IH]; intros before; cbn [forallb lower_between];
    [reflexivity|].
  intros H. apply andb_prop in H as [Hc Hs]. apply andb_prop in Hc as [Hc Hu].
  apply N.ltb_lt in Hc. apply negb_true_iff in Hu.
  now rewrite (lower_char_ascii _ _ c Hc Hu), (IH _ Hs).
Qed.

(** ** The TTS cache path ([app/utils/tts.py]) *)

Example md5_empty : MD5.hexdigest "" = "d41d8cd98f00b204e9800998ecf8427e".
Proof. vm_compute. reflexivity. Qed.

Example md5_abc : MD5.hexdigest "abc" = "900150983cd24fb0d6963f7d28e17f72".
Proof. vm_compute. reflexivity. Qed.

Example md5_two_blocks :
  MD5.hexdigest "xxxxxxxxxxxxxxxxxxxxxxxxxxxxxxxxxxxxxxxxxxxxxxxxxxxxxxxxxxxxxxxxxxxxxx"
  = "7d56c0f83fd1e320d60ea2f13dfdeedd".
Proof. vm_compute. reflexivity. Qed.

(** The digest is taken of the UTF-8 bytes of the text. *)
Example md5_cyrillic :
  MD5.hexdigest "Нарезать лук_recipe_7_step_1" = "1d4d0040ea485bd0e55f297b969c85f2".
Proof. vm_compute. reflexivity. Qed.

Example tts_path_of_step :
  get_tts_cache_path "Нарезать лук" (voice_id 7 1)
  = Ok "cache/tts/1d4d0040ea485bd0e55f297b969c85f2.mp3".
Proof. vm_compute. reflexivity. Qed.

Lemma le_bytes_length (n : nat) (x : N) : List.length (MD5.le_bytes n x) = n.
Proof.
  revert x. induction n as [|n IH]; intros x; cbn [MD5.le_bytes List.length];
    [reflexivity|]. now rewrite IH.
Qed.

Lemma hex_length (bs : list N) : List.length (MD5.hex bs) = (2 * List.length bs)%nat.
Proof.
  induction bs as [|b bs IH]; cbn [MD5.hex List.length]; [reflexivity|].
  rewrite IH. lia.
Qed.

(** Whatever the input, the digest has 16 bytes and prints as 32 digits. *)
Lemma hexdigest_length (s : str) : List.length (MD5.hexdigest s) = 32%nat.
Proof.
  unfold MD5.hexdigest, MD5.digest. rewrite hex_length.
  destruct (MD5.chunks _ _ _) as [[[a b] c] d].
  rewrite !length_app, !le_bytes_length. reflexivity.
Qed.



(** The voices of [app/routers/tts.py]: an [r] at the front and none after. *)
Lemma uint_str_digits (u : Decimal.uint) (c : N) :
  In c (uint_str u) -> (48 <= c <= 57)%N.
Proof.
  induction u; cbn [uint_str In]; intros H; [destruct H|..];
    (destruct H as [H|H]; [subst c; unfold digit_char; lia|now apply IHu]).
Qed.

Lemma str_of_int_chars (n : Z) (c : N) :
  In c (str_of_int n) -> (c = 45 \/ 48 <= c <= 57)%N.
Proof.
  destruct n as [|p|p]; cbn [str_of_int].
  - intros [H|[]]. subst c. right. vm_compute. split; discriminate.
  - intros H. right. now apply uint_str_digits in H.
  - intros [H|H]; [now left; subst c|]. right. now apply uint_str_digits in H.
Qed.

Lemma voice_id_shape (recipe_id step_number : Z) :
  exists rest, voice_id recipe_id step_number = (114 :: rest)%N /\ ~ In 114%N rest.
Proof.
  unfold voice_id. eexists. split; [reflexivity|].
  intros H. repeat (destruct H as [H|H]; [discriminate H|]).
  apply in_app_or in H. destruct H as [H|H].
  - apply str_of_int_chars in H. lia.
  - repeat (destruct H as [H|H]; [discriminate H|]).
    apply str_of_int_chars in H. lia.
Qed.

Lemma voice_id_no_suffix (r n r' n' : Z) (p : str) :
  voice_id r n <> p ++ "_" ++ voice_id r' n'.
Proof.
  destruct (voice_id_shape r n) as (rest & E & Hno).
  destruct (voice_id_shape r' n') as (rest' & E' & _).
  rewrite E, E'. intros H. destruct p as [|c p]; [discriminate H|].
  injection H as _ H. apply Hno. rewrite H. apply in_or_app. right.
  right. now left.
Qed.

(** With the voices the routers pass, the joined string determines the text
    and the voice: the two readings above never meet there. *)
Lemma joined_voice_id_injective (text text' : str) (r n r' n' : Z) :
  text ++ "_" ++ voice_id r n = text' ++ "_" ++ voice_id r' n' ->
  text = text' /\ voice_id r n = voice_id r' n'.
Proof.
  intros H. apply app_eq_app in H. destruct H as (p & [[H1 H2]|[H1 H2]]).
  - destruct p as [|c p].
    + rewrite app_nil_r in H1. cbn [app] in H2. split; [|injection H2]; congruence.
    + injection H2 as _ H2. now apply voice_id_no_suffix in H2.
  - destruct p as [|c p].
    + rewrite app_nil_r in H1. cbn [app] in H2. split; [|injection H2]; congruence.
    + injection H2 as _ H2. now apply voice_id_no_suffix in H2.
Qed.

(** ** The cooking streak ([app/routers/analytics.py]) *)

Lemma count_pos_existsb {A} (p : A -> bool) (l : list A) :
  (Z.of_nat (List.length (filter p l)) >? 0) = existsb p l.
Proof.
  induction l as [|x l IH]; simpl; [reflexivity|].
  destruct (p x); simpl; [|exact IH].
  apply Z.gtb_lt. lia.
Qed.

Lemma sessions_count_cooked_on uid day d :
  (sessions_count uid day d >? 0) = cooked_on uid day d.
Proof. apply count_pos_existsb. Qed.

(** The loop invariant: entering day [s] with [cooking_streak = s], the
    loop adds the run that starts at [s]. *)
Lemma streak_loop_run uid today d (k s : nat) :
  streak_loop uid today d (map Z.of_nat (seq s k)) (Z.of_nat s)
  = Z.of_nat s + initial_run (fun i => cooked_on uid (today - i) d) (Z.of_nat s) k.
Proof.
  revert s. induction k as [|k IH]; intros s; cbn [streak_loop initial_run map seq]; [lia|].
  rewrite sessions_count_cooked_on, Z.eqb_refl.
  destruct (cooked_on uid (today - Z.of_nat s) d).
  - replace (Z.of_nat s + 1) with (Z.of_nat (S s)) by lia.
    rewrite IH. lia.
  - destruct (Z.of_nat s =? 0); lia.
Qed.

(** C7: the streak is the length of the initial run of days, counted back
    from today over at most seven days, that each have a completed session
    of the user.  Sessions today and yesterday only give 2; a session two
    days ago only gives 0. *)
Theorem cooking_streak_initial_run :
  (forall now user d,
     cooking_streak now user d
     = initial_run (fun i => cooked_on (User.id user) (date_of now - i) d) 0 7)
  /\ cooking_streak (day0 + 50000) cook db_today_yesterday = 2
  /\ cooking_streak (day0 + 50000) cook db_two_days_ago = 0.
Proof.
  split; [|split; vm_compute; reflexivity].
  intros now user d. unfold cooking_streak, range.
  exact (streak_loop_run (User.id user) (date_of now) d 7 0).
Qed.

(** ** The dish quota ([app/routers/dishes.py]) *)

Lemma strip_nil_blank (s : str) : strip s = [] -> blank s.
Proof.
  unfold strip. intros H. apply rstrip_nil in H.
  destruct (lstrip_split s) as (w & Es & Hw).
  intros c Hc. rewrite Es in Hc. apply in_app_or in Hc.
  rewrite forallb_forall in H, Hw. destruct Hc; auto.
Qed.

Lemma blank_strip_nil (s : str) : blank s -> strip s = [].
Proof.
  intros H. unfold strip. apply rstrip_nil. apply forallb_forall.
  intros c Hc. apply H. destruct (lstrip_split s) as (w & Es & _).
  rewrite Es. apply in_or_app. now right.
Qed.

Lemma Dish_validate_name_stripped (data : DishCreate.t) :
  acceptable data ->
  Dish_validate_name (strip (DishCreate.name data)) = Ok (strip (DishCreate.name data)).
Proof.
  intros ([_ Hle] & Hn & _). unfold Dish_validate_name.
  rewrite strip_idempotent.
  destruct (strip (DishCreate.name data)) as [|c s] eqn:E.
  - now apply strip_nil_blank in E.
  - cbn [truthy negb orb]. rewrite <- E.
    pose proof (strip_len (DishCreate.name data)) as Hs.
    destruct (len (strip (DishCreate.name data)) >? 100) eqn:G; [|reflexivity].
    apply Z.gtb_lt in G. lia.
Qed.

(** The query counts the rows of the caller, whoever owns the others. *)
Lemma dish_count_dishes_of (uid : Z) (d : Db) :
  dish_count uid d = dishes_of uid (dishes d).
Proof.
  unfold dish_count. induction (dishes d) as [|x rest IH]; [reflexivity|].
  cbn [filter dishes_of]. destruct (Dish.user_id x =? uid).
  - cbn [List.length]. lia.
  - lia.
Qed.

Lemma dishes_of_app (uid : Z) (xs ys : list Dish.t) :
  dishes_of uid (xs ++ ys) = dishes_of uid xs + dishes_of uid ys.
Proof.
  induction xs as [|x xs IH]; cbn [app dishes_of]; [reflexivity|]. lia.
Qed.

Lemma max_dishes_ceiling b : max_dishes (get_user_limits b) = tier_ceiling b.
Proof. destruct b; reflexivity. Qed.

Lemma create_dish_below (data : DishCreate.t) (user : User.t) (d : Db) :
  acceptable data ->
  dishes_of (User.id user) (dishes d) < tier_ceiling (User.is_premium user) ->
  create_dish data user d
  = (fst (insert_dish (strip (DishCreate.name data)) (DishCreate.category data)
                      (User.id user) d),
     Ok (Dish.mk (dishes_id_seq d) (strip (DishCreate.name data))
                 (DishCreate.category data) (User.id user))).
Proof.
  intros Hacc Hlt. unfold create_dish.
  rewrite max_dishes_ceiling, dish_count_dishes_of.
  destruct (dishes_of (User.id user) (dishes d) >=? tier_ceiling (User.is_premium user))
    eqn:E.
  - apply Z.geb_le in E. lia.
  - rewrite (Dish_validate_name_stripped data Hacc). reflexivity.
Qed.

Lemma create_dish_at_ceiling (data : DishCreate.t) (user : User.t) (d : Db) :
  tier_ceiling (User.is_premium user) <= dishes_of (User.id user) (dishes d) ->
  create_dish data user d
  = (d, Raise (HTTPException 403
                 ("Превышен лимит блюд ("
                  ++ str_of_int (tier_ceiling (User.is_premium user)) ++ ")") [])).
Proof.
  intros Hge. unfold create_dish. rewrite max_dishes_ceiling, dish_count_dishes_of.
  destruct (dishes_of (User.id user) (dishes d) >=? tier_ceiling (User.is_premium user))
    eqn:E.
  - reflexivity.
  - rewrite Z.geb_leb in E. apply Z.leb_gt in E. lia.
Qed.

Lemma dishes_of_insert name category uid d :
  dishes_of uid (dishes (fst (insert_dish name category uid d)))
  = dishes_of uid (dishes d) + 1.
Proof.
  unfold insert_dish. cbn [fst dishes]. rewrite dishes_of_app.
  cbn [dishes_of Dish.user_id]. rewrite Z.eqb_refl. lia.
Qed.

(** Which of a run of successive requests succeed. *)
Lemma create_dishes_outcomes (user : User.t) (datas : list DishCreate.t) (d : Db) :
  Forall acceptable datas ->
  map is_ok (snd (create_dishes datas user d))
  = map (fun i => dishes_of (User.id user) (dishes d) + Z.of_nat i
                  <? tier_ceiling (User.is_premium user))
        (seq 0 (List.length datas)).
Proof.
  intros Hall. revert d. induction Hall as [|data rest Hacc Hrest IH]; intros d.
  - reflexivity.
  - cbn [create_dishes List.length seq map].
    destruct (Z.lt_ge_cases (dishes_of (User.id user) (dishes d))
                            (tier_ceiling (User.is_premium user))) as [Hlt|Hge].
    + rewrite (create_dish_below data user d Hacc Hlt).
      destruct (create_dishes rest user _) as [d2 rs] eqn:E.
      cbn [snd map is_ok]. f_equal.
      * symmetry. apply Z.ltb_lt. lia.
      * replace rs with (snd (create_dishes rest user
            (fst (insert_dish (strip (DishCreate.name data))
                    (DishCreate.category data) (User.id user) d))))
          by now rewrite E.
        rewrite IH, dishes_of_insert, <- seq_shift, map_map.
        apply map_ext. intros i. f_equal. lia.
    + rewrite (create_dish_at_ceiling data user d Hge).
      destruct (create_dishes rest user d) as [d2 rs] eqn:E.
      cbn [snd map is_ok]. f_equal.
      * symmetry. apply Z.ltb_ge. lia.
      * replace rs with (snd (create_dishes rest user d)) by now rewrite E.
        rewrite IH, <- seq_shift, map_map. apply map_ext_in. intros i _.
        transitivity false; [apply Z.ltb_ge|symmetry; apply Z.ltb_ge]; lia.
Qed.

(** The names the examples use are acceptable ones. *)
Lemma borscht_acceptable : acceptable borscht.
Proof.
  split; [vm_compute; split; discriminate|]. split.
  - intros H. specialize (H (chr "B") (or_introl eq_refl)). discriminate H.
  - split; [reflexivity|].
    intros H. repeat (destruct H as [H|H]; [discriminate H|]). exact H.
Qed.

Lemma shchi_acceptable : acceptable shchi.
Proof.
  split; [vm_compute; split; discriminate|]. split.
  - intros H. specialize (H (chr "щ") (or_introl eq_refl)). discriminate H.
  - split; [reflexivity|].
    intros H. apply repeat_spec in H. discriminate H.
Qed.

(** A name of blanks passes the schema, which counts characters, and is
    refused by [Dish.validate_name]: the handler answers 500. *)
Example create_dish_blank_name :
  len (DishCreate.name no_break_spaces) = 2
  /\ blank (DishCreate.name no_break_spaces)
  /\ create_dish no_break_spaces cook db_one_cook
     = (db_one_cook, Raise (HTTPException 500 "Ошибка при создании блюда" [])).
Proof.
  split; [reflexivity|]. split; [|vm_compute; reflexivity].
  intros c [H|[H|[]]]; subst c; reflexivity.
Qed.

(** C2: whoever else has dishes in the table, a dish creation succeeds
    while the number of the caller's own dishes is below the tier ceiling
    (15, or 45 for a premium user): one row is appended, a dish of the
    caller with the trimmed name, and the caller owns one dish more.  Once
    the number has reached the ceiling the request is refused with 403 and
    nothing changes.  Of successive requests of a user who owns [owned]
    dishes, request number [i] (from 0) succeeds exactly if
    [owned + i < ceiling]: the 15th of a free user without dishes succeeds
    and the 16th is refused, and once the user has upgraded to premium the
    next thirty requests succeed and the one after them is refused, the
    ceiling being 45.  The dishes of another user do not count, and a name
    of sixty Cyrillic letters is as good as any. *)
Theorem create_dish_quota (user : User.t) (d : Db) :
  let uid := User.id user in
  let ceiling := tier_ceiling (User.is_premium user) in
  let owned := dishes_of uid (dishes d) in
  max_dishes (get_user_limits (User.is_premium user)) = ceiling
  /\ (forall data, acceptable data -> owned < ceiling ->
        exists d' dish,
          create_dish data user d = (d', Ok dish)
          /\ Dish.user_id dish = uid
          /\ Dish.name dish = strip (DishCreate.name data)
          /\ Dish.category dish = DishCreate.category data
          /\ dishes d' = (dishes d ++ [dish])%list
          /\ dishes_of uid (dishes d') = owned + 1)
  /\ (forall data, ceiling <= owned ->
        create_dish data user d
        = (d, Raise (HTTPException 403
                       ("Превышен лимит блюд (" ++ str_of_int ceiling ++ ")") [])))
  /\ (forall datas, Forall acceptable datas ->
        map is_ok (snd (create_dishes datas user d))
        = map (fun i => owned + Z.of_nat i <? ceiling) (seq 0 (List.length datas)))
  /\ map is_ok (snd (create_dishes (repeat borscht 16) cook db_one_cook))
     = (repeat true 15 ++ [false])%list
  /\ snd (create_dish borscht (caller 1 db_fifteen) db_fifteen)
     = Raise (HTTPException 403 "Превышен лимит блюд (15)" [])
  /\ map is_ok (snd (create_dishes (repeat borscht 31) (caller 1 db_fifteen_premium)
                       db_fifteen_premium))
     = (repeat true 30 ++ [false])%list
  /\ (dishes_of 1 (dishes db_shared) = 14 /\ dishes_of 2 (dishes db_shared) = 15
      /\ map is_ok (snd (create_dishes [borscht; borscht] cook db_shared)) = [true; false]
      /\ is_ok (snd (create_dish borscht guest db_shared)) = false)
  /\ is_ok (snd (create_dish shchi cook db_one_cook)) = true.
Proof.
  intros uid ceiling owned.
  split; [|split; [|split; [|split; [|split; [|split; [|split; [|split]]]]]]].
  - apply max_dishes_ceiling.
  - intros data Hacc Hlt. eexists _, _.
    split; [apply (create_dish_below _ _ _ Hacc Hlt)|].
    cbn [Dish.user_id Dish.name Dish.category].
    split; [reflexivity|]. split; [reflexivity|]. split; [reflexivity|]. split.
    + reflexivity.
    + apply dishes_of_insert.
  - intros data Hge. apply (create_dish_at_ceiling data user d Hge).
  - intros datas Hall. apply (create_dishes_outcomes user datas d Hall).
  - vm_compute. reflexivity.
  - vm_compute. reflexivity.
  - vm_compute. reflexivity.
  - vm_compute. repeat split; reflexivity.
  - vm_compute. reflexivity.
Qed.
(** ** Login ([app/routers/auth.py]) *)

(** C1: a login that fails because no account has the email and a login
    that fails because the password does not verify are answered with the
    same exception, status 401 with the same detail and headers, and leave
    the database as it was; only the log lines differ. *)
Theorem login_failure_uniform (pwd_context : CryptContext) (jose : Jose)
    (form1 form2 : OAuth2PasswordRequestForm) (db1 db2 : Db) (u : User.t) :
  first (fun v => str_eqb (User.email v) (strip (lower (username form1))))
        (users db1) = None ->
  first (fun v => str_eqb (User.email v) (strip (lower (username form2))))
        (users db2) = Some u ->
  verify_password pwd_context (password form2) (User.hashed_password u) = Ok false ->
  snd (login pwd_context jose form1 db1)
  = Raise (HTTPException 401 "Неверный email или пароль" [("WWW-Authenticate", "Bearer")])
  /\ snd (login pwd_context jose form2 db2) = snd (login pwd_context jose form1 db1)
  /\ fst (fst (login pwd_context jose form1 db1)) = db1
  /\ fst (fst (login pwd_context jose form2 db2)) = db2
  /\ snd (fst (login pwd_context jose form1 db1))
     <> snd (fst (login pwd_context jose form2 db2)).
Proof.
  intros H1 H2 Hv. unfold login. rewrite H1, H2, Hv. cbn.
  repeat split; discriminate.
Qed.

Lemma login_failure_uniform_witness :
  snd (login demo_pwd_context demo_jose form_wrong_password db_one_cook)
  = snd (login demo_pwd_context demo_jose form_unknown db_one_cook).
Proof.
  apply (login_failure_uniform demo_pwd_context demo_jose
           form_unknown form_wrong_password db_one_cook db_one_cook cook);
    vm_compute; reflexivity.
Defined.

(** ** The [is_active] flag at the authentication boundary *)

(** Two rows with the same primary key are the same row. *)
Lemma pk_unique (l : list User.t) (a b : User.t) :
  NoDup (map User.id l) -> In a l -> In b l -> User.id a = User.id b -> a = b.
Proof.
  induction l as [|x l IH]; cbn [map]; intros Hnd Ha Hb He; [contradiction|].
  inversion Hnd as [|? ? Hnotin Hnd']; subst.
  destruct Ha as [<-|Ha], Hb as [<-|Hb]; auto.
  - exfalso. apply Hnotin. rewrite He. now apply in_map.
  - exfalso. apply Hnotin. rewrite <- He. now apply in_map.
Qed.

Lemma first_map_mask (p : User.t -> bool) (l : list User.t) :
  (forall u, p (mask_active u) = p u) ->
  first p (map mask_active l) = option_map mask_active (first p l).
Proof.
  intros Hp. unfold first. induction l as [|x l IH]; simpl; [reflexivity|].
  rewrite Hp. destruct (p x); [reflexivity|exact IH].
Qed.

Lemma update_user_mask (u : User.t) (d : Db) :
  update_user (mask_active u) (mask_db d) = mask_db (update_user u d).
Proof.
  unfold update_user, mask_db, set_users. cbn. f_equal.
  rewrite !map_map. apply map_ext. intros v.
  change (User.id (mask_active v)) with (User.id v).
  change (User.id (mask_active u)) with (User.id u).
  destruct (User.id v =? User.id u); reflexivity.
Qed.

Lemma mask_db_idempotent d : mask_db (mask_db d) = mask_db d.
Proof.
  unfold mask_db, set_users. cbn. f_equal. rewrite map_map. now apply map_ext.
Qed.

(** Login on the masked database is the masked login. *)
Lemma login_mask (pwd_context : CryptContext) (jose : Jose)
    (form_data : OAuth2PasswordRequestForm) (d : Db) :
  login pwd_context jose form_data (mask_db d)
  = mask_login (login pwd_context jose form_data d).
Proof.
  unfold login. cbn [users mask_db set_users].
  rewrite first_map_mask by reflexivity.
  destruct (first _ (users d)) as [u|]; cbn [option_map]; [|reflexivity].
  change (User.hashed_password (mask_active u)) with (User.hashed_password u).
  destruct (verify_password pwd_context (password form_data) (User.hashed_password u))
    as [[|]|e].
  - change (User.update_last_login (utcnow jose) (mask_active u))
      with (mask_active (User.update_last_login (utcnow jose) u)).
    change (User.id (mask_active (User.update_last_login (utcnow jose) u)))
      with (User.id (User.update_last_login (utcnow jose) u)).
    pose proof (update_user_mask (User.update_last_login (utcnow jose) u) d) as Hu.
    unfold mask_db at 2 in Hu. cbn [users] in Hu. rewrite Hu.
    destruct (create_access_token jose _ _) as [tok|e]; [reflexivity|].
    by_exn e.
  - reflexivity.
  - by_exn e.
Qed.

Lemma get_current_user_mask (jose : Jose) (token : str) (d : Db) :
  get_current_user jose token (mask_db d)
  = mask_user_result (get_current_user jose token d).
Proof.
  unfold get_current_user.
  destruct (decode_access_token jose token) as [payload|e]; cbn [bind];
    [|by_exn e].
  destruct (dict_get "sub" payload) as [v|]; [|reflexivity].
  destruct (negb (json_truthy (Some v))); [reflexivity|].
  destruct (py_int v) as [uid|e]; cbn [bind]; [|by_exn e].
  cbn [users mask_db set_users].
  rewrite first_map_mask by reflexivity.
  destruct (first _ (users d)); reflexivity.
Qed.

Lemma get_current_active_user_mask (r : result User.t) :
  get_current_active_user (mask_user_result r)
  = mask_user_result (get_current_active_user r).
Proof. destruct r; reflexivity. Qed.

(** Deactivating an account changes nothing but its flag. *)
Lemma deactivate_account_mask (u : User.t) (d : Db) :
  users_pk d -> In u (users d) ->
  mask_db (fst (deactivate_account u d)) = mask_db d.
Proof.
  intros Hpk Hu. unfold deactivate_account, update_user, mask_db, set_users.
  cbn [fst users]. f_equal. rewrite map_map. apply map_ext_in. intros v Hv.
  change (User.id (User.set_is_active false u)) with (User.id u).
  destruct (User.id v =? User.id u) eqn:E; [|reflexivity].
  apply Z.eqb_eq in E. now rewrite (pk_unique (users d) v u Hpk Hv Hu E).
Qed.

(** C10: on two databases that differ only in [is_active] flags, login,
    bearer-token resolution and the "active user" dependency have the same
    outcome (same success or failure, same token, same user up to that
    flag): none of them consults [is_active].  In particular they behave
    after a self-deactivation as they did before it. *)
Theorem auth_ignores_is_active (pwd_context : CryptContext) (jose : Jose)
    (form_data : OAuth2PasswordRequestForm) (token : str) (d1 d2 : Db) :
  mask_db d1 = mask_db d2 ->
  mask_login (login pwd_context jose form_data d1)
  = mask_login (login pwd_context jose form_data d2)
  /\ mask_user_result (get_current_user jose token d1)
     = mask_user_result (get_current_user jose token d2)
  /\ mask_user_result (get_current_active_user (get_current_user jose token d1))
     = mask_user_result (get_current_active_user (get_current_user jose token d2))
  /\ (forall u, users_pk d1 -> In u (users d1) ->
        mask_login (login pwd_context jose form_data (fst (deactivate_account u d1)))
        = mask_login (login pwd_context jose form_data d1)
        /\ mask_user_result
             (get_current_active_user
                (get_current_user jose token (fst (deactivate_account u d1))))
           = mask_user_result (get_current_active_user (get_current_user jose token d1))).
Proof.
  intros H. split; [|split; [|split]].
  - now rewrite <- !login_mask, H.
  - now rewrite <- !get_current_user_mask, H.
  - now rewrite <- !get_current_active_user_mask, <- !get_current_user_mask, H.
  - intros u Hpk Hu. pose proof (deactivate_account_mask u d1 Hpk Hu) as Hd. split.
    + now rewrite <- !login_mask, Hd.
    + now rewrite <- !get_current_active_user_mask, <- !get_current_user_mask, Hd.
Qed.

Lemma auth_ignores_is_active_witness :
  mask_login (login demo_pwd_context demo_jose form_cook db_one_cook)
  = mask_login (login demo_pwd_context demo_jose form_cook db_cook_inactive)
  /\ is_ok (snd (login demo_pwd_context demo_jose form_cook db_cook_inactive)) = true
  /\ is_ok (get_current_active_user
              (get_current_user demo_jose "tok.1" db_cook_inactive)) = true.
Proof.
  split; [|split; vm_compute; reflexivity].
  apply (auth_ignores_is_active demo_pwd_context demo_jose form_cook "tok.1"
           db_one_cook db_cook_inactive).
  vm_compute. reflexivity.
Defined.

(** ** Registration ([app/routers/auth.py], [app/schemas/user.py]) *)

Lemma insert_user_defaults email hashed_password d d' u :
  insert_user email hashed_password d = Ok (d', u) ->
  User.first_name u = None /\ User.last_name u = None /\ User.language u = "ru"
  /\ users d' = (users d ++ [u])%list.
Proof.
  unfold insert_user. destruct (existsb _ _); [discriminate|].
  intros H. injection H as <- <-. repeat split.
Qed.

(** C9: the handler builds the account from the email and the password
    hash only.  Two payloads that agree on email and password are handled
    identically whatever their first name, last name and language, and a
    created account has no first name, no last name and the default
    language "ru". *)
Theorem register_ignores_optional_fields (pwd_context : CryptContext)
    (data1 data2 : UserCreate.t) (d : Db) :
  UserCreate.email data1 = UserCreate.email data2 ->
  UserCreate.password data1 = UserCreate.password data2 ->
  register pwd_context data1 d = register pwd_context data2 d
  /\ forall d' u headers,
       register pwd_context data1 d = (d', Ok (u, headers)) ->
       User.first_name u = None /\ User.last_name u = None
       /\ User.language u = "ru" /\ users d' = (users d ++ [u])%list.
Proof.
  intros He Hp. split.
  - unfold register. now rewrite He, Hp.
  - intros d' u headers. unfold register.
    destruct (first _ (users d)); [discriminate|].
    destruct (hash_password pwd_context (UserCreate.password data1)) as [hp|e];
      cbn [bind]; [|by_exn e].
    destruct (User_new (UserCreate.email data1) hp) as [[e h]|e];
      cbn [bind]; [|by_exn e].
    destruct (insert_user e h d) as [[d1 u1]|e1] eqn:Hi;
      cbn [bind reraise_http]; [|by_exn e1].
    intros H. injection H as <- <- _. exact (insert_user_defaults _ _ _ _ _ Hi).
Qed.

Lemma register_ignores_optional_fields_witness :
  register demo_pwd_context anna_full db_one_cook
  = register demo_pwd_context anna_bare db_one_cook
  /\ is_ok (snd (register demo_pwd_context anna_full db_one_cook)) = true
  /\ map User.first_name (users (fst (register demo_pwd_context anna_full db_one_cook)))
     = [None; None].
Proof.
  split; [|split; vm_compute; reflexivity].
  apply (register_ignores_optional_fields demo_pwd_context anna_full anna_bare
           db_one_cook); reflexivity.
Defined.

(** With [@field_validator] outermost the validator is registered, and a
    password without a digit is refused before the handler runs. *)
Lemma validator_outermost_rejects :
  Pydantic.field_validators "password" namespace_validator_outermost <> []
  /\ UserCreate.validate namespace_validator_outermost demo_email_str body_no_digit
     = Raise (RequestValidationError "password"
                "Пароль должен содержать хотя бы одну цифру")
  /\ UserCreate.validate namespace_validator_outermost demo_email_str body_no_letter
     = Raise (RequestValidationError "password"
                "Пароль должен содержать хотя бы одну букву").
Proof.
  split; [discriminate|]. split; vm_compute; reflexivity.
Qed.

(** C4 does not hold of the code: in [UserCreate] the proxy returned by
    [field_validator] is wrapped by [classmethod], so no validator is
    registered for [password]; validation is the same as with no validator,
    and a body whose password has no digit (or no letter) creates an
    account, although [validate_password] itself would refuse it. *)
Theorem password_validator_not_registered :
  Pydantic.field_validators "password" UserCreate.namespace = []
  /\ (forall email_str b,
        UserCreate.validate UserCreate.namespace email_str b
        = UserCreate.validate [] email_str b)
  /\ UserCreate.validate_password "abcdefgh"
     = Raise (ValueError "Пароль должен содержать хотя бы одну цифру")
  /\ is_ok (snd (post_register demo_pwd_context demo_email_str body_no_digit
                   db_one_cook)) = true
  /\ map User.email
       (users (fst (post_register demo_pwd_context demo_email_str body_no_digit
                      db_one_cook)))
     = ["cook@example.com"; "anna@example.com"]
  /\ is_ok (snd (post_register demo_pwd_context demo_email_str body_no_letter
                   db_one_cook)) = true.
Proof.
  split; [reflexivity|]. split; [reflexivity|].
  repeat split; vm_compute; reflexivity.
Qed.

(** ** Deleting a recipe ([app/routers/recipes.py]) *)

(** A recipe of the caller without a photo is deleted. *)
Lemma delete_recipe_without_photo (recipe_id : Z) (user : User.t) (w : World)
    (recipe : Recipe.t) :
  first (fun r => (Recipe.id r =? recipe_id) && owned_by (User.id user) (w_db w) r)
        (recipes (w_db w)) = Some recipe ->
  truthy_opt (Recipe.photo_url recipe) = false ->
  delete_recipe recipe_id user w
  = (mkWorld (delete_recipe_row recipe (w_db w))
             (fst (delete_tts_cache_for_recipe recipe_id (tts_cache w)))
             (background_tasks w),
     Ok "Рецепт успешно удалён").
Proof.
  intros Hf Hp. unfold delete_recipe. rewrite Hf.
  destruct (Recipe.photo_url recipe) as [url|]; cbn in Hp.
  - rewrite Hp. cbn [bind]. destruct (delete_tts_cache_for_recipe _ _).
    cbn. now rewrite app_nil_r.
  - cbn [bind]. destruct (delete_tts_cache_for_recipe _ _).
    cbn. now rewrite app_nil_r.
Qed.

(** A recipe that is not the caller's is answered 404, nothing changes. *)
Lemma delete_recipe_not_owned (recipe_id : Z) (user : User.t) (w : World) :
  first (fun r => (Recipe.id r =? recipe_id) && owned_by (User.id user) (w_db w) r)
        (recipes (w_db w)) = None ->
  delete_recipe recipe_id user w = (w, Raise (HTTPException 404 "Рецепт не найден" [])).
Proof. intros Hf. unfold delete_recipe. now rewrite Hf. Qed.

(** The purge looks for "recipe_<id>_step_" in names that are MD5 digests:
    the audio of the deleted recipe stays in the cache. *)
Example delete_recipe_keeps_audio :
  delete_recipe 8 cook kitchen
  = (mkWorld (mkDb [cook] [Dish.mk 1 "Borscht" first_course 1] [recipe_7] [] [] [] 2 2)
             [audio_7; audio_8] [],
     Ok "Рецепт успешно удалён").
Proof. vm_compute. reflexivity. Qed.

(** C5 does not hold of the code: for a recipe of the caller whose
    [photo_url] is set, the handler calls [.scalar()] on the str, the
    [AttributeError] is turned into a 500, and nothing is scheduled, purged
    or deleted. *)
Theorem delete_recipe_with_photo_fails (recipe_id : Z) (user : User.t) (w : World)
    (recipe : Recipe.t) (url : str) :
  first (fun r => (Recipe.id r =? recipe_id) && owned_by (User.id user) (w_db w) r)
        (recipes (w_db w)) = Some recipe ->
  Recipe.photo_url recipe = Some url ->
  truthy url = true ->
  delete_recipe recipe_id user w
  = (w, Raise (HTTPException 500 "Ошибка при удалении рецепта" [])).
Proof.
  intros Hf Hp Ht. unfold delete_recipe. rewrite Hf, Hp, Ht. reflexivity.
Qed.

Lemma delete_recipe_with_photo_fails_witness :
  delete_recipe 7 cook kitchen
  = (kitchen, Raise (HTTPException 500 "Ошибка при удалении рецепта" [])).
Proof.
  apply (delete_recipe_with_photo_fails 7 cook kitchen recipe_7 photo_7);
    reflexivity.
Defined.

(** ** Self-deactivation by an admin ([app/routers/users.py],
    [app/routers/admin.py]) *)

Lemma mem_Z_In (x : Z) (l : list Z) : mem_Z x l = true <-> In x l.
Proof.
  unfold mem_Z. rewrite existsb_exists. split.
  - intros [y [Hy He]]. apply Z.eqb_eq in He. now subst.
  - intros H. exists x. split; [exact H|apply Z.eqb_refl].
Qed.

(** A selection of rows keeps the primary keys distinct. *)
Lemma selected_pk (keep : User.t -> bool) (rows : list User.t) :
  NoDup (map User.id rows) -> NoDup (map User.id (filter keep rows)).
Proof.
  intros Hpk. induction rows as [|row rows IH]; cbn [map filter]; [constructor|].
  inversion Hpk as [|? ? Hfresh Hrest]; subst.
  destruct (keep row); cbn [map]; [constructor|]; auto.
  intros Hin. apply Hfresh.
  apply in_map_iff in Hin as [x [Hx Hin]]. apply in_map_iff.
  exists x. split; [exact Hx|]. apply filter_In in Hin. tauto.
Qed.

Lemma filter_partition_length {A} (p : A -> bool) (l : list A) :
  (List.length (filter p l) + List.length (filter (fun x => negb (p x)) l)
   = List.length l)%nat.
Proof.
  induction l as [|a l IH]; cbn [filter]; [reflexivity|].
  destruct (p a); cbn [negb List.length]; lia.
Qed.

Lemma filter_none {A} (p : A -> bool) (l : list A) :
  (forall x, In x l -> p x = false) -> filter p l = [].
Proof.
  induction l as [|a l IH]; cbn [filter]; intros H; [reflexivity|].
  rewrite (H a (or_introl eq_refl)). apply IH. intros x Hx. apply H. now right.
Qed.

(** Exactly one selected row carries a given key. *)
Lemma one_row_per_key (l : list User.t) (x : User.t) :
  NoDup (map User.id l) -> In x l ->
  List.length (filter (fun y => User.id y =? User.id x) l) = 1%nat.
Proof.
  induction l as [|a l IH]; cbn [map filter]; intros Hnd Hin; [contradiction|].
  inversion Hnd as [|? ? Hnotin Hnd']; subst.
  destruct Hin as [->|Hin].
  - rewrite Z.eqb_refl. cbn [List.length]. f_equal.
    rewrite filter_none; [reflexivity|].
    intros y Hy. apply Z.eqb_neq. intros He. apply Hnotin.
    rewrite <- He. now apply in_map.
  - destruct (User.id a =? User.id x) eqn:E.
    + exfalso. apply Z.eqb_eq in E. apply Hnotin. rewrite E. now apply in_map.
    + now apply IH.
Qed.

(** With distinct ids that all exist, the query returns one row per id. *)
Lemma selected_length (ids : list Z) (d : Db) :
  users_pk d -> NoDup ids ->
  (forall i, In i ids -> exists u, In u (users d) /\ User.id u = i) ->
  List.length (filter (fun u => mem_Z (User.id u) ids) (users d)) = List.length ids.
Proof.
  intros Hpk Hnd Hex. rewrite <- (length_map User.id).
  apply Permutation_length, NoDup_Permutation.
  - now apply selected_pk.
  - exact Hnd.
  - intros i. rewrite in_map_iff. split.
    + intros [u [<- Hu]]. apply filter_In in Hu as [_ Hu]. now apply mem_Z_In.
    + intros Hi. destruct (Hex i Hi) as [u [Hu <-]]. exists u. split; [reflexivity|].
      apply filter_In. split; [exact Hu|]. now apply mem_Z_In.
Qed.

Lemma bulk_step_deactivate (admin : User.t) (d : Db) (c : Z) (u : User.t) :
  bulk_step "deactivate" admin (d, c) u
  = if User.id u =? User.id admin then (d, c)
    else (update_user (User.set_is_active false u) d, c + 1).
Proof.
  unfold bulk_step.
  change (mem_str "deactivate" ["deactivate"]) with true.
  change (str_eqb "deactivate" "activate") with false.
  change (str_eqb "deactivate" "deactivate") with true.
  destruct (User.id u =? User.id admin); reflexivity.
Qed.

Lemma update_user_ids (x : User.t) (d : Db) :
  map User.id (users (update_user x d)) = map User.id (users d).
Proof.
  unfold update_user, set_users. cbn [users]. rewrite map_map. apply map_ext.
  intros v. destruct (User.id v =? User.id x) eqn:E; [|reflexivity].
  apply Z.eqb_eq in E. now rewrite E.
Qed.

Lemma set_users_same (d : Db) : set_users (users d) d = d.
Proof. now destruct d. Qed.

Lemma set_users_twice (l l' : list User.t) (d : Db) :
  set_users l (set_users l' d) = set_users l d.
Proof. reflexivity. Qed.

Lemma mem_Z_cons (x y : Z) (l : list Z) :
  mem_Z x (y :: l) = (x =? y) || mem_Z x l.
Proof. reflexivity. Qed.

(** The loop over the selected rows, for the action "deactivate". *)
Lemma bulk_deactivate_fold (admin : User.t) (us : list User.t) :
  forall (d : Db) (c : Z),
    users_pk d -> (forall u, In u us -> In u (users d)) -> NoDup (map User.id us) ->
    fold_left (bulk_step "deactivate" admin) us (d, c)
    = (set_users (deactivate_others (map User.id us) admin (users d)) d,
       c + Z.of_nat (List.length
                       (filter (fun u => negb (User.id u =? User.id admin)) us))).
Proof.
  induction us as [|u us IH]; intros d c Hpk Hin Hnd.
  - cbn [fold_left map filter List.length]. f_equal; [|lia].
    unfold deactivate_others. cbn [mem_Z existsb andb].
    rewrite map_id. symmetry. apply set_users_same.
  - cbn [fold_left map filter]. rewrite bulk_step_deactivate.
    inversion Hnd as [|? ? Hnotin Hnd']; subst.
    assert (Hin' : forall v, In v us -> In v (users d))
      by (intros v Hv; apply Hin; now right).
    destruct (User.id u =? User.id admin) eqn:E.
    + rewrite (IH d c Hpk Hin' Hnd'). cbn [negb]. f_equal. f_equal.
      unfold deactivate_others. apply map_ext. intros v. rewrite mem_Z_cons.
      destruct (User.id v =? User.id u) eqn:Ev; [|reflexivity].
      apply Z.eqb_eq in Ev. rewrite Ev, E. cbn [negb]. now rewrite !andb_false_r.
    + set (x := User.set_is_active false u).
      assert (Hx : User.id x = User.id u) by reflexivity.
      rewrite (IH (update_user x d) (c + 1)).
      * cbn [negb List.length]. f_equal; [|lia].
        unfold update_user at 2. rewrite set_users_twice. f_equal.
        unfold update_user, set_users. cbn [users].
        unfold deactivate_others. rewrite map_map. apply map_ext_in.
        intros v Hv. rewrite mem_Z_cons, Hx.
        destruct (User.id v =? User.id u) eqn:Ev.
        -- apply Z.eqb_eq in Ev.
           assert (v = u) by (apply (pk_unique (users d)); auto; apply Hin; now left).
           subst v. rewrite Hx, E. cbn [orb negb andb].
           destruct (mem_Z (User.id u) (map User.id us)) eqn:Em; [|reflexivity].
           apply mem_Z_In in Em. contradiction.
        -- reflexivity.
      * unfold users_pk. now rewrite update_user_ids.
      * intros v Hv. unfold update_user, set_users. cbn [users].
        apply in_map_iff. exists v. split; [|now apply Hin'].
        destruct (User.id v =? User.id x) eqn:Ev; [|reflexivity].
        exfalso. apply Z.eqb_eq in Ev. apply Hnotin. rewrite <- Hx, <- Ev.
        now apply in_map.
      * exact Hnd'.
Qed.

Lemma selected_ids (ids : list Z) (l : list User.t) (v : User.t) :
  In v l ->
  mem_Z (User.id v) (map User.id (filter (fun u => mem_Z (User.id u) ids) l))
  = mem_Z (User.id v) ids.
Proof.
  intros Hv. destruct (mem_Z (User.id v) ids) eqn:E.
  - apply mem_Z_In, in_map_iff. exists v. split; [reflexivity|].
    apply filter_In. now split.
  - destruct (mem_Z _ (map _ _)) eqn:E'; [|reflexivity].
    apply mem_Z_In, in_map_iff in E' as [u [Hu Hin]].
    apply filter_In in Hin as [_ Hm]. rewrite Hu in Hm. congruence.
Qed.

(** The query returns at most one row per distinct id of the batch: a
    batch that names an id twice never passes the comparison of lengths. *)
Lemma selected_fewer_than_listed (ids : list Z) (d : Db) :
  users_pk d -> ~ NoDup ids ->
  (List.length (filter (fun u => mem_Z (User.id u) ids) (users d))
   < List.length ids)%nat.
Proof.
  intros Hpk Hdup. rewrite <- (length_map User.id).
  set (sel := map User.id (filter (fun u => mem_Z (User.id u) ids) (users d))).
  assert (Hnd : NoDup sel) by now apply selected_pk.
  assert (Hincl : incl sel ids).
  { intros i Hi. apply in_map_iff in Hi as [u [<- Hu]].
    apply filter_In in Hu as [_ Hu]. now apply mem_Z_In. }
  destruct (Nat.lt_ge_cases (List.length sel) (List.length ids)) as [Hlt|Hge];
    [exact Hlt|].
  exfalso. apply Hdup. exact (NoDup_incl_NoDup Hnd Hge Hincl).
Qed.

(** C8: the bulk half of the claim fails on the code, by a slip of the
    code.  [bulk_user_action] decides that some user was not found by
    comparing the number of rows found with the length of the id list, so
    a batch that names an id twice is refused with 400 and the message
    that some users were not found, whatever the action and although
    every id may exist.  The batch [10; 2; 2] of admin 10 names only
    existing users and includes the admin's own id: it is refused as a
    whole, and user 2 stays active. *)
Theorem bulk_deactivate_duplicate_id_refused :
  (forall (admin_user : User.t) (ids : list Z) (action : str) (d : Db),
     users_pk d -> ~ NoDup ids ->
     bulk_user_action (UserBulkAction.mk ids action) admin_user d
     = (d, Raise (HTTPException 400 "Некоторые пользователи не найдены" [])))
  /\ In (User.id admin) [10; 2; 2]
  /\ (forall i, In i [10; 2; 2] -> exists u, In u (users db_staff) /\ User.id u = i)
  /\ bulk_user_action (UserBulkAction.mk [10; 2; 2] "deactivate") admin db_staff
     = (db_staff, Raise (HTTPException 400 "Некоторые пользователи не найдены" [])).
Proof.
  split; [|split; [now left|split; [|vm_compute; reflexivity]]].
  - intros admin_user ids action d Hpk Hdup. unfold bulk_user_action.
    cbn [UserBulkAction.user_ids UserBulkAction.action].
    pose proof (selected_fewer_than_listed ids d Hpk Hdup) as Hlt.
    destruct (Nat.eqb _ _) eqn:E; [|reflexivity].
    apply Nat.eqb_eq in E. lia.
  - intros i [<-|[<-|[<-|[]]]].
    + exists admin. split; [cbn; tauto|reflexivity].
    + exists guest. split; [cbn; tauto|reflexivity].
    + exists guest. split; [cbn; tauto|reflexivity].
Qed.

(** What the code does for an admin whose row is in the table: the toggle
    endpoint applied to the admin's own id is refused with 400 and changes
    nothing; a bulk "deactivate" over pairwise distinct ids that all exist
    and include the admin's own succeeds, deactivates every other listed
    user, leaves the admin's row and the unlisted rows as they were, and
    reports one less than the number of ids. *)
Theorem admin_self_deactivation (admin_user : User.t) (ids : list Z) (d : Db) :
  users_pk d ->
  In admin_user (users d) ->
  NoDup ids ->
  In (User.id admin_user) ids ->
  (forall i, In i ids -> exists u, In u (users d) /\ User.id u = i) ->
  toggle_user_active (User.id admin_user) admin_user d
  = (d, Raise (HTTPException 400 "Нельзя деактивировать собственный аккаунт" []))
  /\ bulk_user_action (UserBulkAction.mk ids "deactivate") admin_user d
     = (set_users (deactivate_others ids admin_user (users d)) d,
        Ok (mkBulkResult true
              ("Действие deactivate применено к "
               ++ str_of_int (Z.of_nat (List.length ids) - 1) ++ " пользователям")
              (Z.of_nat (List.length ids) - 1)))
  /\ In admin_user (deactivate_others ids admin_user (users d))
  /\ (forall u, In u (users d) -> In (User.id u) ids ->
        User.id u <> User.id admin_user ->
        In (User.set_is_active false u) (deactivate_others ids admin_user (users d)))
  /\ (forall u, In u (users d) -> ~ In (User.id u) ids ->
        In u (deactivate_others ids admin_user (users d))).
Proof.
  intros Hpk Hadm Hnd Hself Hex.
  split; [|split; [|split; [|split]]].
  - unfold toggle_user_active.
    destruct (first _ (users d)) as [u|] eqn:Hf.
    + apply find_some in Hf as [_ Hu]. now rewrite Hu.
    + exfalso. pose proof (find_none _ _ Hf admin_user Hadm) as Hn.
      cbn in Hn. now rewrite Z.eqb_refl in Hn.
  - unfold bulk_user_action. cbn [UserBulkAction.user_ids UserBulkAction.action].
    rewrite (selected_length ids d Hpk Hnd Hex), Nat.eqb_refl. cbn [negb].
    rewrite (bulk_deactivate_fold admin_user _ d 0 Hpk).
    + set (us := filter (fun u => mem_Z (User.id u) ids) (users d)).
      assert (Hcount :
        0 + Z.of_nat (List.length
              (filter (fun u => negb (User.id u =? User.id admin_user)) us))
        = Z.of_nat (List.length ids) - 1).
      { pose proof (filter_partition_length
                      (fun u => User.id u =? User.id admin_user) us) as Hp.
        rewrite (one_row_per_key us admin_user) in Hp.
        - pose proof (selected_length ids d Hpk Hnd Hex) as Hl. fold us in Hl. lia.
        - now apply selected_pk.
        - apply filter_In. split; [exact Hadm|]. now apply mem_Z_In. }
      rewrite Hcount. f_equal. f_equal.
      unfold deactivate_others. apply map_ext_in. intros v Hv.
      unfold us. now rewrite selected_ids.
    + intros u Hu. apply filter_In in Hu. tauto.
    + now apply selected_pk.
  - unfold deactivate_others. apply in_map_iff. exists admin_user.
    split; [|exact Hadm]. rewrite Z.eqb_refl. cbn [negb]. now rewrite andb_false_r.
  - intros u Hu Hin Hne. unfold deactivate_others. apply in_map_iff. exists u.
    split; [|exact Hu]. apply mem_Z_In in Hin. rewrite Hin.
    apply Z.eqb_neq in Hne. now rewrite Hne.
  - intros u Hu Hnot. unfold deactivate_others. apply in_map_iff. exists u.
    split; [|exact Hu].
    destruct (mem_Z (User.id u) ids) eqn:E; [|reflexivity].
    apply mem_Z_In in E. contradiction.
Qed.

Lemma admin_self_deactivation_witness :
  toggle_user_active 10 admin db_staff
  = (db_staff, Raise (HTTPException 400 "Нельзя деактивировать собственный аккаунт" []))
  /\ bulk_user_action (UserBulkAction.mk [10; 2] "deactivate") admin db_staff
     = (mkDb [cook; User.set_is_active false guest; admin] [] [] [] [] [] 11 1,
        Ok (mkBulkResult true "Действие deactivate применено к 1 пользователям" 1)).
Proof.
  assert (Hpk : users_pk db_staff).
  { unfold users_pk. cbn. repeat constructor; cbn; intuition discriminate. }
  assert (Hin : In admin (users db_staff)) by (cbn; tauto).
  assert (Hnd : NoDup [10; 2]) by (repeat constructor; cbn; intuition discriminate).
  assert (Hself : In (User.id admin) [10; 2]) by now left.
  assert (Hex : forall i, In i [10; 2] ->
                exists u, In u (users db_staff) /\ User.id u = i).
  { intros i [<-|[<-|[]]]; [exists admin|exists guest]; split; cbn; tauto. }
  destruct (admin_self_deactivation admin [10; 2] db_staff Hpk Hin Hnd Hself Hex)
    as [Ht [Hb _]].
  split; [exact Ht|exact Hb].
Defined.

(** ** Suggestions ([app/routers/suggestions.py]) *)

(** A name accepted by the [Ingredient] model is stored trimmed: this is
    where [names_trimmed] comes from. *)
Lemma Ingredient_validate_name_trimmed (name stored : str) :
  Ingredient_validate_name name = Ok stored -> strip stored = stored.
Proof.
  unfold Ingredient_validate_name.
  destruct (negb (truthy name) || negb (truthy (strip name))); [discriminate|].
  destruct (len name >? 100); [discriminate|].
  intros H. injection H as <-. apply strip_idempotent.
Qed.

Local Open Scope Q_scope.

Lemma Float_le_iff (x y : Float.float) : Float.le x y = true <-> x <= y.
Proof. apply Qle_bool_iff. Qed.

Lemma Float_ge_iff (x y : Float.float) : Float.ge x y = true <-> y <= x.
Proof. apply Qle_bool_iff. Qed.

Lemma Float_neg_le (a b : Float.float) :
  Float.neg a <= Float.neg b -> b <= a.
Proof.
  unfold Float.neg. rewrite !Qred_correct. intros H.
  apply Qopp_le_compat in H. now rewrite !Qopp_involutive in H.
Qed.

Section Sorting.
Context {A : Type} (key : A -> Float.float).

Lemma insert_by_perm (x : A) (l : list A) : Permutation (insert_by key x l) (x :: l).
Proof.
  induction l as [|y l IH]; cbn [insert_by]; [reflexivity|].
  destruct (Float.le (key x) (key y)); [reflexivity|].
  rewrite IH. apply perm_swap.
Qed.

Lemma sorted_perm (l : list A) : Permutation (sorted key l) l.
Proof.
  induction l as [|x l IH]; cbn [sorted fold_right]; [reflexivity|].
  fold (sorted key l). rewrite insert_by_perm. now constructor.
Qed.

Lemma insert_by_sorted (x : A) (l : list A) :
  StronglySorted (key_le key) l -> StronglySorted (key_le key) (insert_by key x l).
Proof.
  induction 1 as [|y l Hs IH Hall]; cbn [insert_by].
  - repeat constructor.
  - destruct (Float.le (key x) (key y)) eqn:E.
    + apply Float_le_iff in E. constructor; [now constructor|].
      constructor; [exact E|].
      apply Forall_forall. intros z Hz. unfold key_le.
      apply Qle_trans with (key y); [exact E|].
      rewrite Forall_forall in Hall. now apply Hall.
    + constructor; [exact IH|].
      assert (Hyx : key y <= key x).
      { destruct (Qlt_le_dec (key y) (key x)) as [Hlt|Hle].
        - now apply Qlt_le_weak.
        - apply Float_le_iff in Hle. congruence. }
      apply Forall_forall. intros z Hz.
      apply (Permutation_in _ (insert_by_perm x l)) in Hz.
      destruct Hz as [<-|Hz]; [exact Hyx|].
      rewrite Forall_forall in Hall. now apply Hall.
Qed.

Lemma sorted_sorted (l : list A) : StronglySorted (key_le key) (sorted key l).
Proof.
  induction l as [|x l IH]; cbn [sorted fold_right]; [constructor|].
  now apply insert_by_sorted.
Qed.

End Sorting.

Lemma Permutation_in_both {A} (l l' : list A) (x : A) :
  Permutation l l' -> In x l <-> In x l'.
Proof.
  intros H. split; [apply (Permutation_in _ H)|apply (Permutation_in _ (Permutation_sym H))].
Qed.

Lemma StronglySorted_weaken {A} (P Q : A -> A -> Prop) (l : list A) :
  (forall a b, P a b -> Q a b) -> StronglySorted P l -> StronglySorted Q l.
Proof.
  intros HPQ. induction 1 as [|x l Hs IH Hall]; constructor; [exact IH|].
  apply Forall_forall. intros y Hy. apply HPQ.
  rewrite Forall_forall in Hall. now apply Hall.
Qed.

Local Close Scope Q_scope.

(** *** Sets as the code builds them *)

Lemma mem_str_In (x : str) (xs : list str) : mem_str x xs = true <-> In x xs.
Proof.
  unfold mem_str. rewrite existsb_exists. split.
  - intros [y [Hy He]]. apply str_eqb_eq in He. now subst.
  - intros H. exists x. split; [exact H|apply str_eqb_refl].
Qed.

Lemma set_of_In (x : str) (xs : list str) : In x (set_of xs) <-> In x xs.
Proof.
  induction xs as [|y xs IH]; cbn [set_of]; [reflexivity|].
  destruct (mem_str y xs) eqn:E.
  - rewrite IH. split; [now right|]. intros [<-|H]; [|exact H].
    now apply mem_str_In.
  - cbn [In]. now rewrite IH.
Qed.

Lemma set_of_NoDup (xs : list str) : NoDup (set_of xs).
Proof.
  induction xs as [|y xs IH]; cbn [set_of]; [constructor|].
  destruct (mem_str y xs) eqn:E; [exact IH|].
  constructor; [|exact IH]. rewrite set_of_In. intros H.
  apply mem_str_In in H. congruence.
Qed.

Lemma set_inter_In (x : str) (a b : list str) :
  In x (set_inter a b) <-> In x a /\ In x b.
Proof. unfold set_inter. now rewrite filter_In, mem_str_In. Qed.

Lemma set_inter_NoDup (a b : list str) : NoDup a -> NoDup (set_inter a b).
Proof. apply NoDup_filter. Qed.

(** *** The joins *)

Lemma key_unique {A} (key : A -> Z) (l : list A) (a b : A) :
  NoDup (map key l) -> In a l -> In b l -> key a = key b -> a = b.
Proof.
  induction l as [|x l IH]; cbn [map]; intros Hnd Ha Hb He; [contradiction|].
  inversion Hnd as [|? ? Hnotin Hnd']; subst.
  destruct Ha as [<-|Ha], Hb as [<-|Hb]; auto.
  - exfalso. apply Hnotin. rewrite He. now apply in_map.
  - exfalso. apply Hnotin. rewrite <- He. now apply in_map.
Qed.

Lemma filter_keys_NoDup {A} (key : A -> Z) (keep : A -> bool) (rows : list A) :
  NoDup (map key rows) -> NoDup (map key (filter keep rows)).
Proof.
  intros Hpk. induction rows as [|row rows IH]; cbn [map filter]; [constructor|].
  inversion Hpk as [|? ? Hfresh Hrest]; subst.
  destruct (keep row); cbn [map]; [constructor|]; auto.
  intros Hin. apply Hfresh.
  apply in_map_iff in Hin as [x [Hx Hin]]. apply in_map_iff.
  exists x. split; [exact Hx|]. apply filter_In in Hin. tauto.
Qed.

(** The join with [Dish] selects the recipes that hang on a dish of the
    caller. *)
Lemma owned_by_owns (uid : Z) (d : Db) (r : Recipe.t) :
  owned_by uid d r = true <-> owns uid d r.
Proof.
  unfold owned_by, owns. rewrite existsb_exists. split.
  - intros [dish [Hin H]]. apply andb_prop in H as [H1 H2].
    apply Z.eqb_eq in H1, H2. now exists dish.
  - intros [dish (Hin & H1 & H2)]. exists dish. split; [exact Hin|].
    apply andb_true_intro. split; now apply Z.eqb_eq.
Qed.

Lemma user_recipes_owns (uid : Z) (d : Db) (r : Recipe.t) :
  In r (user_recipes uid d) <-> In r (recipes d) /\ owns uid d r.
Proof. unfold user_recipes. now rewrite filter_In, owned_by_owns. Qed.

(** The join with [Ingredient] yields the names of the ingredients the
    recipe is linked to. *)
Lemma recipe_ingredient_names_In (d : Db) (recipe_id : Z) (name : str) :
  ingredients_pk d ->
  In name (recipe_ingredient_names recipe_id d)
  <-> exists ri i,
        In ri (recipe_ingredients d)
        /\ RecipeIngredient.recipe_id ri = recipe_id
        /\ In i (ingredients d)
        /\ Ingredient.id i = RecipeIngredient.ingredient_id ri
        /\ name = Ingredient.name i.
Proof.
  intros Hpk. unfold recipe_ingredient_names. rewrite in_flat_map. split.
  - intros [ri [Hri H]].
    destruct (RecipeIngredient.recipe_id ri =? recipe_id) eqn:E; [|contradiction].
    apply Z.eqb_eq in E.
    destruct (first _ (ingredients d)) as [i|] eqn:Hf; [|contradiction].
    apply find_some in Hf as [Hi He]. apply Z.eqb_eq in He.
    destruct H as [<-|[]]. now exists ri, i.
  - intros [ri [i (Hri & E & Hi & He & ->)]]. exists ri. split; [exact Hri|].
    apply Z.eqb_eq in E. rewrite E.
    destruct (first _ (ingredients d)) as [j|] eqn:Hf.
    + apply find_some in Hf as [Hj Hje]. apply Z.eqb_eq in Hje.
      left. f_equal. apply (key_unique Ingredient.id (ingredients d)); auto.
      congruence.
    + exfalso. pose proof (find_none _ _ Hf i Hi) as Hn. cbn in Hn.
      apply Z.eqb_neq in Hn. contradiction.
Qed.

Lemma recipe_name_set_uses (d : Db) (r : Recipe.t) (n : str) :
  ingredients_pk d -> In n (recipe_name_set r d) <-> recipe_uses d r n.
Proof.
  intros Hpk. unfold recipe_name_set, recipe_uses. rewrite set_of_In, in_map_iff.
  split.
  - intros [name [<- H]]. apply (recipe_ingredient_names_In d _ _ Hpk) in H.
    destruct H as [ri [i (H1 & H2 & H3 & H4 & ->)]]. now exists ri, i.
  - intros [ri [i (H1 & H2 & H3 & H4 & ->)]]. exists (Ingredient.name i).
    split; [reflexivity|]. apply (recipe_ingredient_names_In d _ _ Hpk).
    now exists ri, i.
Qed.

Lemma input_name_set_offered (data : list str) (n : str) :
  In n (input_name_set data) <-> offered data n.
Proof.
  unfold input_name_set, offered. rewrite set_of_In, in_map_iff. split.
  - intros [i [<- H]]. now exists i.
  - intros [i [H ->]]. now exists i.
Qed.

(** *** The score *)

Lemma NoDup_same_length {A} (l l' : list A) :
  NoDup l -> NoDup l' -> (forall x, In x l <-> In x l') ->
  List.length l = List.length l'.
Proof. intros H H' Hiff. now apply Permutation_length, NoDup_Permutation. Qed.

(** The quotient the loop computes is the match of the recipe. *)
Lemma match_is_score (d : Db) (data : list str) (r : Recipe.t) :
  ingredients_pk d -> recipe_name_set r d <> [] ->
  match_is d data r (match_score data r d).
Proof.
  intros Hpk Hne.
  exists (recipe_name_set r d), (set_inter (recipe_name_set r d) (input_name_set data)).
  split; [apply set_of_NoDup|]. split; [intros n; now apply recipe_name_set_uses|].
  split; [apply set_inter_NoDup, set_of_NoDup|]. split; [|split; [exact Hne|reflexivity]].
  intros n. now rewrite set_inter_In, recipe_name_set_uses, input_name_set_offered.
Qed.

(** A recipe has one match at most, the one the loop computes. *)
Lemma match_is_unique (d : Db) (data : list str) (r : Recipe.t) (q : Float.float) :
  ingredients_pk d -> match_is d data r q ->
  recipe_name_set r d <> [] /\ q = match_score data r d.
Proof.
  intros Hpk (names & common & Hn & Hnames & Hc & Hcommon & Hne & ->).
  assert (Ln : List.length names = List.length (recipe_name_set r d)).
  { apply NoDup_same_length; [exact Hn|apply set_of_NoDup|].
    intros n. now rewrite Hnames, recipe_name_set_uses. }
  assert (Lc : List.length common
               = List.length (set_inter (recipe_name_set r d) (input_name_set data))).
  { apply NoDup_same_length; [exact Hc|apply set_inter_NoDup, set_of_NoDup|].
    intros n.
    now rewrite Hcommon, set_inter_In, recipe_name_set_uses, input_name_set_offered. }
  split.
  - intros E. rewrite E in Ln. destruct names; [now apply Hne|discriminate Ln].
  - unfold match_score, set_len. now rewrite Ln, Lc.
Qed.

Lemma kept_match (data : list str) (min_match : Float.float) (d : Db) (r : Recipe.t) :
  ingredients_pk d ->
  kept data min_match d r = true
  <-> exists q, match_is d data r q /\ (min_match <= q)%Q.
Proof.
  intros Hpk. unfold kept. split.
  - intros H. apply andb_prop in H as [Hne Hge]. exists (match_score data r d).
    split; [|now apply Float_ge_iff].
    apply match_is_score; [exact Hpk|]. intros E. rewrite E in Hne. discriminate Hne.
  - intros [q [Hm Hq]]. apply (match_is_unique d data r q Hpk) in Hm as [Hne ->].
    apply andb_true_intro. split; [|now apply Float_ge_iff].
    destruct (recipe_name_set r d); [contradiction|reflexivity].
Qed.

(** *** The loop *)

(** Under [names_trimmed] the names the loop lower-cases are trimmed. *)
Lemma recipe_names_trimmed (d : Db) (recipe_id : Z) (n : str) :
  names_trimmed d -> In n (recipe_ingredient_names recipe_id d) -> strip n = n.
Proof.
  intros Ht Hn. unfold recipe_ingredient_names in Hn.
  apply in_flat_map in Hn as [ri [_ Hn]].
  destruct (RecipeIngredient.recipe_id ri =? recipe_id); [|contradiction].
  destruct (first _ (ingredients d)) as [i|] eqn:Hf; [|contradiction].
  destruct Hn as [<-|[]]. apply find_some in Hf as [Hi _]. now apply Ht.
Qed.

Lemma loop_name_set (d : Db) (r : Recipe.t) :
  names_trimmed d ->
  set_of (map lower (recipe_ingredient_names (Recipe.id r) d)) = recipe_name_set r d.
Proof.
  intros Ht. unfold recipe_name_set. f_equal. apply map_ext_in.
  intros n Hn. unfold normal. now rewrite (recipe_names_trimmed d _ n Ht Hn).
Qed.

(** One iteration keeps the recipe exactly when [kept] says so. *)
Lemma suggest_step_kept (data : list str) (min_match : Float.float) (d : Db)
    (results : list RecipeSuggestion.t) (r : Recipe.t) :
  names_trimmed d ->
  suggest_step d (input_name_set data) min_match results r
  = if kept data min_match d r
    then (results ++ [suggestion r (match_score data r d)])%list
    else results.
Proof.
  intros Ht. unfold suggest_step, kept, suggestion, match_score.
  rewrite (loop_name_set d r Ht).
  destruct (recipe_name_set r d) as [|n ns]; [reflexivity|].
  cbn [List.length Nat.eqb negb andb].
  destruct (Float.ge _ min_match); reflexivity.
Qed.

Lemma suggest_loop_filter (data : list str) (min_match : Float.float) (d : Db)
    (rs : list Recipe.t) :
  names_trimmed d ->
  forall results,
    fold_left (suggest_step d (input_name_set data) min_match) rs results
    = (results ++ map (fun r => suggestion r (match_score data r d))
                      (filter (kept data min_match d) rs))%list.
Proof.
  intros Ht. induction rs as [|r rs IH]; intros results; cbn [fold_left filter map].
  - now rewrite app_nil_r.
  - rewrite (suggest_step_kept data min_match d results r Ht), IH.
    destruct (kept data min_match d r); [|reflexivity].
    cbn [map]. now rewrite <- app_assoc.
Qed.

(** The answer to a non-empty request, before any reading of it. *)
Lemma suggest_recipes_sorted_loop (data : list str) (min_match : Float.float)
    (user : User.t) (d : Db) :
  data <> [] -> names_trimmed d ->
  suggest_recipes data min_match user d
  = Ok (sorted (fun x => Float.neg (RecipeSuggestion.match_percent x))
          (map (fun r => suggestion r (match_score data r d))
               (filter (kept data min_match d) (user_recipes (User.id user) d)))).
Proof.
  intros Hne Ht. unfold suggest_recipes. destruct data as [|i data]; [contradiction|].
  cbn [reraise_http].
  change (set_of (map (fun i0 => lower (strip i0)) (i :: data)))
    with (input_name_set (i :: data)).
  now rewrite (suggest_loop_filter (i :: data) min_match d _ Ht []).
Qed.

Lemma db_pantry_wf :
  names_trimmed db_pantry /\ ingredients_pk db_pantry /\ recipes_pk db_pantry.
Proof.
  split; [|split].
  - intros i Hi. cbn in Hi.
    destruct Hi as [<-|[<-|[<-|[<-|[]]]]]; reflexivity.
  - unfold ingredients_pk. cbn. repeat constructor; cbn; intuition discriminate.
  - unfold recipes_pk. cbn. repeat constructor; cbn; intuition discriminate.
Qed.

Lemma db_pantry_ru_wf :
  names_trimmed db_pantry_ru /\ ingredients_pk db_pantry_ru /\ recipes_pk db_pantry_ru.
Proof.
  split; [|split].
  - intros i Hi. cbn [db_pantry_ru ingredients In] in Hi.
    destruct Hi as [<-|[<-|[<-|[<-|[]]]]]; vm_compute; reflexivity.
  - unfold ingredients_pk. cbn. repeat constructor; cbn; intuition discriminate.
  - unfold recipes_pk. cbn. repeat constructor; cbn; intuition discriminate.
Qed.

(** C3: for a non-empty input list and a database whose ingredient names
    are stored trimmed (ingredient ids being unique), the answer holds an
    entry for exactly the recipes that hang on a dish of the caller, have
    at least one ingredient, and whose match, the share
    [|recipe names ∩ offered names| / |recipe names|] of its distinct
    trimmed lower-cased ingredient names that the request offers, is at
    least [min_match]; the entry carries the match rounded to two
    decimals, no recipe is reported twice (recipe ids being unique), and
    the entries come in descending order of the match percentage.  An empty input list is
    answered by the empty list, and the default of [min_match] is 0.3.
    The recipe with salt, pepper and chicken against chicken and salt
    matches 2/3: it is reported, with 0.67, at 0.6 and left out at 0.7;
    the same holds of «Соль», «перец», «Курица» against « КУРИЦА» and
    «соль» followed by a no-break space. *)
Theorem suggest_recipes_spec :
  (forall (data : list str) (min_match : Float.float) (user : User.t) (d : Db),
     data <> [] -> names_trimmed d -> ingredients_pk d ->
     exists res,
       suggest_recipes data min_match user d = Ok res
       /\ (forall s, In s res
                     <-> exists r q,
                           In r (recipes d) /\ owns (User.id user) d r
                           /\ match_is d data r q /\ (min_match <= q)%Q
                           /\ s = suggestion r q)
       /\ (recipes_pk d -> NoDup (map RecipeSuggestion.id res))
       /\ StronglySorted
            (fun a b => (RecipeSuggestion.match_percent b
                         <= RecipeSuggestion.match_percent a)%Q) res)
  /\ (forall min_match user d, suggest_recipes [] min_match user d = Ok [])
  /\ (forall data user d,
        (1 <= List.length data <= 20)%nat ->
        post_suggest data None user d
        = suggest_recipes data (Float.of_Q (3 # 10)) user d)
  /\ match_is db_pantry on_hand roast (Float.div 2 3)
  /\ suggest_recipes on_hand (Float.of_Q (6 # 10)) cook db_pantry
     = Ok [suggestion roast (Float.of_Q (67 # 100))]
  /\ suggest_recipes on_hand (Float.of_Q (7 # 10)) cook db_pantry = Ok []
  /\ match_is db_pantry_ru on_hand_ru (Recipe.mk 9 60 "духовка" 4 None false 1)
       (Float.div 2 3)
  /\ suggest_recipes on_hand_ru (Float.of_Q (6 # 10)) cook db_pantry_ru
     = Ok [RecipeSuggestion.mk 9 60 "духовка" 4 None false (Float.of_Q (67 # 100))]
  /\ suggest_recipes on_hand_ru (Float.of_Q (7 # 10)) cook db_pantry_ru = Ok [].
Proof.
  split; [|split; [|split; [|split; [|split; [|split; [|split; [|split]]]]]]].
  - intros data min_match user d Hne Ht Hpk.
    rewrite (suggest_recipes_sorted_loop data min_match user d Hne Ht).
    eexists. split; [reflexivity|]. split; [|split].
    + intros s. rewrite (Permutation_in_both _ _ _ (sorted_perm _ _)), in_map_iff. split.
      * intros [r [<- Hr]]. apply filter_In in Hr as [Hr Hk].
        apply user_recipes_owns in Hr as [Hr Ho].
        exists r, (match_score data r d).
        apply andb_prop in Hk as [Hn Hge].
        split; [exact Hr|]. split; [exact Ho|]. split; [|split].
        -- apply match_is_score; [exact Hpk|].
           intros E. rewrite E in Hn. discriminate Hn.
        -- now apply Float_ge_iff.
        -- reflexivity.
      * intros [r [q (Hr & Ho & Hm & Hq & ->)]]. exists r.
        pose proof (match_is_unique d data r q Hpk Hm) as [_ Eq]. subst q.
        split; [reflexivity|]. apply filter_In. split.
        -- now apply user_recipes_owns.
        -- apply (kept_match data min_match d r Hpk). now exists (match_score data r d).
    + intros Hrpk.
      apply (Permutation_NoDup (Permutation_sym
               (Permutation_map RecipeSuggestion.id (sorted_perm _ _)))).
      rewrite map_map. cbn [suggestion RecipeSuggestion.id].
      apply filter_keys_NoDup. unfold user_recipes. now apply filter_keys_NoDup.
    + eapply StronglySorted_weaken; [|apply sorted_sorted].
      intros a b. unfold key_le. apply Float_neg_le.
  - reflexivity.
  - intros data user d [Hlo Hhi]. unfold post_suggest.
    apply Nat.leb_le in Hlo, Hhi. rewrite Hlo, Hhi. reflexivity.
  - replace (Float.div 2 3) with (match_score on_hand roast db_pantry)
      by (vm_compute; reflexivity).
    apply match_is_score; [apply db_pantry_wf|]. vm_compute. discriminate.
  - vm_compute. reflexivity.
  - vm_compute. reflexivity.
  - replace (Float.div 2 3)
      with (match_score on_hand_ru (Recipe.mk 9 60 "духовка" 4 None false 1) db_pantry_ru)
      by (vm_compute; reflexivity).
    apply match_is_score; [apply db_pantry_ru_wf|]. vm_compute. discriminate.
  - vm_compute. reflexivity.
  - vm_compute. reflexivity.
Qed.

Lemma suggest_recipes_spec_witness :
  exists res,
    suggest_recipes on_hand (Float.of_Q (3 # 10)) cook db_pantry = Ok res
    /\ (forall s, In s res
                  <-> exists r q,
                        In r (recipes db_pantry) /\ owns (User.id cook) db_pantry r
                        /\ match_is db_pantry on_hand r q
                        /\ (Float.of_Q (3 # 10) <= q)%Q
                        /\ s = suggestion r q)
    /\ (recipes_pk db_pantry -> NoDup (map RecipeSuggestion.id res))
    /\ StronglySorted
         (fun a b => (RecipeSuggestion.match_percent b
                      <= RecipeSuggestion.match_percent a)%Q) res.
Proof.
  apply (proj1 suggest_recipes_spec on_hand (Float.of_Q (3 # 10)) cook db_pantry).
  - discriminate.
  - apply db_pantry_wf.
  - apply db_pantry_wf.
Defined.
(* ------------------------------------------------------------------ *)
(** * Further properties of the code                                   *)
(* ------------------------------------------------------------------ *)

(** ** Emails and names ([app/models/user.py]) *)

Lemma email_re_match_nonempty (s : str) : email_re_match s = true -> truthy s = true.
Proof. destruct s; [discriminate|reflexivity]. Qed.

Lemma split_at_parts (ch : N) (s a b : str) :
  split_at ch s = Some (a, b) -> s = (a ++ ch :: b)%list.
Proof.
  revert a b. induction s as [|c s IH]; cbn [split_at]; intros a b H; [discriminate|].
  destruct (N.eqb_spec c ch) as [->|Hne].
  - now injection H as <- <-.
  - destruct (split_at ch s) as [[a' b']|]; [|discriminate].
    injection H as <- <-. cbn [app]. f_equal. now apply IH.
Qed.

Lemma split_at_more (ch : N) (s t a b : str) :
  split_at ch s = Some (a, b) -> split_at ch (s ++ t) = Some (a, (b ++ t)%list).
Proof.
  revert a b. induction s as [|c s IH]; cbn [split_at app]; intros a b H; [discriminate|].
  destruct (c =? ch)%N.
  - now injection H as <- <-.
  - destruct (split_at ch s) as [[a' b']|]; [|discriminate].
    injection H as <- <-. now rewrite (IH a' b' eq_refl).
Qed.

Lemma take_drop_while {A} (p : A -> bool) (l : list A) :
  (take_while p l ++ drop_while p l)%list = l.
Proof.
  induction l as [|x l IH]; cbn [take_while drop_while]; [reflexivity|].
  destruct (p x); cbn [app]; [now rewrite IH|reflexivity].
Qed.

Lemma take_while_all {A} (p : A -> bool) (l : list A) :
  forallb p (take_while p l) = true.
Proof.
  induction l as [|x l IH]; cbn [take_while]; [reflexivity|].
  destruct (p x) eqn:E; cbn [forallb]; [now rewrite E|reflexivity].
Qed.

Lemma all_char_forallb (p : N -> bool) (s : str) : all_char p s = forallb p s.
Proof. induction s as [|c s IH]; cbn [all_char forallb]; congruence. Qed.

Lemma ascii_alpha_ascii (c : N) : ascii_alpha c = true -> (c <? 128)%N = true.
Proof.
  unfold ascii_alpha, ascii_upper, ascii_lower. intros H. apply N.ltb_lt.
  apply orb_prop in H as [H|H]; apply andb_prop in H as [_ H]; apply N.leb_le in H; lia.
Qed.

Lemma ascii_alnum_ascii (c : N) : ascii_alnum c = true -> (c <? 128)%N = true.
Proof.
  unfold ascii_alnum. intros H. apply orb_prop in H as [H|H].
  - now apply ascii_alpha_ascii.
  - unfold ascii_digit in H. apply andb_prop in H as [_ H]. apply N.leb_le in H.
    apply N.ltb_lt. lia.
Qed.

Lemma local_char_ascii (c : N) : local_char c = true -> (c <? 128)%N = true.
Proof.
  unfold local_char. intros H. apply orb_prop in H as [H|H].
  - now apply ascii_alnum_ascii.
  - apply existsb_exists in H as [x [Hx He]]. apply N.eqb_eq in He. subst x.
    repeat (destruct Hx as [<-|Hx]; [reflexivity|]). destruct Hx.
Qed.

Lemma domain_char_ascii (c : N) : domain_char c = true -> (c <? 128)%N = true.
Proof.
  unfold domain_char. intros H. apply orb_prop in H as [H|H].
  - apply orb_prop in H as [H|H]; [now apply ascii_alnum_ascii|].
    apply N.eqb_eq in H. now subst c.
  - apply N.eqb_eq in H. now subst c.
Qed.

Lemma forallb_weaken {A} (p q : A -> bool) (l : list A) :
  (forall x, p x = true -> q x = true) -> forallb p l = true -> forallb q l = true.
Proof.
  intros H. rewrite !forallb_forall. auto.
Qed.

Lemma forallb_rev {A} (p : A -> bool) (l : list A) : forallb p (rev l) = forallb p l.
Proof.
  induction l as [|x l IH]; cbn [rev forallb]; [reflexivity|].
  rewrite forallb_app, IH. cbn [forallb]. rewrite andb_true_r. apply andb_comm.
Qed.

(** What the pattern matches once [$] is at the very end. *)
Lemma email_body_ascii (s : str) :
  match split_at (chr "@") s with
  | None => false
  | Some (local, rest) =>
      truthy local && all_char local_char local &&
      (2 <=? List.length (take_while ascii_alpha (rev rest)))%nat &&
      match drop_while ascii_alpha (rev rest) with
      | 46%N :: d => negb (Nat.eqb (List.length d) 0) && forallb domain_char d
      | _ => false
      end
  end = true ->
  forallb (fun c => (c <? 128)%N) s = true.
Proof.
  destruct (split_at (chr "@") s) as [[local rest]|] eqn:Hs; [|discriminate].
  intros H. apply split_at_parts in Hs. subst s.
  apply andb_prop in H as [H Hd]. apply andb_prop in H as [H _].
  apply andb_prop in H as [_ Hl]. rewrite all_char_forallb in Hl.
  rewrite forallb_app. cbn [forallb]. apply andb_true_intro. split.
  - revert Hl. apply forallb_weaken, local_char_ascii.
  - change ((chr "@" <? 128)%N) with true. cbn [andb].
    rewrite <- forallb_rev, <- (take_drop_while ascii_alpha (rev rest)), forallb_app.
    apply andb_true_intro. split.
    + generalize (take_while_all ascii_alpha (rev rest)).
      apply forallb_weaken, ascii_alpha_ascii.
    + destruct (drop_while ascii_alpha (rev rest)) as [|c d]; [discriminate|].
      destruct (N.eqb_spec c 46) as [->|Hc].
      * apply andb_prop in Hd as [_ Hd]. cbn [forallb].
        revert Hd. apply forallb_weaken, domain_char_ascii.
      * exfalso. destruct c as [|p]; [discriminate|].
        do 6 (destruct p as [p|p|]; try discriminate). now apply Hc.
Qed.

(** The pattern matches ASCII text only. *)
Lemma email_re_match_ascii (s : str) :
  email_re_match s = true -> forallb (fun c => (c <? 128)%N) s = true.
Proof.
  unfold email_re_match. destruct (rev s) as [|c r] eqn:Hr.
  - apply email_body_ascii.
  - destruct (N.eqb_spec c 10) as [->|Hc].
    + intros H. apply email_body_ascii in H.
      apply (f_equal (@rev N)) in Hr. rewrite rev_involutive in Hr. subst s.
      cbn [rev]. rewrite forallb_app, H. reflexivity.
    + replace (match c with
               | 10%N => rev r
               | _ => s
               end) with s; [apply email_body_ascii|].
      destruct c as [|p]; [reflexivity|].
      do 4 (destruct p as [p|p|]; try reflexivity). now contradiction Hc.
Qed.

Lemma lower_ascii_text (s : str) :
  forallb (fun c => (c <? 128)%N) (lower s) = true -> lower (lower s) = lower s.
Proof.
  intros H. unfold lower at 1. apply lower_ascii_fixed.
  pose proof (lower_no_upper [] s []) as Hn. fold (lower s) in Hn.
  rewrite forallb_forall in *. intros c Hc.
  now rewrite (H c Hc), (Hn c Hc).
Qed.

(** A stored email is in normal form: it is lower-case, has no surrounding
    blanks, is at most 255 characters long, and validating it again leaves
    it as it is. *)
Theorem stored_email_normal_form (email stored : str) :
  User_validate_email email = Ok stored ->
  lower stored = stored
  /\ strip stored = stored
  /\ len stored <= 255
  /\ User_validate_email stored = Ok stored.
Proof.
  unfold User_validate_email.
  destruct (negb (truthy email) || negb (truthy (strip email))); [discriminate|].
  destruct (len (lower (strip email)) >? 255) eqn:Hlen; [discriminate|].
  destruct (email_re_match (lower (strip email))) eqn:Hre; [|discriminate].
  cbn [negb]. intros H. injection H as <-.
  assert (Hl : lower (lower (strip email)) = lower (strip email))
    by (apply lower_ascii_text; now apply email_re_match_ascii).
  assert (Hs : strip (lower (strip email)) = lower (strip email))
    by now rewrite strip_lower, strip_idempotent.
  split; [exact Hl|]. split; [exact Hs|]. split.
  - destruct (Z.gtb_spec (len (lower (strip email))) 255); [discriminate|lia].
  - rewrite Hs, Hl, Hlen, Hre, (email_re_match_nonempty _ Hre). reflexivity.
Qed.

Lemma stored_email_normal_form_witness :
  User_validate_email "cook@example.com" = Ok "cook@example.com".
Proof.
  apply (stored_email_normal_form ("  Cook@Example.COM" ++ [160%N]) "cook@example.com").
  vm_compute. reflexivity.
Defined.

Lemma split_at_local (s : str) :
  email_re_match s = true ->
  exists a b, split_at (chr "@") s = Some (a, b) /\ truthy a = true.
Proof.
  unfold email_re_match.
  assert (Hbody : forall s0 t : str,
            match split_at (chr "@") s0 with
            | None => false
            | Some (local, rest) =>
                truthy local && all_char local_char local &&
                (2 <=? List.length (take_while ascii_alpha (rev rest)))%nat &&
                match drop_while ascii_alpha (rev rest) with
                | 46%N :: d => negb (Nat.eqb (List.length d) 0) && forallb domain_char d
                | _ => false
                end
            end = true ->
            exists a b, split_at (chr "@") (s0 ++ t) = Some (a, b) /\ truthy a = true).
  { intros s0 t. destruct (split_at (chr "@") s0) as [[a b]|] eqn:E; [|discriminate].
    intros H. exists a, (b ++ t)%list. split; [now apply split_at_more|].
    destruct (truthy a); [reflexivity|discriminate]. }
  destruct (rev s) as [|c r] eqn:Hr.
  - intros H. destruct (Hbody s [] H) as (a & b & Hab & Ha).
    rewrite app_nil_r in Hab. now exists a, b.
  - destruct (N.eqb_spec c 10) as [->|Hc].
    + intros H. destruct (Hbody (rev r) [10%N] H) as (a & b & Hab & Ha).
      apply (f_equal (@rev N)) in Hr. rewrite rev_involutive in Hr. subst s.
      now exists a, b.
    + replace (match c with
               | 10%N => rev r
               | _ => s
               end) with s.
      * intros H. destruct (Hbody s [] H) as (a & b & Hab & Ha).
        rewrite app_nil_r in Hab. now exists a, b.
      * destruct c as [|p]; [reflexivity|].
        do 4 (destruct p as [p|p|]; try reflexivity). now contradiction Hc.
Qed.

(** [full_name] is never empty for a user whose email has the shape the
    model accepts: with no usable first or last name it falls back to the
    non-empty local part of the address. *)
Theorem full_name_nonempty (u : User.t) :
  email_re_match (User.email u) = true -> truthy (User_full_name u) = true.
Proof.
  intros H. destruct (split_at_local _ H) as [a [b [Hs Ha]]].
  assert (Hb : truthy (before_at (User.email u)) = true)
    by (unfold before_at; now rewrite Hs).
  unfold User_full_name.
  destruct (User.first_name u) as [f|], (User.last_name u) as [l|];
    try exact Hb.
  - destruct (truthy f) eqn:Hf, (truthy l) eqn:Hl; cbn [andb]; auto.
    destruct f; [discriminate|reflexivity].
  - destruct (truthy f) eqn:Hf; auto.
  - destruct (truthy l) eqn:Hl; auto.
Qed.

Lemma full_name_nonempty_witness :
  truthy (User_full_name cook) = true /\ User_full_name cook = "cook".
Proof.
  split; [|reflexivity]. apply (full_name_nonempty cook). reflexivity.
Defined.

(** ** [str(n)] and [int(s)] *)

Lemma digits_val_uint (d : Decimal.uint) :
  forall acc, digits_val acc true (uint_str d) = Some (uint_val acc d).
Proof.
  induction d; intros acc; cbn [uint_str uint_val digits_val]; [reflexivity|..];
    match goal with
    | |- context [to_decimal (digit_char ?k)] =>
        change (to_decimal (digit_char k)) with (Some k)
    end; cbn [Z.of_N]; apply IHd.
Qed.

Lemma digits_val_uint_start (d : Decimal.uint) :
  d <> Decimal.Nil -> digits_val 0 false (uint_str d) = Some (uint_val 0 d).
Proof.
  destruct d; intros Hd; [contradiction|..]; cbn [uint_str uint_val digits_val];
    match goal with
    | |- context [to_decimal (digit_char ?k)] =>
        change (to_decimal (digit_char k)) with (Some k)
    end; cbn [Z.of_N]; apply digits_val_uint.
Qed.

Lemma uint_val_acc (d : Decimal.uint) :
  forall p, uint_val (Zpos p) d = Zpos (Pos.of_uint_acc d p).
Proof.
  induction d; intros p; cbn [uint_val Pos.of_uint_acc]; [reflexivity|..];
    match goal with
    | |- uint_val ?a _ = Zpos (Pos.of_uint_acc _ ?q) =>
        replace a with (Zpos q) by (rewrite ?Pos2Z.inj_add, ?Pos2Z.inj_mul; lia)
    end; apply IHd.
Qed.

Lemma uint_val_of_uint (d : Decimal.uint) : uint_val 0 d = Z.of_N (Pos.of_uint d).
Proof.
  induction d; cbn [uint_val Pos.of_uint]; [reflexivity|exact IHd|..];
    cbn [Z.mul Z.add Z.of_N]; apply uint_val_acc.
Qed.

Lemma uint_val_to_uint (p : positive) : uint_val 0 (Pos.to_uint p) = Zpos p.
Proof. now rewrite uint_val_of_uint, DecimalPos.Unsigned.of_to. Qed.

Lemma uint_str_head (u : Decimal.uint) :
  u <> Decimal.Nil -> exists c ds, uint_str u = c :: ds /\ (48 <= c <= 57)%N.
Proof.
  intros Hu. destruct (uint_str u) as [|c ds] eqn:E.
  - destruct u; [contradiction|..]; discriminate E.
  - exists c, ds. split; [reflexivity|]. apply (uint_str_digits u). rewrite E. now left.
Qed.

(** A literal that starts with a digit has no blanks in front and no sign. *)
Lemma int_of_str_unsigned (c : N) (ds : str) :
  (48 <= c <= 57)%N ->
  int_of_str (c :: ds)
  = match digits_val 0 false (c :: ds) with
    | Some n => Ok n
    | None => Raise (ValueError "invalid literal for int() with base 10")
    end.
Proof.
  intros Hc. unfold int_of_str. cbn [drop_while].
  assert (Hs : int_space c = false).
  { unfold int_space. replace (c <? 127)%N with true by (symmetry; apply N.ltb_lt; lia).
    replace (c <=? 13)%N with false by (symmetry; apply N.leb_gt; lia).
    replace (c =? 32)%N with false by (symmetry; apply N.eqb_neq; lia).
    now rewrite andb_false_r. }
  rewrite Hs.
  replace (c =? chr "-")%N with false
    by (symmetry; apply N.eqb_neq; change (chr "-") with 45%N; lia).
  replace (c =? chr "+")%N with false
    by (symmetry; apply N.eqb_neq; change (chr "+") with 43%N; lia).
  reflexivity.
Qed.

(** The decimal text of an integer reads back as that integer. *)
Lemma int_of_str_of_int (n : Z) : int_of_str (str_of_int n) = Ok n.
Proof.
  destruct n as [|p|p]; [reflexivity|..]; cbn [str_of_int];
    pose proof (DecimalPos.Unsigned.to_uint_nonnil p) as Hnil;
    pose proof (uint_val_to_uint p) as Hval;
    pose proof (digits_val_uint_start (Pos.to_uint p) Hnil) as Hd.
  - destruct (uint_str_head _ Hnil) as (c & ds & E & Hc).
    rewrite E in *. rewrite (int_of_str_unsigned c ds Hc), Hd, Hval. reflexivity.
  - unfold int_of_str. cbn [app drop_while].
    change (int_space 45) with false. cbn iota.
    change (45 =? chr "-")%N with true. cbn iota.
    rewrite Hd, Hval. reflexivity.
Qed.

(** *** The voice ids of [app/routers/tts.py] *)

Lemma str_of_int_injective (n m : Z) : str_of_int n = str_of_int m -> n = m.
Proof.
  intros H. apply (f_equal int_of_str) in H. rewrite !int_of_str_of_int in H.
  now injection H.
Qed.

Lemma split_at_first (c : N) (a a' b b' : str) :
  ~ In c a -> ~ In c a' -> (a ++ c :: b)%list = (a' ++ c :: b')%list -> a = a' /\ b = b'.
Proof.
  revert a'. induction a as [|x a IH]; intros [|y a'] Ha Ha' H; cbn [app] in H.
  - injection H as H. now split.
  - injection H as H _. exfalso. apply Ha'. now left.
  - injection H as H _. exfalso. apply Ha. now left.
  - injection H as -> H. destruct (IH a') as [-> ->]; auto.
    + intros Hin. apply Ha. now right.
    + intros Hin. apply Ha'. now right.
Qed.

Lemma str_of_int_no_underscore (n : Z) : ~ In 95%N (str_of_int n).
Proof. intros H. apply str_of_int_chars in H. lia. Qed.

Lemma voice_id_injective (r n r' n' : Z) :
  voice_id r n = voice_id r' n' -> r = r' /\ n = n'.
Proof.
  unfold voice_id. intros H. cbn [app] in H. injection H as H.
  apply split_at_first in H as [Hr Hn]; try apply str_of_int_no_underscore.
  injection Hn as Hn. split; now apply str_of_int_injective.
Qed.

(** The routers hash, for the audio of a step, the step's text joined
    with [recipe_{id}_step_{n}]: that key determines the text, the recipe
    and the step number, so two different steps never share a key. *)
Theorem step_audio_key_injective (text text' : str) (r n r' n' : Z) :
  text ++ "_" ++ voice_id r n = text' ++ "_" ++ voice_id r' n' ->
  text = text' /\ r = r' /\ n = n'.
Proof.
  intros H. apply joined_voice_id_injective in H as [Ht Hv].
  split; [exact Ht|]. now apply voice_id_injective.
Qed.

Lemma step_audio_key_injective_witness :
  "Chop_recipe" = "Chop_recipe" /\ 7 = 7 /\ 1 = 1.
Proof.
  apply (step_audio_key_injective "Chop_recipe" "Chop_recipe" 7 1 7 1). reflexivity.
Defined.

(** ** The [users] table ([app/routers/auth.py], [app/routers/users.py]) *)

Lemma first_app {A} (p : A -> bool) (l l' : list A) :
  first p (l ++ l')
  = match first p l with Some x => Some x | None => first p l' end.
Proof.
  unfold first. induction l as [|x l IH]; cbn [app find]; [reflexivity|].
  destruct (p x); [reflexivity|exact IH].
Qed.

Lemma first_none_existsb {A} (p : A -> bool) (l : list A) :
  existsb p l = false -> first p l = None.
Proof.
  unfold first. induction l as [|x l IH]; cbn [existsb find]; [reflexivity|].
  destruct (p x); [discriminate|exact IH].
Qed.

Lemma validate_email_again (email stored : str) :
  User_validate_email email = Ok stored -> User_validate_email stored = Ok stored.
Proof.
  unfold User_validate_email.
  destruct (negb (truthy email) || negb (truthy (strip email))); [discriminate|].
  destruct (len (lower (strip email)) >? 255) eqn:Hlen; [discriminate|].
  destruct (email_re_match (lower (strip email))) eqn:Hre; [|discriminate].
  cbn [negb]. intros H. injection H as <-.
  assert (Hs : strip (lower (strip email)) = lower (strip email))
    by now rewrite strip_lower, strip_idempotent.
  assert (Hl : lower (lower (strip email)) = lower (strip email))
    by (apply lower_ascii_text; now apply email_re_match_ascii).
  rewrite Hs, Hl, Hlen, Hre, (email_re_match_nonempty _ Hre).
  reflexivity.
Qed.

(** What a successful registration did, step by step. *)
Lemma register_ok (pwd_context : CryptContext) (data : UserCreate.t) (d d' : Db)
    (u : User.t) (headers : list (str * str)) :
  register pwd_context data d = (d', Ok (u, headers)) ->
  exists h,
    hash pwd_context (UserCreate.password data) = Ok h
    /\ truthy (UserCreate.password data) = true
    /\ truthy h = true
    /\ User_validate_email (UserCreate.email data) = Ok (User.email u)
    /\ existsb (fun v => str_eqb (User.email v) (User.email u)) (users d) = false
    /\ u = User.mk (users_id_seq d) (User.email u) h false true false false
                   None None None None "ru" "UTC"
    /\ d' = mkDb (users d ++ [u]) (dishes d) (recipes d) (ingredients d)
                 (recipe_ingredients d) (cooking_sessions d)
                 (users_id_seq d + 1) (dishes_id_seq d).
Proof.
  unfold register.
  destruct (first _ (users d)); [discriminate|].
  unfold hash_password.
  destruct (truthy (UserCreate.password data)) eqn:Hp; cbn [negb bind];
    [|discriminate].
  destruct (hash pwd_context (UserCreate.password data)) as [hp|e0] eqn:Hh;
    cbn [bind]; [|discriminate].
  unfold User_new.
  destruct (User_validate_email (UserCreate.email data)) as [e|e1] eqn:He;
    cbn [bind]; [|by_exn e1].
  unfold User_validate_hashed_password.
  destruct (truthy hp) eqn:Hhp; cbn [negb bind]; [|discriminate].
  destruct (len hp >? 1024); cbn [bind]; [discriminate|].
  unfold insert_user.
  destruct (existsb _ (users d)) eqn:Hex; cbn [bind reraise_http]; [discriminate|].
  intros H. injection H as <- <- _. exists hp. cbn [User.email].
  repeat split; auto.
Qed.

Lemma users_wf_after_update (u : User.t) (d : Db) :
  users_wf d ->
  (exists v, In v (users d) /\ User.id v = User.id u /\ User.email v = User.email u) ->
  users_wf (update_user u d).
Proof.
  intros [Hid [Hem [Hseq Hnorm]]] [v [Hv [Hvid Hvem]]].
  assert (Hids : map User.id (users (update_user u d)) = map User.id (users d))
    by apply update_user_ids.
  assert (Hems : map User.email (users (update_user u d)) = map User.email (users d)).
  { unfold update_user, set_users. cbn [users]. rewrite map_map. apply map_ext_in.
    intros w Hw. destruct (User.id w =? User.id u) eqn:E; [|reflexivity].
    apply Z.eqb_eq in E. rewrite <- Hvem. f_equal.
    apply (pk_unique (users d)); auto. congruence. }
  assert (Hrows : forall w, In w (users (update_user u d)) ->
                  w = u \/ In w (users d)).
  { intros w Hw. unfold update_user, set_users in Hw. cbn [users] in Hw.
    apply in_map_iff in Hw as [x [Hx Hin]].
    destruct (User.id x =? User.id u); [left|right]; congruence. }
  unfold users_wf. rewrite Hids, Hems. repeat split; auto.
  - intros w Hw. destruct (Hrows w Hw) as [->|Hin].
    + rewrite <- Hvid. now apply Hseq.
    + now apply Hseq.
  - intros w Hw. destruct (Hrows w Hw) as [->|Hin].
    + rewrite <- Hvem. now apply Hnorm.
    + now apply Hnorm.
Qed.

Lemma existsb_email_not_in (e : str) (l : list User.t) :
  existsb (fun v => str_eqb (User.email v) e) l = false ->
  ~ In e (map User.email l).
Proof.
  induction l as [|x l IH]; cbn [existsb map]; [tauto|].
  intros H. apply orb_false_iff in H as [Hx Hl]. intros [He|Hin].
  - rewrite He, str_eqb_refl in Hx. discriminate.
  - now apply IH.
Qed.

(** Registration keeps the table well formed, whatever the payload and
    whether it succeeds or not: ids and emails stay unique, every id is
    below the sequence, and every stored email is normalised. *)
Theorem register_preserves_users_wf (pwd_context : CryptContext)
    (data : UserCreate.t) (d : Db) :
  users_wf d -> users_wf (fst (register pwd_context data d)).
Proof.
  intros Hwf.
  destruct (register pwd_context data d) as [d' [[u headers]|e]] eqn:Hr.
  - destruct (register_ok _ _ _ _ _ _ Hr) as [h [_ [_ [_ [He [Hex [Hu Hd]]]]]]].
    destruct Hwf as [Hid [Hem [Hseq Hnorm]]]. cbn [fst]. subst d'.
    unfold users_wf. cbn [users users_id_seq]. rewrite !map_app. cbn [map].
    assert (Huid : User.id u = users_id_seq d) by (rewrite Hu; reflexivity).
    split; [|split; [|split]].
    + apply NoDup_app; auto.
      * repeat constructor. intros [].
      * intros a Ha [<-|[]]. apply in_map_iff in Ha as [v [Hv Hin]].
        pose proof (Hseq v Hin). lia.
    + apply NoDup_app; auto.
      * repeat constructor. intros [].
      * intros a Ha [<-|[]]. now apply (existsb_email_not_in _ _ Hex).
    + intros v Hv. apply in_app_or in Hv as [Hv|[<-|[]]].
      * pose proof (Hseq v Hv). lia.
      * lia.
    + intros v Hv. apply in_app_or in Hv as [Hv|[<-|[]]].
      * now apply Hnorm.
      * exact (validate_email_again _ _ He).
  - unfold register in Hr.
    destruct (reraise_http _ _ _ _) as [[d1 r1]|e1]; [discriminate|].
    injection Hr as <- _. exact Hwf.
Qed.

Lemma db_one_cook_wf : users_wf db_one_cook.
Proof.
  unfold users_wf. cbn [users db_one_cook users_id_seq map].
  repeat split; try (repeat constructor; cbn; tauto).
  - intros u [<-|[]]. reflexivity.
  - intros u [<-|[]]. reflexivity.
Qed.

Lemma register_preserves_users_wf_witness :
  users_wf (fst (register demo_pwd_context anna_full db_one_cook)).
Proof.
  apply (register_preserves_users_wf demo_pwd_context anna_full db_one_cook).
  exact db_one_cook_wf.
Defined.

(** A login with the right password, once the row is found. *)
Lemma login_accepts (pwd_context : CryptContext) (jose : Jose)
    (form_data : OAuth2PasswordRequestForm) (d : Db) (u : User.t) (tok : str) :
  first (fun v => str_eqb (User.email v) (strip (lower (username form_data))))
        (users d) = Some u ->
  verify_password pwd_context (password form_data) (User.hashed_password u) = Ok true ->
  create_access_token jose [("sub", JStr (str_of_int (User.id u)))] (Some (24 * 3600))
  = Ok tok ->
  let u' := User.update_last_login (utcnow jose) u in
  fst (fst (login pwd_context jose form_data d)) = update_user u' d
  /\ snd (login pwd_context jose form_data d)
     = Ok (mkTokenResponse tok "bearer" 86400 u').
Proof.
  intros Hf Hv Ht u'. unfold login. rewrite Hf, Hv.
  change (User.id (User.update_last_login (utcnow jose) u)) with (User.id u).
  rewrite Ht. split; reflexivity.
Qed.

Lemma login_rejects (pwd_context : CryptContext) (jose : Jose)
    (form_data : OAuth2PasswordRequestForm) (d : Db) (u : User.t) :
  first (fun v => str_eqb (User.email v) (strip (lower (username form_data))))
        (users d) = Some u ->
  verify_password pwd_context (password form_data) (User.hashed_password u) = Ok false ->
  login pwd_context jose form_data d
  = (d, [(INFO, "Login attempt for user: " ++ strip (lower (username form_data)));
         (WARNING, "Invalid password for user: " ++ strip (lower (username form_data)))],
     Raise invalid_credentials).
Proof. intros Hf Hv. unfold login. rewrite Hf, Hv. reflexivity. Qed.

(** Round trip: an account that was just registered can log in with the
    address and password of the payload, provided the hashing context
    verifies the hash it produced and the token can be signed; the login
    stamps [last_login] and answers a 24 hour bearer token. *)
Theorem register_then_login (pwd_context : CryptContext) (jose : Jose)
    (data : UserCreate.t) (d d' : Db) (u : User.t)
    (headers : list (str * str)) (tok : str) :
  register pwd_context data d = (d', Ok (u, headers)) ->
  verify pwd_context (UserCreate.password data) (User.hashed_password u) = Ok true ->
  create_access_token jose [("sub", JStr (str_of_int (User.id u)))] (Some (24 * 3600))
  = Ok tok ->
  snd (login pwd_context jose
         (mkForm (UserCreate.email data) (UserCreate.password data)) d')
  = Ok (mkTokenResponse tok "bearer" 86400
          (User.set_last_login (Some (utcnow jose)) u)).
Proof.
  intros Hr Hv Ht.
  destruct (register_ok _ _ _ _ _ _ Hr) as [h [_ [Hp [Hh [He [Hex [Hu Hd]]]]]]].
  assert (Hhash : User.hashed_password u = h) by (rewrite Hu; reflexivity).
  assert (Hname : strip (lower (UserCreate.email data)) = User.email u).
  { rewrite strip_lower. unfold User_validate_email in He.
    destruct (negb _ || negb _); [discriminate|].
    destruct (len _ >? 255); [discriminate|].
    destruct (negb (email_re_match _)); [discriminate|]. now injection He. }
  apply (login_accepts pwd_context jose _ d' u tok); cbn [username password].
  - rewrite Hname, Hd. cbn [users]. rewrite first_app.
    rewrite (first_none_existsb _ _ Hex). unfold first. cbn [find].
    now rewrite str_eqb_refl.
  - unfold verify_password. rewrite Hp, Hhash, Hh. cbn [negb orb].
    rewrite Hhash in Hv. now rewrite Hv.
  - exact Ht.
Qed.

Lemma register_then_login_witness :
  is_ok (snd (login demo_pwd_context demo_jose (mkForm "anna@example.com" "secret123")
                (fst (register demo_pwd_context anna_full db_one_cook)))) = true.
Proof.
  destruct (register demo_pwd_context anna_full db_one_cook) as [d' [[u headers]|e]] eqn:Hr;
    [|vm_compute in Hr; discriminate].
  cbn [fst].
  assert (Hu : u = User.mk 2 "anna@example.com" "$2b$12$secret123" false true false
                           false None None None None "ru" "UTC")
    by (vm_compute in Hr; congruence).
  assert (Hl := register_then_login demo_pwd_context demo_jose anna_full db_one_cook
                  d' u headers "tok.2" Hr).
  cbn [UserCreate.email UserCreate.password anna_full] in Hl.
  rewrite Hl; [reflexivity| |]; subst u; reflexivity.
Defined.

(** ** Tokens ([app/auth/jwt.py], [app/dependencies/auth.py]) *)

Lemma dict_get_set_same (k : str) (v : json) (c : claims) :
  dict_get k (dict_set k v c) = Some v.
Proof.
  induction c as [|[k' w] c IH]; cbn [dict_set dict_get].
  - now rewrite str_eqb_refl.
  - destruct (str_eqb k' k) eqn:E; cbn [dict_get]; rewrite E; auto.
Qed.

Lemma dict_get_set_other (k k' : str) (v : json) (c : claims) :
  k <> k' -> dict_get k (dict_set k' v c) = dict_get k c.
Proof.
  intros Hne. induction c as [|[k0 w] c IH]; cbn [dict_set dict_get].
  - destruct (str_eqb k' k) eqn:E; [|reflexivity].
    apply str_eqb_eq in E. congruence.
  - destruct (str_eqb k0 k') eqn:E; cbn [dict_get].
    + apply str_eqb_eq in E. subst k0.
      destruct (str_eqb k' k) eqn:E'; [|reflexivity].
      apply str_eqb_eq in E'. congruence.
    + destruct (str_eqb k0 k); auto.
Qed.

(** The claims signed by [create_access_token] are the caller's, with the
    three keys of the token set, and they are what a faithful codec reads
    back. *)
Lemma create_then_decode (jose : Jose) (data : claims)
    (expires_delta : option Z) (tok : str) :
  (forall c, jwt_encode jose c = Ok tok -> jwt_decode jose tok = Ok c) ->
  create_access_token jose data expires_delta = Ok tok ->
  decode_access_token jose tok
  = Ok (dict_set "type" (JStr "access")
          (dict_set "iat" (JInt (utcnow jose))
             (dict_set "exp" (JInt (utcnow jose + token_lifetime expires_delta)) data))).
Proof.
  intros Hrt Hc. unfold create_access_token in Hc.
  set (expire := match expires_delta with
                 | Some d => if d =? 0 then utcnow jose + JWT_ACCESS_TOKEN_EXPIRE_MINUTES * 60
                             else utcnow jose + d
                 | None => utcnow jose + JWT_ACCESS_TOKEN_EXPIRE_MINUTES * 60
                 end) in Hc.
  assert (Hexp : expire = utcnow jose + token_lifetime expires_delta).
  { unfold expire, token_lifetime. destruct expires_delta as [dl|]; [|reflexivity].
    destruct (dl =? 0); reflexivity. }
  rewrite Hexp in Hc. clear expire Hexp.
  set (to_encode := dict_set "type" (JStr "access") _) in *.
  assert (He : jwt_encode jose to_encode = Ok tok).
  { destruct (jwt_encode jose to_encode) as [t|e]; [exact Hc|].
    destruct e; discriminate. }
  unfold decode_access_token. rewrite (Hrt _ He).
  assert (Hty : dict_get "type" to_encode = Some (JStr "access"))
    by apply dict_get_set_same.
  rewrite Hty. reflexivity.
Qed.

(** Round trip: with a codec that decodes what it encoded, a token issued
    by [create_access_token] is accepted by [decode_access_token]; the
    claims read back have type "access" and the computed expiry whatever
    the caller supplied under those keys, and every other claim of the
    caller unchanged. *)
Theorem issued_token_decodes (jose : Jose) (data : claims)
    (expires_delta : option Z) (tok : str) :
  (forall c, jwt_encode jose c = Ok tok -> jwt_decode jose tok = Ok c) ->
  create_access_token jose data expires_delta = Ok tok ->
  exists payload,
    decode_access_token jose tok = Ok payload
    /\ dict_get "type" payload = Some (JStr "access")
    /\ dict_get "iat" payload = Some (JInt (utcnow jose))
    /\ dict_get "exp" payload = Some (JInt (utcnow jose + token_lifetime expires_delta))
    /\ (forall k, k <> "type" -> k <> "iat" -> k <> "exp" ->
          dict_get k payload = dict_get k data).
Proof.
  intros Hrt Hc. eexists. split; [exact (create_then_decode _ _ _ _ Hrt Hc)|].
  split; [apply dict_get_set_same|]. split; [|split].
  - rewrite dict_get_set_other by discriminate. apply dict_get_set_same.
  - rewrite !dict_get_set_other by discriminate. apply dict_get_set_same.
  - intros k H1 H2 H3. now rewrite !dict_get_set_other.
Qed.

Lemma json_eqb_eq (a b : json) : json_eqb a b = true -> a = b.
Proof.
  destruct a, b; cbn [json_eqb]; try discriminate; intros H.
  - reflexivity.
  - apply Bool.eqb_prop in H. now subst.
  - apply Z.eqb_eq in H. now subst.
  - apply str_eqb_eq in H. now subst.
Qed.

Lemma claims_eqb_eq (a b : claims) : claims_eqb a b = true -> a = b.
Proof.
  revert b. induction a as [|[k v] a IH]; intros [|[k' v'] b]; cbn [claims_eqb];
    try discriminate; [reflexivity|].
  intros H. apply andb_prop in H as [H Hab]. apply andb_prop in H as [Hk Hv].
  apply str_eqb_eq in Hk. apply json_eqb_eq in Hv. now rewrite Hk, Hv, (IH b Hab).
Qed.

Lemma single_token_round_trip (c0 c : claims) (now : Z) (tok : str) :
  jwt_encode (single_token_jose c0 now) c = Ok tok ->
  jwt_decode (single_token_jose c0 now) tok = Ok c.
Proof.
  cbn [jwt_encode jwt_decode single_token_jose].
  destruct (claims_eqb c c0) eqn:E; [|discriminate].
  intros H. injection H as <-. apply claims_eqb_eq in E. now subst.
Qed.

Lemma issued_token_decodes_witness :
  exists payload,
    decode_access_token cook_jose "h.c0.s" = Ok payload
    /\ dict_get "sub" payload = Some (JStr "1").
Proof.
  destruct (issued_token_decodes cook_jose [("sub", JStr "1")]
              (Some 86400) "h.c0.s") as [payload [Hd [_ [_ [_ Hk]]]]].
  - intros c. apply single_token_round_trip.
  - reflexivity.
  - exists payload. split; [exact Hd|]. rewrite Hk by discriminate. reflexivity.
Defined.

Lemma py_int_raises (v : json) (e : exn) :
  py_int v = Raise e -> exists m, e = ValueError m \/ e = TypeError m.
Proof.
  destruct v as [|b|n|s]; cbn [py_int]; try discriminate.
  - intros H. injection H as <-. eauto.
  - unfold int_of_str. destruct (drop_while int_space s) as [|c r].
    + intros H. injection H as <-. eauto.
    + destruct (c =? chr "-")%N; [|destruct (c =? chr "+")%N];
        match goal with
        | |- context [digits_val ?a ?b ?x] => destruct (digits_val a b x)
        end;
        intros H; try discriminate; injection H as <-; eauto.
Qed.

(** Token resolution is all-or-401: it returns a row of the [users] table
    whose id is the token's [sub] claim read as an integer, or it fails
    with status 401 and the bearer challenge, never with another status
    (the codec itself raising no HTTP exception). *)
Theorem get_current_user_row_or_401 (jose : Jose) (token : str) (d : Db) :
  (forall s dt h, jwt_decode jose token <> Raise (HTTPException s dt h)) ->
  match get_current_user jose token d with
  | Ok u =>
      In u (users d)
      /\ exists payload v,
           decode_access_token jose token = Ok payload
           /\ dict_get "sub" payload = Some v
           /\ py_int v = Ok (User.id u)
  | Raise e => exists detail, e = HTTPException 401 detail bearer
  end.
Proof.
  intros Hcodec. unfold get_current_user, decode_access_token.
  destruct (jwt_decode jose token) as [payload|e] eqn:Hd.
  - destruct (negb (is_access (dict_get "type" payload))); cbn [bind reraise_http];
      [eauto|].
    destruct (dict_get "sub" payload) as [v|] eqn:Hs; cbn [reraise_http]; [|eauto].
    destruct (negb (json_truthy (Some v))); cbn [reraise_http]; [eauto|].
    destruct (py_int v) as [uid|e] eqn:Hi; cbn [bind reraise_http].
    + destruct (first _ (users d)) as [u|] eqn:Hf; cbn [reraise_http]; [|eauto].
      apply find_some in Hf as [Hin Hid]. apply Z.eqb_eq in Hid.
      split; [exact Hin|]. exists payload, v. rewrite Hid. auto.
    + destruct (py_int_raises v e Hi) as [m [->| ->]]; cbn; eauto.
  - destruct e; cbn [bind reraise_http]; eauto.
    exfalso. exact (Hcodec _ _ _ eq_refl).
Qed.

Lemma get_current_user_row_or_401_witness :
  get_current_user demo_jose "tok.1" db_one_cook = Ok cook
  /\ get_current_user demo_jose "tok.99" db_one_cook
     = Raise (HTTPException 401 "Пользователь не найден" bearer)
  /\ get_current_user demo_jose "garbage" db_one_cook
     = Raise (HTTPException 401 "Invalid token" bearer).
Proof.
  assert (Hc : forall s dt h,
                 jwt_decode demo_jose "tok.1" <> Raise (HTTPException s dt h))
    by (intros s dt h; cbn; discriminate).
  pose proof (get_current_user_row_or_401 demo_jose "tok.1" db_one_cook Hc) as H1.
  repeat split; reflexivity.
Defined.

Lemma str_of_int_truthy (n : Z) : truthy (str_of_int n) = true.
Proof.
  pose proof (int_of_str_of_int n) as H.
  destruct (str_of_int n); [discriminate|reflexivity].
Qed.

Lemma first_after_update (u : User.t) (d : Db) :
  (exists v, In v (users d) /\ User.id v = User.id u) ->
  first (fun v => User.id v =? User.id u) (users (update_user u d)) = Some u.
Proof.
  intros [v [Hv Hid]]. unfold update_user, set_users, first. cbn [users].
  induction (users d) as [|x l IH]; [contradiction|]. cbn [map find].
  destruct (User.id x =? User.id u) eqn:E.
  - now rewrite Z.eqb_refl.
  - rewrite E. destruct Hv as [->|Hv]; [|now apply IH].
    apply Z.eqb_neq in E. contradiction.
Qed.

(** Round trip: the token of a successful login, presented as a bearer
    token on the database the login left, resolves to the very user the
    login returned, with [last_login] stamped ([str(user.id)] is read back
    by [int()]), provided the codec decodes what it encoded. *)
Theorem login_token_resolves (pwd_context : CryptContext) (jose : Jose)
    (form_data : OAuth2PasswordRequestForm) (d d' : Db) (lg : log) (t : TokenResponse) :
  (forall c, jwt_encode jose c = Ok (access_token t) ->
             jwt_decode jose (access_token t) = Ok c) ->
  login pwd_context jose form_data d = (d', lg, Ok t) ->
  get_current_user jose (access_token t) d' = Ok (user t)
  /\ get_current_active_user (get_current_user jose (access_token t) d') = Ok (user t)
  /\ User.last_login (user t) = Some (utcnow jose)
  /\ expires_in t = 86400.
Proof.
  intros Hrt Hl. unfold login in Hl.
  destruct (first _ (users d)) as [u|] eqn:Hf; [|discriminate].
  destruct (verify_password _ _ _) as [[|]|e]; [|discriminate|by_exn e].
  change (User.id (User.update_last_login (utcnow jose) u)) with (User.id u) in Hl.
  destruct (create_access_token jose _ _) as [tok|e] eqn:Hc; [|by_exn e].
  injection Hl as <- _ <-. cbn [access_token user expires_in] in *.
  pose proof (create_then_decode jose _ _ tok Hrt Hc) as Hd.
  set (payload := dict_set "type" (JStr "access") _) in Hd.
  assert (Hsub : dict_get "sub" payload = Some (JStr (str_of_int (User.id u)))).
  { unfold payload. rewrite !dict_get_set_other by discriminate. reflexivity. }
  assert (Hg : get_current_user jose tok
                 (update_user (User.update_last_login (utcnow jose) u) d)
               = Ok (User.update_last_login (utcnow jose) u)).
  { unfold get_current_user. rewrite Hd. cbn [bind]. rewrite Hsub.
    cbn [json_truthy py_int]. rewrite str_of_int_truthy, int_of_str_of_int.
    cbn [negb bind].
    assert (Hfa := first_after_update (User.update_last_login (utcnow jose) u) d).
    change (User.id (User.update_last_login (utcnow jose) u)) with (User.id u) in Hfa.
    rewrite Hfa; [reflexivity|].
    apply find_some in Hf as [Hin _]. exists u. split; [exact Hin|reflexivity]. }
  rewrite Hg. repeat split; reflexivity.
Qed.

Lemma login_token_resolves_witness :
  exists t,
    snd (login demo_pwd_context cook_jose form_cook db_one_cook) = Ok t
    /\ get_current_user cook_jose (access_token t)
         (fst (fst (login demo_pwd_context cook_jose form_cook db_one_cook)))
       = Ok (user t).
Proof.
  destruct (login demo_pwd_context cook_jose form_cook db_one_cook)
    as [[d' lg] [t|e]] eqn:Hl; [|vm_compute in Hl; discriminate].
  exists t. split; [reflexivity|]. cbn [fst].
  apply (login_token_resolves demo_pwd_context cook_jose form_cook db_one_cook d' lg t);
    [|exact Hl].
  intros c. apply single_token_round_trip.
Defined.

(** ** Changing the password ([app/routers/users.py]) *)

Lemma first_email_after_update (u u' : User.t) (d : Db) :
  NoDup (map User.id (users d)) -> NoDup (map User.email (users d)) ->
  In u (users d) -> User.id u' = User.id u -> User.email u' = User.email u ->
  first (fun v => str_eqb (User.email v) (User.email u)) (users (update_user u' d))
  = Some u'.
Proof.
  intros Hid Hem Hin Hi He. unfold update_user, set_users, first. cbn [users].
  induction (users d) as [|x l IH]; [contradiction|]. cbn [map find].
  cbn [map] in Hid, Hem.
  inversion Hid as [|? ? Hxid Hid']; inversion Hem as [|? ? Hxem Hem']; subst.
  destruct Hin as [->|Hin].
  - rewrite Hi, Z.eqb_refl, He, str_eqb_refl. reflexivity.
  - destruct (User.id x =? User.id u') eqn:E.
    + exfalso. apply Z.eqb_eq in E. apply Hxid. rewrite E, Hi. now apply in_map.
    + destruct (str_eqb (User.email x) (User.email u)) eqn:E'.
      * exfalso. apply str_eqb_eq in E'. apply Hxem. rewrite E'. now apply in_map.
      * now apply IH.
Qed.

(** After a successful password change the account's hash is the hash of
    the new password: a login under the account's address is decided by
    verifying against that hash alone, so it is accepted with a password
    that verifies against it and refused with 401 otherwise, whatever the
    old password was. *)
Theorem change_password_then_login (pwd_context : CryptContext) (jose : Jose)
    (password_data : PasswordChange.t) (current_user : User.t) (d d' : Db)
    (r : str * str) :
  users_wf d ->
  In current_user (users d) ->
  change_password pwd_context password_data current_user d = (d', Ok r) ->
  exists h,
    hash pwd_context (PasswordChange.new_password password_data) = Ok h
    /\ verify_password pwd_context (PasswordChange.current_password password_data)
         (User.hashed_password current_user) = Ok true
    /\ d' = update_user (User_set_hashed_password h current_user) d
    /\ forall form_data,
         strip (lower (username form_data)) = User.email current_user ->
         (verify_password pwd_context (password form_data) h = Ok false ->
          snd (login pwd_context jose form_data d') = Raise invalid_credentials)
         /\ (verify_password pwd_context (password form_data) h = Ok true ->
             forall tok,
               create_access_token jose
                 [("sub", JStr (str_of_int (User.id current_user)))] (Some (24 * 3600))
               = Ok tok ->
               exists u', snd (login pwd_context jose form_data d')
                          = Ok (mkTokenResponse tok "bearer" 86400 u')
                          /\ User.hashed_password u' = h).
Proof.
  intros [Hid [Hem _]] Hin Hc. unfold change_password in Hc.
  destruct (verify_password _ _ _) as [[|]|e] eqn:Hv; cbn [bind negb] in Hc;
    [|discriminate|by_exn e].
  unfold hash_password in Hc.
  destruct (negb (truthy (PasswordChange.new_password password_data)));
    [discriminate|].
  destruct (hash pwd_context _) as [h|e] eqn:Hh; cbn [bind] in Hc; [|discriminate].
  unfold User_validate_hashed_password in Hc.
  destruct (negb (truthy h)); [discriminate|].
  destruct (len h >? 1024); [discriminate|].
  cbn [bind reraise_http] in Hc. injection Hc as <- _.
  exists h. split; [reflexivity|]. split; [reflexivity|]. split; [reflexivity|].
  intros form_data Hname.
  set (u' := User_set_hashed_password h current_user).
  assert (Hf : first (fun v => str_eqb (User.email v) (strip (lower (username form_data))))
                     (users (update_user u' d)) = Some u').
  { rewrite Hname. now apply first_email_after_update. }
  split.
  - intros Hbad. now rewrite (login_rejects pwd_context jose form_data _ u' Hf Hbad).
  - intros Hgood tok Ht.
    destruct (login_accepts pwd_context jose form_data _ u' tok Hf Hgood Ht) as [_ Hl].
    eexists. split; [exact Hl|reflexivity].
Qed.

Lemma change_password_then_login_witness :
  snd (login demo_pwd_context demo_jose (mkForm "cook@example.com" "secret123")
         (fst (change_password demo_pwd_context
                 (PasswordChange.mk "secret123" "fresh4567") cook db_one_cook)))
  = Raise invalid_credentials
  /\ is_ok (snd (login demo_pwd_context demo_jose (mkForm "cook@example.com" "fresh4567")
                   (fst (change_password demo_pwd_context
                           (PasswordChange.mk "secret123" "fresh4567") cook
                           db_one_cook)))) = true.
Proof.
  destruct (change_password demo_pwd_context (PasswordChange.mk "secret123" "fresh4567")
              cook db_one_cook) as [d' [r|e]] eqn:Hc; [|vm_compute in Hc; discriminate].
  destruct (change_password_then_login demo_pwd_context demo_jose _ cook db_one_cook d' r
              db_one_cook_wf (or_introl eq_refl) Hc) as [h [Hh [_ [_ Hlogin]]]].
  cbn in Hh. injection Hh as <-. cbn [fst]. split.
  - apply (Hlogin (mkForm "cook@example.com" "secret123")); reflexivity.
  - destruct (proj2 (Hlogin (mkForm "cook@example.com" "fresh4567") eq_refl)
                eq_refl "tok.1" eq_refl) as [u' [Hl _]].
    now rewrite Hl.
Defined.

(** ** Admin operations on accounts ([app/routers/users.py],
    [app/routers/admin.py]) *)

Lemma update_user_others (u1 v : User.t) (d : Db) :
  In v (users d) -> User.id v <> User.id u1 -> In v (users (update_user u1 d)).
Proof.
  intros Hv Hne. unfold update_user, set_users. cbn [users]. apply in_map_iff.
  exists v. split; [|exact Hv]. apply Z.eqb_neq in Hne. now rewrite Hne.
Qed.

(** Each of the two admin toggles flips one flag of one row.  For a user
    that exists (another one than the admin, for the activity toggle) the
    answer and the table carry the row with that flag negated, and of the
    columns followed here no other: the other flag and the credentials
    stay; no row is added or removed, and every other row stays as it is.
    A second toggle gives the flag its first value back.  For a user that
    does not exist both answer 404 and change nothing. *)
Theorem toggles_flip_one_flag (user_id : Z) (admin_user : User.t) (d : Db) :
  (first (fun v => User.id v =? user_id) (users d) = None ->
   toggle_user_active user_id admin_user d
   = (d, Raise (HTTPException 404 "Пользователь не найден" []))
   /\ toggle_user_premium user_id admin_user d
      = (d, Raise (HTTPException 404 "Пользователь не найден" [])))
  /\ (forall u,
        first (fun v => User.id v =? user_id) (users d) = Some u ->
        (user_id <> User.id admin_user ->
         exists d1 u1 d2 m2 u2,
           toggle_user_active user_id admin_user d
           = (d1, Ok ("Пользователь " ++ (if User.is_active u then "деактивирован"
                                          else "активирован"), u1))
           /\ User.is_active u1 = negb (User.is_active u)
           /\ User.is_premium u1 = User.is_premium u
           /\ credentials u1 = credentials u
           /\ In u1 (users d1)
           /\ map User.id (users d1) = map User.id (users d)
           /\ (forall v, In v (users d) -> User.id v <> user_id -> In v (users d1))
           /\ toggle_user_active user_id admin_user d1 = (d2, Ok (m2, u2))
           /\ User.is_active u2 = User.is_active u)
        /\ exists d1 u1 d2 m2 u2,
             toggle_user_premium user_id admin_user d
             = (d1, Ok ("Премиум статус " ++ (if User.is_premium u then "деактивирован"
                                              else "активирован"), u1))
             /\ User.is_premium u1 = negb (User.is_premium u)
             /\ User.is_active u1 = User.is_active u
             /\ credentials u1 = credentials u
             /\ In u1 (users d1)
             /\ map User.id (users d1) = map User.id (users d)
             /\ (forall v, In v (users d) -> User.id v <> user_id -> In v (users d1))
             /\ toggle_user_premium user_id admin_user d1 = (d2, Ok (m2, u2))
             /\ User.is_premium u2 = User.is_premium u).
Proof.
  split.
  - intros Hf. unfold toggle_user_active, toggle_user_premium. now rewrite Hf.
  - intros u Hf. pose proof (find_some _ _ Hf) as [Hin Hid].
    apply Z.eqb_eq in Hid. subst user_id. split.
    + intros Hne. apply Z.eqb_neq in Hne.
      set (u1 := User.set_is_active (negb (User.is_active u)) u).
      assert (Hfa : first (fun v => User.id v =? User.id u) (users (update_user u1 d))
                    = Some u1).
      { apply (first_after_update u1 d). exists u. split; [exact Hin|reflexivity]. }
      exists (update_user u1 d), u1. do 3 eexists.
      split; [|split; [|split; [|split; [|split; [|split; [|split; [|split]]]]]]].
      * unfold toggle_user_active. rewrite Hf, Hne. fold u1.
        unfold u1. cbn [User.is_active User.set_is_active].
        destruct (User.is_active u); reflexivity.
      * reflexivity.
      * reflexivity.
      * reflexivity.
      * apply find_some in Hfa. tauto.
      * apply update_user_ids.
      * intros v Hv Hvid. now apply update_user_others.
      * unfold toggle_user_active. rewrite Hfa.
        change (User.id u1) with (User.id u). rewrite Hne. reflexivity.
      * cbn [User.is_active User.set_is_active u1]. apply negb_involutive.
    + set (u1 := User.set_is_premium (negb (User.is_premium u)) u).
      assert (Hfa : first (fun v => User.id v =? User.id u) (users (update_user u1 d))
                    = Some u1).
      { apply (first_after_update u1 d). exists u. split; [exact Hin|reflexivity]. }
      exists (update_user u1 d), u1. do 3 eexists.
      split; [|split; [|split; [|split; [|split; [|split; [|split; [|split]]]]]]].
      * unfold toggle_user_premium. rewrite Hf. fold u1.
        unfold u1. cbn [User.is_premium User.set_is_premium].
        destruct (User.is_premium u); reflexivity.
      * reflexivity.
      * reflexivity.
      * reflexivity.
      * apply find_some in Hfa. tauto.
      * apply update_user_ids.
      * intros v Hv Hvid. now apply update_user_others.
      * unfold toggle_user_premium. rewrite Hfa. reflexivity.
      * cbn [User.is_premium User.set_is_premium u1]. apply negb_involutive.
Qed.

Lemma db_staff_pk : users_pk db_staff.
Proof. unfold users_pk. cbn. repeat constructor; cbn; intuition discriminate. Qed.

Lemma toggles_flip_one_flag_witness :
  exists d1 u1,
    fst (toggle_user_active 2 admin db_staff) = d1
    /\ In u1 (users d1) /\ User.id u1 = 2 /\ User.is_active u1 = false.
Proof.
  destruct (proj2 (toggles_flip_one_flag 2 admin db_staff) guest eq_refl) as [Ha _].
  destruct Ha as (d1 & u1 & d2 & m2 & u2 & Ht & Hact & _ & Hc & Hin & _);
    [discriminate|].
  exists d1, u1. rewrite Ht. split; [reflexivity|]. split; [exact Hin|].
  split; [|exact Hact]. unfold credentials in Hc. now injection Hc.
Defined.

Lemma credentials_after_update (u : User.t) (d : Db) :
  (forall x, In x (users d) -> User.id x = User.id u -> credentials x = credentials u) ->
  map credentials (users (update_user u d)) = map credentials (users d).
Proof.
  intros H. unfold update_user, set_users. cbn [users]. rewrite map_map.
  apply map_ext_in. intros x Hx. destruct (User.id x =? User.id u) eqn:E; [|reflexivity].
  apply Z.eqb_eq in E. symmetry. now apply H.
Qed.

(** The loop of a bulk action keeps the credentials of every row and
    counts at most one update per selected user. *)
Lemma bulk_fold_safe (action : str) (admin_user : User.t) (d0 : Db)
    (us : list User.t) :
  users_pk d0 -> (forall u, In u us -> In u (users d0)) ->
  forall d c,
    map credentials (users d) = map credentials (users d0) ->
    let r := fold_left (bulk_step action admin_user) us (d, c) in
    map credentials (users (fst r)) = map credentials (users d0)
    /\ c <= snd r <= c + Z.of_nat (List.length us)
    /\ dishes (fst r) = dishes d /\ users_id_seq (fst r) = users_id_seq d.
Proof.
  intros Hpk. induction us as [|u us IH]; intros Hin d c Hcred; cbn [fold_left].
  - cbn [fst snd List.length]. repeat split; auto; lia.
  - assert (Hu : In u (users d0)) by (apply Hin; now left).
    assert (Hin' : forall v, In v us -> In v (users d0))
      by (intros v Hv; apply Hin; now right).
    assert (Hrow : forall u', User.id u' = User.id u -> credentials u' = credentials u ->
                   map credentials (users (update_user u' d))
                   = map credentials (users d0)).
    { intros u' Hid Hc. rewrite credentials_after_update; [exact Hcred|].
      intros x Hx Hxid. rewrite Hc.
      assert (Hx' : In (credentials x) (map credentials (users d0)))
        by (rewrite <- Hcred; now apply in_map).
      apply in_map_iff in Hx' as [x0 [Hx0 Hin0]].
      rewrite <- Hx0. f_equal. apply (pk_unique (users d0)); auto.
      assert (User.id x0 = User.id x) by (unfold credentials in Hx0; congruence).
      congruence. }
    assert (Hstep :
      map credentials (users (fst (bulk_step action admin_user (d, c) u)))
      = map credentials (users d0)
      /\ c <= snd (bulk_step action admin_user (d, c) u) <= c + 1
      /\ dishes (fst (bulk_step action admin_user (d, c) u)) = dishes d
      /\ users_id_seq (fst (bulk_step action admin_user (d, c) u)) = users_id_seq d).
    { unfold bulk_step.
      destruct (mem_str action ["deactivate"] && (User.id u =? User.id admin_user));
        [cbn [fst snd]; repeat split; auto; lia|].
      repeat match goal with
             | |- context [if str_eqb action ?s then _ else _] =>
                 destruct (str_eqb action s)
             end;
        cbn [fst snd]; repeat split; auto; try lia; apply Hrow; reflexivity. }
    destruct (bulk_step action admin_user (d, c) u) as [d1 c1].
    cbn [fst snd] in Hstep. destruct Hstep as [Hc1 [Hb [Hd Hs]]].
    destruct (IH Hin' d1 c1 Hc1) as [Hc2 [Hb2 [Hd2 Hs2]]].
    cbv zeta. split; [exact Hc2|]. cbn [List.length].
    split; [lia|]. split; congruence.
Qed.

(** The query finds fewer rows than ids are listed as soon as one listed
    id has no row. *)
Lemma selected_fewer_if_missing (ids : list Z) (d : Db) (id : Z) :
  users_pk d -> In id ids -> (forall u, In u (users d) -> User.id u <> id) ->
  (List.length (filter (fun u => mem_Z (User.id u) ids) (users d))
   < List.length ids)%nat.
Proof.
  intros Hpk Hid Hnone. rewrite <- (length_map User.id).
  set (sel := map User.id (filter (fun u => mem_Z (User.id u) ids) (users d))).
  assert (Hnd : NoDup (id :: sel)).
  { constructor; [|now apply selected_pk].
    intros Hin. apply in_map_iff in Hin as [u [Hu Hin]].
    apply filter_In in Hin as [Hin _]. exact (Hnone u Hin Hu). }
  assert (Hincl : incl (id :: sel) ids).
  { intros i [<-|Hi]; [exact Hid|]. apply in_map_iff in Hi as [u [<- Hu]].
    apply filter_In in Hu as [_ Hu]. now apply mem_Z_In. }
  pose proof (NoDup_incl_length Hnd Hincl) as Hle. cbn [List.length] in Hle. lia.
Qed.

(** A bulk action is all-or-nothing on lookup and harmless to credentials.
    If some listed id has no row the request is refused with 400 and
    nothing changes, and 400 is the only refusal there is.  Otherwise no
    row is added or removed, no id, email, password hash or admin flag
    changes whatever the action, and the reported count is between 0 and
    the number of ids. *)
Theorem bulk_user_action_safe (action_data : UserBulkAction.t) (admin_user : User.t)
    (d : Db) :
  users_pk d ->
  ((exists id, In id (UserBulkAction.user_ids action_data)
               /\ forall u, In u (users d) -> User.id u <> id) ->
   bulk_user_action action_data admin_user d
   = (d, Raise (HTTPException 400 "Некоторые пользователи не найдены" [])))
  /\ map credentials (users (fst (bulk_user_action action_data admin_user d)))
     = map credentials (users d)
  /\ match snd (bulk_user_action action_data admin_user d) with
     | Ok res =>
         0 <= updated_count res
              <= Z.of_nat (List.length (UserBulkAction.user_ids action_data))
     | Raise e =>
         e = HTTPException 400 "Некоторые пользователи не найдены" []
         /\ fst (bulk_user_action action_data admin_user d) = d
     end.
Proof.
  intros Hpk. unfold bulk_user_action.
  set (ids := UserBulkAction.user_ids action_data).
  set (us := filter (fun u => mem_Z (User.id u) ids) (users d)).
  split.
  - intros [id [Hid Hnone]].
    pose proof (selected_fewer_if_missing ids d id Hpk Hid Hnone) as Hlt. fold us in Hlt.
    destruct (Nat.eqb (List.length us) (List.length ids)) eqn:E; [|reflexivity].
    apply Nat.eqb_eq in E. lia.
  - destruct (Nat.eqb (List.length us) (List.length ids)) eqn:E; cbn [negb].
    + apply Nat.eqb_eq in E.
      destruct (bulk_fold_safe (UserBulkAction.action action_data) admin_user d us Hpk)
        with (d := d) (c := 0) as [Hc [Hb _]]; [| reflexivity |].
      * intros u Hu. apply filter_In in Hu. tauto.
      * destruct (fold_left _ us (d, 0)) as [d' n]. cbn [fst snd] in *.
        split; [exact Hc|]. cbn [updated_count]. lia.
    + cbn [fst snd]. auto.
Qed.

Lemma bulk_user_action_safe_witness :
  map credentials
    (users (fst (bulk_user_action (UserBulkAction.mk [1; 2; 10] "premium_on") admin
                   db_staff)))
  = map credentials (users db_staff)
  /\ bulk_user_action (UserBulkAction.mk [1; 7] "activate") admin db_staff
     = (db_staff, Raise (HTTPException 400 "Некоторые пользователи не найдены" [])).
Proof.
  pose proof (bulk_user_action_safe (UserBulkAction.mk [1; 2; 10] "premium_on") admin
                db_staff db_staff_pk) as [_ [H1 _]].
  pose proof (bulk_user_action_safe (UserBulkAction.mk [1; 7] "activate") admin
                db_staff db_staff_pk) as [H2 _].
  split; [exact H1|]. apply H2. exists 7. split; [cbn; tauto|].
  intros u [<-|[<-|[<-|[]]]]; discriminate.
Defined.
(** ** Dishes ([app/routers/dishes.py]) *)

(** Round trip and isolation: a dish that was just created is the last
    entry of its owner's unfiltered listing, which is otherwise unchanged;
    whatever the filters, a listing only ever shows the caller's own
    dishes, and the listing of any other user is not affected by the
    creation. *)
Theorem create_dish_then_list (ilike : str -> str -> bool)
    (data : DishCreate.t) (user : User.t) (d d' : Db) (dish : Dish.t) :
  create_dish data user d = (d', Ok dish) ->
  get_dishes ilike None None user d' = (get_dishes ilike None None user d ++ [dish])%list
  /\ (forall category search other x,
        In x (get_dishes ilike category search other d') ->
        Dish.user_id x = User.id other)
  /\ (forall category search other,
        User.id other <> User.id user ->
        get_dishes ilike category search other d'
        = get_dishes ilike category search other d).
Proof.
  intros Hc. unfold create_dish in Hc.
  destruct (dish_count (User.id user) d >=? _); [discriminate|].
  destruct (Dish_validate_name _) as [name|e]; cbn [bind reraise_http] in Hc;
    [|by_exn e].
  unfold insert_dish in Hc. injection Hc as <- <-.
  assert (Hown : forall other,
            filter (fun x => Dish.user_id x =? User.id other)
                   (dishes d ++ [Dish.mk (dishes_id_seq d) name
                                   (DishCreate.category data) (User.id user)])
            = (filter (fun x => Dish.user_id x =? User.id other) (dishes d)
               ++ (if User.id user =? User.id other
                   then [Dish.mk (dishes_id_seq d) name (DishCreate.category data)
                           (User.id user)]
                   else []))%list).
  { intros other. rewrite filter_app. cbn [filter Dish.user_id].
    destruct (User.id user =? User.id other); reflexivity. }
  split; [|split].
  - unfold get_dishes. cbn [dishes]. rewrite Hown, Z.eqb_refl. reflexivity.
  - intros category search other x Hx. unfold get_dishes in Hx.
    assert (Hbase : forall y, In y (filter (fun x => Dish.user_id x =? User.id other)
                                      (dishes (mkDb (users d)
                                        (dishes d ++ [Dish.mk (dishes_id_seq d) name
                                           (DishCreate.category data) (User.id user)])
                                        (recipes d) (ingredients d) (recipe_ingredients d)
                                        (cooking_sessions d) (users_id_seq d)
                                        (dishes_id_seq d + 1)))) ->
                      Dish.user_id y = User.id other).
    { intros y Hy. apply filter_In in Hy as [_ Hy]. now apply Z.eqb_eq. }
    destruct category as [c|], search as [s|];
      try destruct (truthy s);
      repeat match type of Hx with
             | In _ (filter _ (filter _ _)) => apply filter_In in Hx as [Hx _]
             end; now apply Hbase.
  - intros category search other Hne. unfold get_dishes. cbn [dishes].
    rewrite Hown. destruct (User.id user =? User.id other) eqn:E.
    + apply Z.eqb_eq in E. congruence.
    + now rewrite app_nil_r.
Qed.

Lemma create_dish_then_list_witness :
  get_dishes (fun _ _ => true) None None cook
    (fst (create_dish borscht cook db_one_cook))
  = [Dish.mk 1 "Borscht" first_course 1].
Proof.
  destruct (create_dish borscht cook db_one_cook) as [d' [dish|e]] eqn:Hc;
    [|vm_compute in Hc; discriminate].
  destruct (create_dish_then_list (fun _ _ => true) borscht cook db_one_cook d' dish Hc)
    as [Hl _].
  cbn [fst]. rewrite Hl. vm_compute in Hc. injection Hc as _ <-. reflexivity.
Defined.

(** The tiers are ordered: every numeric limit of the premium tier is at
    least that of the free tier, every capability of the free tier is a
    capability of the premium tier, and a dish creation that succeeds for
    a user would also succeed were the user premium. *)
Theorem premium_never_restricts (data : DishCreate.t) (user : User.t) (d : Db) :
  (max_dishes (get_user_limits false) <= max_dishes (get_user_limits true)
   /\ max_recipes_per_dish (get_user_limits false)
      <= max_recipes_per_dish (get_user_limits true)
   /\ max_photo_size (get_user_limits false) <= max_photo_size (get_user_limits true)
   /\ max_tts_cache_size (get_user_limits false)
      <= max_tts_cache_size (get_user_limits true)
   /\ max_ingredients_per_recipe (get_user_limits false)
      <= max_ingredients_per_recipe (get_user_limits true))
  /\ (is_ok (snd (create_dish data user d)) = true ->
      is_ok (snd (create_dish data (User.set_is_premium true user) d)) = true).
Proof.
  split; [cbn; repeat split; lia|].
  unfold create_dish.
  change (User.id (User.set_is_premium true user)) with (User.id user).
  change (User.is_premium (User.set_is_premium true user)) with true.
  destruct (dish_count (User.id user) d >=? max_dishes (get_user_limits (User.is_premium user)))
    eqn:E; [discriminate|].
  assert (E' : (dish_count (User.id user) d >=? max_dishes (get_user_limits true)) = false).
  { rewrite Z.geb_leb in *. apply Z.leb_gt in E. apply Z.leb_gt.
    destruct (User.is_premium user); cbn in *; lia. }
  rewrite E'. auto.
Qed.

(** ** Favourites ([app/routers/favorites.py]) *)

Lemma first_by_key {A} (key : A -> Z) (p : A -> bool) (l : list A) (r : A) :
  NoDup (map key l) -> In r l -> p r = true ->
  (forall x, In x l -> p x = true -> key x = key r) ->
  first p l = Some r.
Proof.
  intros Hpk Hin Hp Hkey. destruct (first p l) as [x|] eqn:Hf.
  - apply find_some in Hf as [Hx Hpx]. f_equal.
    apply (key_unique key l); auto.
  - pose proof (find_none _ _ Hf r Hin). congruence.
Qed.

Lemma update_recipe_ids (r : Recipe.t) (d : Db) :
  map Recipe.id (recipes (update_recipe r d)) = map Recipe.id (recipes d).
Proof.
  unfold update_recipe. cbn [recipes]. rewrite map_map. apply map_ext.
  intros x. destruct (Recipe.id x =? Recipe.id r) eqn:E; [|reflexivity].
  apply Z.eqb_eq in E. now rewrite E.
Qed.

Lemma update_recipe_In (r r1 : Recipe.t) (d : Db) :
  In r (recipes d) -> Recipe.id r1 = Recipe.id r -> In r1 (recipes (update_recipe r1 d)).
Proof.
  intros Hin Hid. unfold update_recipe. cbn [recipes]. apply in_map_iff.
  exists r. split; [|exact Hin]. now rewrite Hid, Z.eqb_refl.
Qed.

Lemma update_recipe_others (r1 x : Recipe.t) (d : Db) :
  In x (recipes d) -> Recipe.id x <> Recipe.id r1 -> In x (recipes (update_recipe r1 d)).
Proof.
  intros Hx Hne. unfold update_recipe. cbn [recipes]. apply in_map_iff.
  exists x. split; [|exact Hx]. apply Z.eqb_neq in Hne. now rewrite Hne.
Qed.

(** The toggle on a recipe of the caller. *)
Lemma toggle_favorite_own (user : User.t) (d : Db) (r : Recipe.t) :
  recipes_pk d -> In r (recipes d) -> owns (User.id user) d r ->
  toggle_favorite (Recipe.id r) user d
  = (update_recipe (Recipe_set_is_favorite (negb (Recipe.is_favorite r)) r) d,
     Ok (Recipe.id r, negb (Recipe.is_favorite r))).
Proof.
  intros Hpk Hin Hown. unfold toggle_favorite.
  rewrite (first_by_key Recipe.id _ (recipes d) r Hpk Hin).
  - reflexivity.
  - rewrite Z.eqb_refl. now apply owned_by_owns.
  - intros x _ Hx. apply andb_prop in Hx as [Hx _]. now apply Z.eqb_eq.
Qed.

(** Toggling the favourite flag of an own recipe flips that flag and, of
    the columns followed here, nothing else: no row is added or removed,
    every other recipe stays as it is, the recipe is afterwards listed
    among the caller's favourites exactly when it was not a favourite
    before, and a second toggle gives the flag its first value back.  A
    recipe that does not hang on a dish of the caller, or does not exist,
    is answered 404 and nothing changes.  The favourites of a caller are
    the recipes on the caller's dishes whose flag is set. *)
Theorem toggle_favorite_flips (recipe_id : Z) (user : User.t) (d : Db) :
  recipes_pk d ->
  (forall x, In x (get_favorites user d)
             <-> In x (recipes d) /\ owns (User.id user) d x
                 /\ Recipe.is_favorite x = true)
  /\ ((forall r, In r (recipes d) -> Recipe.id r = recipe_id ->
                 ~ owns (User.id user) d r) ->
      toggle_favorite recipe_id user d
      = (d, Raise (HTTPException 404 "Рецепт не найден" [])))
  /\ (forall r, In r (recipes d) -> Recipe.id r = recipe_id ->
                owns (User.id user) d r ->
        exists d1 r1 d2,
          toggle_favorite recipe_id user d
          = (d1, Ok (recipe_id, negb (Recipe.is_favorite r)))
          /\ r1 = Recipe_set_is_favorite (negb (Recipe.is_favorite r)) r
          /\ In r1 (recipes d1)
          /\ map Recipe.id (recipes d1) = map Recipe.id (recipes d)
          /\ (forall x, In x (recipes d) -> Recipe.id x <> recipe_id ->
                        In x (recipes d1))
          /\ (In r1 (get_favorites user d1) <-> Recipe.is_favorite r = false)
          /\ toggle_favorite recipe_id user d1
             = (d2, Ok (recipe_id, Recipe.is_favorite r))).
Proof.
  intros Hpk.
  assert (Hfav : forall d0 x, In x (get_favorites user d0)
                   <-> In x (recipes d0) /\ owns (User.id user) d0 x
                       /\ Recipe.is_favorite x = true).
  { intros d0 x. unfold get_favorites.
    now rewrite filter_In, andb_true_iff, owned_by_owns. }
  split; [apply Hfav|]. split.
  - intros Hnone. unfold toggle_favorite.
    destruct (first _ (recipes d)) as [r|] eqn:Hf; [|reflexivity].
    apply find_some in Hf as [Hin Hp]. apply andb_prop in Hp as [Hid Hown].
    apply Z.eqb_eq in Hid. apply owned_by_owns in Hown.
    exfalso. exact (Hnone r Hin Hid Hown).
  - intros r Hin Hid Hown. subst recipe_id.
    set (r1 := Recipe_set_is_favorite (negb (Recipe.is_favorite r)) r).
    set (d1 := update_recipe r1 d).
    assert (Hin1 : In r1 (recipes d1)) by now apply (update_recipe_In r).
    assert (Hown1 : owns (User.id user) d1 r1) by exact Hown.
    assert (Hpk1 : recipes_pk d1)
      by (unfold recipes_pk, d1; now rewrite update_recipe_ids).
    exists d1, r1. eexists.
    split; [apply (toggle_favorite_own user d r Hpk Hin Hown)|].
    split; [reflexivity|]. split; [exact Hin1|].
    split; [apply update_recipe_ids|].
    split; [intros x Hx Hne; now apply update_recipe_others|]. split.
    + rewrite Hfav. unfold r1 at 3. cbn [Recipe.is_favorite Recipe_set_is_favorite].
      rewrite negb_true_iff. tauto.
    + pose proof (toggle_favorite_own user d1 r1 Hpk1 Hin1 Hown1) as H2.
      change (Recipe.id r1) with (Recipe.id r) in H2.
      change (Recipe.is_favorite r1) with (negb (Recipe.is_favorite r)) in H2.
      rewrite negb_involutive in H2. exact H2.
Qed.

Lemma toggle_favorite_flips_witness :
  fst (toggle_favorite 8 guest (w_db kitchen)) = w_db kitchen
  /\ snd (toggle_favorite 8 guest (w_db kitchen))
     = Raise (HTTPException 404 "Рецепт не найден" [])
  /\ snd (toggle_favorite 8 cook (w_db kitchen)) = Ok (8, true).
Proof.
  assert (Hpk : recipes_pk (w_db kitchen)).
  { unfold recipes_pk. cbn. repeat constructor; cbn; intuition discriminate. }
  destruct (toggle_favorite_flips 8 guest (w_db kitchen) Hpk) as [_ [Hg _]].
  destruct (toggle_favorite_flips 8 cook (w_db kitchen) Hpk) as [_ [_ Hc]].
  rewrite Hg.
  - split; [reflexivity|]. split; [reflexivity|].
    destruct (Hc recipe_8) as (d1 & r1 & d2 & Ht & _).
    + cbn. tauto.
    + reflexivity.
    + exists (Dish.mk 1 "Borscht" first_course 1). cbn. tauto.
    + now rewrite Ht.
  - intros r Hin Hid [dish (Hd & _ & Hu)]. cbn in Hd.
    destruct Hd as [<-|[]]. discriminate Hu.
Defined.
(** ** Filtering by ingredients ([app/routers/suggestions.py]) *)

Lemma filter_loop_filter (d : Db) (input_set : list str) (rs : list Recipe.t) :
  forall acc,
    fold_left (filter_step d input_set) rs acc
    = (acc ++ filter (fun r => issubset input_set
                         (set_of (map lower (recipe_ingredient_names (Recipe.id r) d))))
                     rs)%list.
Proof.
  induction rs as [|r rs IH]; intros acc; cbn [fold_left filter].
  - now rewrite app_nil_r.
  - rewrite IH. unfold filter_step.
    destruct (issubset input_set _); [now rewrite <- app_assoc|reflexivity].
Qed.

(** The subset test of the loop: every queried name, trimmed and
    lower-cased, is a name the recipe uses. *)
Lemma issubset_uses (q : list str) (d : Db) (r : Recipe.t) :
  names_trimmed d -> ingredients_pk d ->
  issubset (set_of (map (fun i => lower (strip i)) q))
           (set_of (map lower (recipe_ingredient_names (Recipe.id r) d))) = true
  <-> forall i, In i q -> recipe_uses d r (normal i).
Proof.
  intros Ht Hpk. rewrite (loop_name_set d r Ht). unfold issubset.
  rewrite forallb_forall. split.
  - intros H i Hi. apply (recipe_name_set_uses d r _ Hpk), mem_str_In, H.
    apply set_of_In, in_map_iff. now exists i.
  - intros H x Hx. apply set_of_In, in_map_iff in Hx as [i [<- Hi]].
    apply mem_str_In, (recipe_name_set_uses d r _ Hpk). now apply H.
Qed.

Lemma filter_recipes_members (q : list str) (user : User.t) (d : Db) :
  names_trimmed d -> ingredients_pk d ->
  exists res,
    filter_recipes_by_ingredients q user d = Ok res
    /\ forall r, In r res
                 <-> In r (recipes d) /\ owns (User.id user) d r
                     /\ forall i, In i q -> recipe_uses d r (normal i).
Proof.
  intros Ht Hpk. unfold filter_recipes_by_ingredients. cbn [reraise_http].
  eexists. split; [reflexivity|]. intros r.
  rewrite filter_loop_filter. cbn [app].
  rewrite filter_In, user_recipes_owns, (issubset_uses q d r Ht Hpk). tauto.
Qed.

(** On a database whose ingredient names are stored trimmed, the ingredient
    filter answers with exactly the recipes that hang on a dish of the
    caller and use every queried name, names being compared trimmed and
    lower-cased; so it is antitone in the query: asking for more
    ingredients never adds a recipe to the answer. *)
Theorem filter_recipes_antitone (q1 q2 : list str) (user : User.t) (d : Db) :
  names_trimmed d -> ingredients_pk d ->
  incl q1 q2 ->
  exists r1 r2,
    filter_recipes_by_ingredients q1 user d = Ok r1
    /\ filter_recipes_by_ingredients q2 user d = Ok r2
    /\ incl r2 r1
    /\ (forall r, In r r1
                  <-> In r (recipes d) /\ owns (User.id user) d r
                      /\ forall i, In i q1 -> recipe_uses d r (normal i))
    /\ (forall r, In r r2
                  <-> In r (recipes d) /\ owns (User.id user) d r
                      /\ forall i, In i q2 -> recipe_uses d r (normal i)).
Proof.
  intros Ht Hpk Hq.
  destruct (filter_recipes_members q1 user d Ht Hpk) as (r1 & E1 & H1).
  destruct (filter_recipes_members q2 user d Ht Hpk) as (r2 & E2 & H2).
  exists r1, r2. split; [exact E1|]. split; [exact E2|]. split; [|split; assumption].
  intros r Hr. apply H2 in Hr as (Hin & Hown & Huses). apply H1.
  split; [exact Hin|]. split; [exact Hown|]. intros i Hi. apply Huses, Hq, Hi.
Qed.

Lemma filter_recipes_antitone_witness :
  filter_recipes_by_ingredients [" СОЛЬ"] cook db_pantry_ru
  = Ok [Recipe.mk 9 60 "духовка" 4 None false 1]
  /\ filter_recipes_by_ingredients [" СОЛЬ"; "рис"] cook db_pantry_ru = Ok [].
Proof.
  destruct (filter_recipes_antitone [" СОЛЬ"] [" СОЛЬ"; "рис"] cook db_pantry_ru)
    as [r1 [r2 [H1 [H2 _]]]].
  - apply db_pantry_ru_wf.
  - apply db_pantry_ru_wf.
  - intros x [<-|[]]. now left.
  - split; vm_compute; reflexivity.
Defined.
(** ** Suggestions at the extremes of [min_match] *)

Local Open Scope Q_scope.

Lemma round_half_even_comp (x y : Q) :
  x == y -> Float.round_half_even x = Float.round_half_even y.
Proof.
  intros H. unfold Float.round_half_even.
  rewrite (Qfloor_comp x y H).
  assert (Hc : Qcompare (x - inject_Z (Qfloor y)) (1 # 2)
               = Qcompare (y - inject_Z (Qfloor y)) (1 # 2))
    by (apply Qcompare_comp; [now rewrite H|reflexivity]).
  now rewrite Hc.
Qed.

Lemma round_half_even_nonneg (x : Q) : 0 <= x -> (0 <= Float.round_half_even x)%Z.
Proof.
  intros H. unfold Float.round_half_even.
  assert (Hf : (0 <= Qfloor x)%Z).
  { change 0%Z with (Qfloor 0). now apply Qfloor_resp_le. }
  destruct (Qcompare _ _); [destruct (Z.even _)|..]; lia.
Qed.

(** The quotient of two integers is never negative. *)
Lemma Float_div_nonneg (a b : Z) : (0 <= a)%Z -> 0 <= Float.div a b.
Proof.
  intros Ha. unfold Float.div, Float.of_Q.
  set (q := Qmake a (Z.to_pos b)).
  destruct (Qcompare q 0) eqn:E.
  - apply Qle_refl.
  - assert (Hq : 0 <= q) by (unfold q, Qle; cbn; lia).
    apply Qlt_alt in E. exfalso. apply (Qlt_not_le _ _ E Hq).
  - unfold Float.nearest_pos. rewrite Qred_correct.
    assert (Hq : 0 <= q) by (unfold q, Qle; cbn; lia).
    set (p := Z.max (Float.ilog2 q - 52) (-1074)).
    assert (Hp : 0 < Qpower 2 p) by (apply Qpower_0_lt; reflexivity).
    apply Qmult_le_0_compat; [|now apply Qlt_le_weak].
    change 0 with (inject_Z 0). rewrite <- Zle_Qle.
    apply round_half_even_nonneg.
    apply Qle_shift_div_l; [exact Hp|]. now rewrite Qmult_0_l.
Qed.

(** A quotient with equal terms is exactly 1.0. *)
Lemma Float_div_same (n : Z) : (0 < n)%Z -> Float.div n n = 1.
Proof.
  intros Hn. unfold Float.div, Float.of_Q.
  set (q := Qmake n (Z.to_pos n)).
  assert (Hq : q == 1) by (unfold q, Qeq; cbn; rewrite Z2Pos.id; lia).
  assert (Hc : Qcompare q 0 = Gt) by (rewrite Hq; reflexivity).
  rewrite Hc. unfold Float.nearest_pos.
  assert (Hl : Float.ilog2 q = 0%Z).
  { unfold Float.ilog2.
    replace (Z.log2 (Qnum q) - Z.log2 (Zpos (Qden q)))%Z with 0%Z
      by (unfold q; cbn [Qnum Qden]; rewrite Z2Pos.id by lia; lia).
    cbv zeta.
    assert (Hb : Qle_bool (Qpower 2 0) q = true)
      by (apply Qle_bool_iff; rewrite Hq; apply Qle_refl).
    rewrite Hb. reflexivity. }
  rewrite Hl.
  change (Z.max (0 - 52) (-1074)) with (-52)%Z.
  rewrite (round_half_even_comp (q / Qpower 2 (-52)) (1 / Qpower 2 (-52)))
    by now rewrite Hq.
  vm_compute. reflexivity.
Qed.

Local Close Scope Q_scope.

Lemma set_inter_all (a b : list str) :
  incl a b -> set_inter a b = a.
Proof.
  intros H. unfold set_inter. induction a as [|x a IH]; cbn [filter]; [reflexivity|].
  assert (Hx : mem_str x b = true) by (apply mem_str_In, H; now left).
  rewrite Hx. f_equal. apply IH. intros y Hy. apply H. now right.
Qed.

(** A recipe of the caller all of whose ingredient names are offered is
    always suggested, with a match of exactly 1.0, whatever the threshold
    the request may carry; and with the threshold 0 every recipe of the
    caller that has an ingredient is suggested, with its match. *)
Theorem suggestions_at_extremes (data : list str) (min_match : Float.float)
    (user : User.t) (d : Db) (r : Recipe.t) :
  data <> [] -> names_trimmed d -> ingredients_pk d ->
  In r (recipes d) -> owns (User.id user) d r ->
  (exists n, recipe_uses d r n) ->
  exists res,
    suggest_recipes data min_match user d = Ok res
    /\ ((forall n, recipe_uses d r n -> offered data n) ->
        (min_match <= 1)%Q ->
        match_is d data r 1%Q
        /\ In (RecipeSuggestion.mk (Recipe.id r) (Recipe.cook_time r)
                 (Recipe.cook_method r) (Recipe.servings r) (Recipe.photo_url r)
                 (Recipe.is_favorite r) 1%Q)
              res)
    /\ ((min_match <= 0)%Q ->
        exists q, match_is d data r q /\ In (suggestion r q) res).
Proof.
  intros Hne Ht Hpk Hr Hown [n0 Hn0].
  rewrite (suggest_recipes_sorted_loop data min_match user d Hne Ht).
  eexists. split; [reflexivity|].
  assert (Hnames : recipe_name_set r d <> []).
  { intros E. apply (recipe_name_set_uses d r n0 Hpk) in Hn0. now rewrite E in Hn0. }
  assert (Hlen : 0 < set_len (recipe_name_set r d)).
  { unfold set_len. destruct (recipe_name_set r d); [contradiction|]. cbn. lia. }
  assert (Hnz : negb (Nat.eqb (List.length (recipe_name_set r d)) 0) = true)
    by (destruct (recipe_name_set r d); [contradiction|reflexivity]).
  assert (Hm : match_is d data r (match_score data r d))
    by now apply match_is_score.
  assert (Hin : kept data min_match d r = true ->
                In (suggestion r (match_score data r d))
                   (sorted (fun x => Float.neg (RecipeSuggestion.match_percent x))
                      (map (fun r0 => suggestion r0 (match_score data r0 d))
                         (filter (kept data min_match d)
                            (user_recipes (User.id user) d))))).
  { intros Hk. apply (Permutation_in _ (Permutation_sym (sorted_perm _ _))).
    apply (in_map (fun r0 => suggestion r0 (match_score data r0 d))), filter_In.
    split; [now apply user_recipes_owns|exact Hk]. }
  split.
  - intros Hall Hmin.
    assert (Hincl : incl (recipe_name_set r d) (input_name_set data)).
    { intros n Hn. apply input_name_set_offered, Hall.
      now apply (recipe_name_set_uses d r n Hpk). }
    assert (Hscore : match_score data r d = 1%Q).
    { unfold match_score. rewrite (set_inter_all _ _ Hincl). now apply Float_div_same. }
    rewrite Hscore in Hm, Hin. split; [exact Hm|]. apply Hin.
    unfold kept. rewrite Hnz, Hscore. apply Qle_bool_iff. exact Hmin.
  - intros Hmin. exists (match_score data r d). split; [exact Hm|]. apply Hin.
    unfold kept. rewrite Hnz. apply Qle_bool_iff.
    apply Qle_trans with 0%Q; [exact Hmin|].
    unfold match_score. apply Float_div_nonneg. unfold set_len. lia.
Qed.

Lemma suggestions_at_extremes_witness :
  exists res,
    suggest_recipes ["salt"; "PEPPER "; "chicken"; "rice"] (Float.of_Q (1 # 1)) cook
      db_pantry = Ok res
    /\ In (RecipeSuggestion.mk 9 60 "oven" 4 None false 1%Q) res.
Proof.
  destruct (suggestions_at_extremes ["salt"; "PEPPER "; "chicken"; "rice"]
              (Float.of_Q (1 # 1)) cook db_pantry roast)
    as [res [Hs [Hfull _]]].
  - discriminate.
  - apply db_pantry_wf.
  - apply db_pantry_wf.
  - cbn. now left.
  - exists (Dish.mk 1 "Roast" second_course 1). cbn. tauto.
  - exists "salt". exists (RecipeIngredient.mk 1 9 1), (Ingredient.mk 1 "Salt").
    cbn. repeat split; tauto.
  - exists res. split; [exact Hs|]. apply Hfull.
    + intros n Hn. apply (recipe_name_set_uses db_pantry roast n) in Hn;
        [|apply db_pantry_wf].
      apply input_name_set_offered. vm_compute in Hn. vm_compute. tauto.
    + vm_compute. discriminate.
Defined.
(** ** Cooking sessions and the streak ([app/routers/analytics.py]) *)

Lemma initial_run_bounds (has : Z -> bool) (from : Z) (n : nat) :
  0 <= initial_run has from n <= Z.of_nat n.
Proof.
  revert from. induction n as [|n IH]; intros from; cbn [initial_run]; [lia|].
  destruct (has from); [specialize (IH (from + 1))|]; lia.
Qed.

Lemma initial_run_mono (has has' : Z -> bool) (from : Z) (n : nat) :
  (forall i, has i = true -> has' i = true) ->
  initial_run has from n <= initial_run has' from n.
Proof.
  intros H. revert from. induction n as [|n IH]; intros from; cbn [initial_run]; [lia|].
  destruct (has from) eqn:E.
  - rewrite (H _ E). specialize (IH (from + 1)). lia.
  - destruct (has' from); [|lia].
    pose proof (initial_run_bounds has' (from + 1) n). lia.
Qed.

Lemma initial_run_ext (has has' : Z -> bool) (from : Z) (n : nat) :
  (forall i, has i = has' i) -> initial_run has from n = initial_run has' from n.
Proof.
  intros H. revert from. induction n as [|n IH]; intros from; cbn [initial_run];
    [reflexivity|].
  now rewrite H, IH.
Qed.

Lemma initial_run_S (has : Z -> bool) (from : Z) (k : nat) :
  initial_run has from (S k)
  = if has from then 1 + initial_run has (from + 1) k else 0.
Proof. reflexivity. Qed.

Lemma cooking_streak_run (now : Z) (user : User.t) (d : Db) :
  cooking_streak now user d
  = initial_run (fun i => cooked_on (User.id user) (date_of now - i) d) 0 7.
Proof.
  unfold cooking_streak, range.
  exact (streak_loop_run (User.id user) (date_of now) d 7 0).
Qed.

Lemma cooked_on_add_session (uid day : Z) (s : CookingSession.t) (d : Db) :
  cooked_on uid day (add_session s d)
  = cooked_on uid day d
    || ((CookingSession.user_id s =? uid)
        && (date_of (CookingSession.started_at s) =? day)
        && CookingSession.is_completed s).
Proof.
  unfold cooked_on, add_session. cbn [cooking_sessions]. rewrite existsb_app.
  cbn [existsb]. now rewrite orb_false_r.
Qed.

(** The streak is a number from 0 to 7, and opening a cooking session
    changes the streak of nobody, at any time: a session counts only once
    it is completed. *)
Theorem start_cooking_session_keeps_streak (new_id now recipe_id : Z) (user : User.t)
    (d : Db) (now' : Z) (user' : User.t) :
  0 <= cooking_streak now' user' d <= 7
  /\ cooking_streak now' user' (fst (start_cooking_session new_id now recipe_id user d))
     = cooking_streak now' user' d.
Proof.
  split.
  - rewrite cooking_streak_run. apply (initial_run_bounds _ 0 7).
  - unfold start_cooking_session. destruct (first _ _); [|reflexivity]. cbn [fst].
    rewrite !cooking_streak_run. apply initial_run_ext. intros i.
    rewrite cooked_on_add_session. cbn [CookingSession.is_completed].
    now rewrite andb_false_r, orb_false_r.
Qed.

Lemma session_pk_unique (l : list CookingSession.t) (a b : CookingSession.t) :
  NoDup (map CookingSession.id l) -> In a l -> In b l ->
  CookingSession.id a = CookingSession.id b -> a = b.
Proof.
  induction l as [|x l IH]; cbn [map]; intros Hnd Ha Hb He; [contradiction|].
  inversion Hnd as [|? ? Hfresh Hrest]; subst.
  destruct Ha as [<-|Ha], Hb as [<-|Hb]; auto; exfalso; apply Hfresh.
  - rewrite He. now apply in_map.
  - rewrite <- He. now apply in_map.
Qed.

Lemma existsb_map_or {A} (p q : A -> bool) (f : A -> A) (l : list A) :
  (forall x, In x l -> p (f x) = p x || q x) ->
  existsb p (map f l) = existsb p l || existsb q l.
Proof.
  induction l as [|x l IH]; intros H; cbn [map existsb]; [reflexivity|].
  rewrite (H x) by now left. rewrite IH by (intros y Hy; apply H; now right).
  destruct (p x), (q x), (existsb p l), (existsb q l); reflexivity.
Qed.

(** Completing a session adds its start day to the days its owner
    cooked on. *)
Lemma cooked_on_complete (uid day : Z) (s : CookingSession.t) (d : Db) :
  sessions_pk d -> In s (cooking_sessions d) ->
  cooked_on uid day (update_session (CookingSession_set_is_completed true s) d)
  = cooked_on uid day d
    || ((CookingSession.user_id s =? uid)
        && (date_of (CookingSession.started_at s) =? day)).
Proof.
  intros Hpk Hin. unfold cooked_on, update_session. cbn [cooking_sessions].
  rewrite (existsb_map_or _
             (fun x => (CookingSession.id x =? CookingSession.id s)
                       && ((CookingSession.user_id s =? uid)
                           && (date_of (CookingSession.started_at s) =? day)))).
  - f_equal.
    destruct ((CookingSession.user_id s =? uid)
              && (date_of (CookingSession.started_at s) =? day)) eqn:E.
    + apply existsb_exists. exists s. split; [exact Hin|].
      now rewrite Z.eqb_refl.
    + clear. induction (cooking_sessions d) as [|x l IH]; cbn [existsb]; [reflexivity|].
      now rewrite andb_false_r.
  - intros x Hx. cbn [CookingSession.id CookingSession_set_is_completed].
    destruct (CookingSession.id x =? CookingSession.id s) eqn:E.
    + apply Z.eqb_eq in E.
      assert (x = s) by (apply (session_pk_unique (cooking_sessions d)); auto).
      subst x. cbn [CookingSession.user_id CookingSession.started_at
                    CookingSession.is_completed CookingSession_set_is_completed].
      destruct (CookingSession.user_id s =? uid),
               (date_of (CookingSession.started_at s) =? day),
               (CookingSession.is_completed s); reflexivity.
    + cbn [andb]. now rewrite orb_false_r.
Qed.

(** A session counts for the day it was started, whenever it is
    completed: completing a session started today makes the streak at least
    1; completing one started on another day leaves a streak of 0 at 0 when
    nothing else was completed today; the streak of the owner never goes
    down, and nobody else's changes. *)
Theorem completed_session_counts_on_start_day (session_id now : Z) (user : User.t)
    (d d' : Db) (s : CookingSession.t) :
  sessions_pk d ->
  update_cooking_session session_id (Some true) user d = (d', Ok s) ->
  (date_of (CookingSession.started_at s) = date_of now ->
   1 <= cooking_streak now user d')
  /\ (date_of (CookingSession.started_at s) <> date_of now ->
      cooked_on (User.id user) (date_of now) d = false ->
      cooking_streak now user d' = 0)
  /\ cooking_streak now user d <= cooking_streak now user d'
  /\ (forall now' user', User.id user' <> User.id user ->
        cooking_streak now' user' d' = cooking_streak now' user' d).
Proof.
  intros Hpk H. unfold update_cooking_session in H.
  destruct (first _ (cooking_sessions d)) as [s0|] eqn:Hf; [|discriminate].
  injection H as <- <-.
  apply find_some in Hf as [Hin Hp]. apply andb_prop in Hp as [_ Hu].
  apply Z.eqb_eq in Hu.
  cbn [CookingSession.started_at CookingSession_set_is_completed].
  assert (Hco : forall uid day,
            cooked_on uid day
              (update_session (CookingSession_set_is_completed true s0) d)
            = cooked_on uid day d
              || ((User.id user =? uid)
                  && (date_of (CookingSession.started_at s0) =? day))).
  { intros uid day. rewrite (cooked_on_complete uid day s0 d Hpk Hin). now rewrite Hu. }
  split; [|split; [|split]].
  - intros Hday. rewrite cooking_streak_run, initial_run_S, Hco.
    rewrite Z.eqb_refl, Hday, Z.sub_0_r, Z.eqb_refl, orb_true_r.
    pose proof (initial_run_bounds
                  (fun i => cooked_on (User.id user) (date_of now - i)
                              (update_session (CookingSession_set_is_completed true s0) d))
                  (0 + 1) 6).
    lia.
  - intros Hday Hno. rewrite cooking_streak_run, initial_run_S, Hco.
    rewrite Z.sub_0_r, Hno. apply Z.eqb_neq in Hday. now rewrite Hday, andb_false_r.
  - rewrite !cooking_streak_run. apply initial_run_mono. intros i Hi.
    rewrite Hco, Hi. reflexivity.
  - intros now' user' Hne. rewrite !cooking_streak_run. apply initial_run_ext.
    intros i. rewrite Hco. apply not_eq_sym in Hne. apply Z.eqb_neq in Hne.
    rewrite Hne. now rewrite orb_false_r.
Qed.

Lemma completed_session_counts_on_start_day_witness :
  1 <= cooking_streak (day0 + 50000) cook
         (fst (update_cooking_session 6 (Some true) cook db_open_sessions)).
Proof.
  assert (Hpk : sessions_pk db_open_sessions).
  { unfold sessions_pk. cbn. repeat constructor; cbn; intuition discriminate. }
  destruct (completed_session_counts_on_start_day 6 (day0 + 50000) cook db_open_sessions
              (fst (update_cooking_session 6 (Some true) cook db_open_sessions))
              (CookingSession.mk 6 1 1 true (day0 + 7200)) Hpk eq_refl) as [H _].
  apply H. reflexivity.
Defined.

(** ** Deleting a recipe, again ([app/routers/recipes.py]) *)

Lemma first_none_filter {A} (p q : A -> bool) (l : list A) :
  (forall x, p x = true -> q x = false) -> first p (filter q l) = None.
Proof.
  intros H. unfold first. induction l as [|x l IH]; cbn [filter find]; [reflexivity|].
  destruct (q x) eqn:Eq; [|exact IH]. cbn [find].
  destruct (p x) eqn:Ep; [|exact IH]. apply H in Ep. congruence.
Qed.

(** A deletion that succeeds removes the recipe and the rows that
    reference it and nothing else from the database, and the same request
    sent again is answered 404 and changes nothing. *)
Theorem delete_recipe_second_call (recipe_id : Z) (user : User.t) (w w' : World)
    (msg : str) :
  delete_recipe recipe_id user w = (w', Ok msg) ->
  delete_recipe recipe_id user w'
  = (w', Raise (HTTPException 404 "Рецепт не найден" []))
  /\ (forall r, In r (recipes (w_db w'))
                <-> In r (recipes (w_db w)) /\ Recipe.id r <> recipe_id)
  /\ (forall ri, In ri (recipe_ingredients (w_db w'))
                 <-> In ri (recipe_ingredients (w_db w))
                     /\ RecipeIngredient.recipe_id ri <> recipe_id)
  /\ (forall s, In s (cooking_sessions (w_db w'))
                <-> In s (cooking_sessions (w_db w))
                    /\ CookingSession.recipe_id s <> recipe_id)
  /\ users (w_db w') = users (w_db w)
  /\ dishes (w_db w') = dishes (w_db w)
  /\ ingredients (w_db w') = ingredients (w_db w).
Proof.
  intros H.
  destruct (first (fun r => (Recipe.id r =? recipe_id)
                            && owned_by (User.id user) (w_db w) r)
                  (recipes (w_db w))) as [recipe|] eqn:Hf.
  2:{ rewrite (delete_recipe_not_owned _ _ _ Hf) in H. discriminate. }
  destruct (truthy_opt (Recipe.photo_url recipe)) eqn:Hp.
  { unfold delete_recipe in H. rewrite Hf in H.
    destruct (Recipe.photo_url recipe) as [url|]; cbn [truthy_opt] in Hp;
      [|discriminate].
    rewrite Hp in H. discriminate. }
  rewrite (delete_recipe_without_photo _ _ _ _ Hf Hp) in H.
  injection H as <- _.
  apply find_some in Hf as [_ Hid]. apply andb_prop in Hid as [Hid _].
  apply Z.eqb_eq in Hid. cbn [w_db delete_recipe_row recipes recipe_ingredients
                               cooking_sessions users dishes ingredients].
  rewrite Hid.
  split; [|repeat split].
  - apply delete_recipe_not_owned. cbn [w_db delete_recipe_row recipes]. rewrite Hid.
    apply first_none_filter. intros x Hx. apply andb_prop in Hx as [Hx _].
    now rewrite Hx.
  - now apply filter_In in H.
  - apply filter_In in H as [_ H]. apply negb_true_iff, Z.eqb_neq in H. exact H.
  - intros [H1 H2]. apply filter_In. split; [exact H1|].
    now apply negb_true_iff, Z.eqb_neq.
  - now apply filter_In in H.
  - apply filter_In in H as [_ H]. apply negb_true_iff, Z.eqb_neq in H. exact H.
  - intros [H1 H2]. apply filter_In. split; [exact H1|].
    now apply negb_true_iff, Z.eqb_neq.
  - now apply filter_In in H.
  - apply filter_In in H as [_ H]. apply negb_true_iff, Z.eqb_neq in H. exact H.
  - intros [H1 H2]. apply filter_In. split; [exact H1|].
    now apply negb_true_iff, Z.eqb_neq.
Qed.

Lemma delete_recipe_second_call_witness :
  delete_recipe 8 cook (fst (delete_recipe 8 cook kitchen))
  = (fst (delete_recipe 8 cook kitchen),
     Raise (HTTPException 404 "Рецепт не найден" [])).
Proof.
  assert (H : delete_recipe 8 cook kitchen
              = (fst (delete_recipe 8 cook kitchen), Ok "Рецепт успешно удалён"))
    by (vm_compute; reflexivity).
  exact (proj1 (delete_recipe_second_call 8 cook kitchen _ _ H)).
Defined.

(** ** The purge of the audio cache ([app/utils/tts.py]) *)

Lemma hex_digit_hex (n : N) : (n < 16)%N -> hex_char (MD5.hex_digit n) = true.
Proof.
  intros H.
  destruct n as [|[[[[p|p|]|[p|p|]|]|[[p|p|]|[p|p|]|]|]|[[[p|p|]|[p|p|]|]|[[p|p|]|[p|p|]|]|]|]];
    try reflexivity; exfalso; lia.
Qed.

Lemma le_bytes_small (n : nat) (x : N) : Forall (fun b => b < 256)%N (MD5.le_bytes n x).
Proof.
  revert x. induction n as [|n IH]; intros x; cbn [MD5.le_bytes]; constructor.
  - apply N.mod_lt. discriminate.
  - apply IH.
Qed.

Lemma hex_all_hex (bs : list N) :
  Forall (fun b => b < 256)%N bs -> all_char hex_char (MD5.hex bs) = true.
Proof.
  induction 1 as [|b bs Hb _ IH]; cbn [MD5.hex all_char]; [reflexivity|].
  rewrite IH, !hex_digit_hex; [reflexivity| |].
  - apply N.mod_lt. discriminate.
  - apply N.Div0.div_lt_upper_bound. exact Hb.
Qed.

(** A digest prints in lower-case hexadecimal digits only. *)
Lemma hexdigest_hex (s : str) : all_char hex_char (MD5.hexdigest s) = true.
Proof.
  unfold MD5.hexdigest, MD5.digest. apply hex_all_hex.
  destruct (MD5.chunks _ _ _) as [[[a b] c] d].
  repeat (apply Forall_app; split); apply le_bytes_small.
Qed.

Lemma contains_head (c : N) (p s : str) :
  contains (c :: p) s = true -> any_char (N.eqb c) s = true.
Proof.
  induction s as [|x s IH]; cbn [contains any_char startswith].
  - intros H. discriminate.
  - destruct (c =? x)%N; [reflexivity|]. cbn [andb orb]. exact IH.
Qed.

Lemma all_none (p q : N -> bool) (s : str) :
  (forall c, p c = true -> q c = false) ->
  all_char p s = true -> any_char q s = false.
Proof.
  intros H. induction s as [|x s IH]; cbn [all_char any_char]; [reflexivity|].
  intros Ha. apply andb_prop in Ha as [Hx Hs]. now rewrite (H _ Hx), IH.
Qed.

Lemma firstn_app_exact {A} (h t : list A) : firstn (List.length h) (h ++ t) = h.
Proof.
  induction h as [|c h IH]; cbn [List.length app firstn]; [reflexivity|].
  now rewrite IH.
Qed.

Lemma stem_mp3 (h : str) : h <> [] -> stem (h ++ ".mp3") = h.
Proof.
  intros Hne. unfold stem.
  destruct (str_eqb (h ++ ".mp3") ".mp3") eqn:E.
  - apply str_eqb_eq in E. destruct h as [|c h]; [contradiction|].
    apply (f_equal (@List.length N)) in E. rewrite length_app in E.
    cbn [List.length] in E. lia.
  - rewrite length_app. cbn [List.length].
    replace (List.length h + 4 - 4)%nat with (List.length h) by lia.
    apply firstn_app_exact.
Qed.

(** No name that [get_tts_cache_path] gives matches the pattern of a
    purge. *)
Lemma cached_audio_no_match (recipe_id : Z) (name : str) :
  cached_audio_name name ->
  contains ("recipe_" ++ str_of_int recipe_id ++ "_step_") (stem name) = false.
Proof.
  intros [text [voice H]]. unfold get_tts_cache_path in H.
  destruct (negb (Utf8.encodable (text ++ "_" ++ voice))); [discriminate|].
  unfold path_join in H. injection H as <-.
  rewrite stem_mp3.
  - destruct (contains _ _) eqn:E; [|reflexivity]. cbn [app] in E.
    apply contains_head in E.
    rewrite (all_none hex_char (N.eqb (chr "r"))) in E;
      [discriminate| |apply hexdigest_hex].
    intros c Hc. destruct (N.eqb_spec (chr "r") c) as [<-|]; [|reflexivity].
    discriminate Hc.
  - intros He. apply (f_equal (@List.length N)) in He.
    rewrite hexdigest_length in He. discriminate.
Qed.

Lemma purge_loop_keeps (recipe_id : Z) (cache kept : list str) (n : Z) :
  (forall f, In f cache ->
     contains ("recipe_" ++ str_of_int recipe_id ++ "_step_") (stem f) = false) ->
  fold_left
    (fun '(kept, deleted_count) file_path =>
       if endswith ".mp3" file_path
          && contains ("recipe_" ++ str_of_int recipe_id ++ "_step_") (stem file_path)
       then (kept, deleted_count + 1)
       else ((kept ++ [file_path])%list, deleted_count))
    cache (kept, n)
  = ((kept ++ cache)%list, n).
Proof.
  revert kept. induction cache as [|f cache IH]; intros kept H; cbn [fold_left].
  - now rewrite app_nil_r.
  - rewrite (H f) by now left. rewrite andb_false_r.
    rewrite IH by (intros g Hg; apply H; now right).
    now rewrite <- app_assoc.
Qed.

(** The purge never removes an audio file of the cache: the files are named
    by the digest that [get_tts_cache_path] computes, and no digest contains
    the pattern the purge looks for.  So a cache that holds only such files
    comes out of the purge of any recipe as it went in, with a deleted count
    of 0, and no call of the handler that deletes a recipe changes it. *)
Theorem purge_keeps_cached_audio (recipe_id : Z) (cache : list str) :
  (forall f, In f cache -> cached_audio_name f) ->
  delete_tts_cache_for_recipe recipe_id cache = (cache, 0)
  /\ (forall user d tasks,
        tts_cache (fst (delete_recipe recipe_id user (mkWorld d cache tasks))) = cache).
Proof.
  intros H.
  assert (Hp : delete_tts_cache_for_recipe recipe_id cache = (cache, 0)).
  { unfold delete_tts_cache_for_recipe.
    apply (purge_loop_keeps recipe_id cache [] 0).
    intros f Hf. apply cached_audio_no_match. now apply H. }
  split; [exact Hp|].
  intros user d tasks. unfold delete_recipe. cbn [w_db tts_cache].
  destruct (first _ (recipes d)) as [recipe|]; [|reflexivity].
  rewrite Hp.
  destruct (Recipe.photo_url recipe) as [url|]; [destruct (truthy url)|]; reflexivity.
Qed.

Lemma purge_keeps_cached_audio_witness :
  delete_tts_cache_for_recipe 7 [audio_7; audio_8] = ([audio_7; audio_8], 0).
Proof.
  refine (proj1 (purge_keeps_cached_audio 7 [audio_7; audio_8] _)).
  intros f Hf. destruct Hf as [<-|[<-|[]]].
  - exists "Chop the onions", (voice_id 7 1). vm_compute. reflexivity.
  - exists "Heat the pan", (voice_id 8 1). vm_compute. reflexivity.
Defined.

(** ** The [users] table stays well formed *)

Lemma get_current_user_in (jose : Jose) (token : str) (d : Db) (u : User.t) :
  get_current_user jose token d = Ok u -> In u (users d).
Proof.
  unfold get_current_user, decode_access_token.
  destruct (jwt_decode jose token) as [payload|e].
  - destruct (negb (is_access (dict_get "type" payload))); cbn [bind reraise_http];
      [discriminate|].
    destruct (dict_get "sub" payload) as [v|]; cbn [reraise_http]; [|discriminate].
    destruct (negb (json_truthy (Some v))); cbn [reraise_http]; [discriminate|].
    destruct (py_int v) as [uid|e]; cbn [bind reraise_http].
    + destruct (first _ (users d)) as [u0|] eqn:Hf; cbn [reraise_http]; [|discriminate].
      intros H. injection H as <-. now apply find_some in Hf.
    + destruct e; discriminate.
  - destruct e; cbn [bind reraise_http]; discriminate.
Qed.

(** Well-formedness looks at ids, emails and the sequence only. *)
Lemma users_wf_same_keys (d d' : Db) :
  map credentials (users d') = map credentials (users d) ->
  users_id_seq d' = users_id_seq d ->
  users_wf d -> users_wf d'.
Proof.
  intros Hc Hs [Hid [Hem [Hseq Hnorm]]].
  assert (Hrow : forall u, In u (users d') ->
                 exists v, In v (users d) /\ credentials v = credentials u).
  { intros u Hu. apply (in_map credentials) in Hu. rewrite Hc in Hu.
    apply in_map_iff in Hu as [v [Hv Hin]]. eauto. }
  assert (Hids : map User.id (users d') = map User.id (users d)).
  { change User.id with (fun u => fst (fst (fst (credentials u)))).
    now rewrite <- (map_map credentials (fun c => fst (fst (fst c)))), Hc, map_map. }
  assert (Hems : map User.email (users d') = map User.email (users d)).
  { change User.email with (fun u => snd (fst (fst (credentials u)))).
    now rewrite <- (map_map credentials (fun c => snd (fst (fst c)))), Hc, map_map. }
  unfold users_wf. rewrite Hids, Hems, Hs. repeat split; auto.
  - intros u Hu. destruct (Hrow u Hu) as [v [Hv He]].
    replace (User.id u) with (User.id v) by (unfold credentials in He; congruence).
    now apply Hseq.
  - intros u Hu. destruct (Hrow u Hu) as [v [Hv He]].
    replace (User.email u) with (User.email v) by (unfold credentials in He; congruence).
    now apply Hnorm.
Qed.

Lemma login_db (pwd_context : CryptContext) (jose : Jose)
    (form_data : OAuth2PasswordRequestForm) (d : Db) :
  fst (fst (login pwd_context jose form_data d)) = d
  \/ exists u, In u (users d)
       /\ fst (fst (login pwd_context jose form_data d))
          = update_user (User.update_last_login (utcnow jose) u) d.
Proof.
  unfold login.
  destruct (first _ (users d)) as [u|] eqn:Hf; [|left; reflexivity].
  apply find_some in Hf as [Hin _].
  destruct (verify_password _ _ _) as [[|]|e].
  - destruct (create_access_token _ _ _) as [tok|e].
    + right. exists u. split; [exact Hin|reflexivity].
    + right. exists u. split; [exact Hin|]. destruct e; reflexivity.
  - left. reflexivity.
  - left. destruct e; reflexivity.
Qed.

(** Every handler that writes to the [users] table keeps it well formed:
    login, password change, upgrade and self-deactivation by a user the
    bearer token resolves to, the two admin toggles and the bulk action,
    whatever their arguments and whether they succeed or not. *)
Theorem account_handlers_preserve_users_wf (d : Db) :
  users_wf d ->
  (forall pwd_context jose form_data,
     users_wf (fst (fst (login pwd_context jose form_data d))))
  /\ (forall jose token current_user,
        get_current_user jose token d = Ok current_user ->
        (forall pwd_context password_data,
           users_wf (fst (change_password pwd_context password_data current_user d)))
        /\ users_wf (fst (upgrade current_user d))
        /\ users_wf (fst (deactivate_account current_user d)))
  /\ (forall user_id admin_user,
        users_wf (fst (toggle_user_active user_id admin_user d))
        /\ users_wf (fst (toggle_user_premium user_id admin_user d)))
  /\ (forall action_data admin_user,
        users_wf (fst (bulk_user_action action_data admin_user d))).
Proof.
  intros Hwf. split; [|split; [|split]].
  - intros pwd_context jose form_data.
    destruct (login_db pwd_context jose form_data d) as [->|[u [Hin ->]]];
      [exact Hwf|].
    apply users_wf_after_update; [exact Hwf|]. exists u. auto.
  - intros jose token current_user Hcur. apply get_current_user_in in Hcur.
    split; [|split].
    + intros pwd_context password_data. unfold change_password.
      destruct (verify_password _ _ _) as [[|]|e]; cbn [bind negb reraise_http];
        [| exact Hwf | destruct e; exact Hwf].
      destruct (hash_password _ _) as [h|e]; cbn [bind reraise_http];
        [|destruct e; exact Hwf].
      destruct (User_validate_hashed_password h) as [h'|e]; cbn [bind reraise_http];
        [|destruct e; exact Hwf].
      cbn [fst]. apply users_wf_after_update; [exact Hwf|].
      exists current_user. auto.
    + unfold upgrade. destruct (User.is_premium current_user); cbn [fst]; [exact Hwf|].
      apply users_wf_after_update; [exact Hwf|]. exists current_user. auto.
    + unfold deactivate_account. cbn [fst].
      apply users_wf_after_update; [exact Hwf|]. exists current_user. auto.
  - intros user_id admin_user. split.
    + unfold toggle_user_active.
      destruct (first _ (users d)) as [u|] eqn:Hf; [|exact Hwf].
      apply find_some in Hf as [Hin _].
      destruct (User.id u =? User.id admin_user); [exact Hwf|]. cbn [fst].
      apply users_wf_after_update; [exact Hwf|]. exists u. auto.
    + unfold toggle_user_premium.
      destruct (first _ (users d)) as [u|] eqn:Hf; [|exact Hwf].
      apply find_some in Hf as [Hin _]. cbn [fst].
      apply users_wf_after_update; [exact Hwf|]. exists u. auto.
  - intros action_data admin_user. unfold bulk_user_action.
    set (us := filter _ (users d)).
    destruct (negb _); [exact Hwf|].
    destruct (bulk_fold_safe (UserBulkAction.action action_data) admin_user d us)
      with (d := d) (c := 0) as [Hc [_ [_ Hs]]].
    + exact (proj1 Hwf).
    + intros u Hu. apply filter_In in Hu. tauto.
    + reflexivity.
    + destruct (fold_left _ us (d, 0)) as [d' n]. cbn [fst] in *.
      now apply (users_wf_same_keys d d').
Qed.

Lemma account_handlers_preserve_users_wf_witness :
  users_wf (fst (fst (login demo_pwd_context demo_jose form_cook db_one_cook)))
  /\ users_wf (fst (upgrade cook db_one_cook)).
Proof.
  destruct (account_handlers_preserve_users_wf db_one_cook db_one_cook_wf)
    as [Hl [Hc _]].
  split; [apply Hl|].
  exact (proj1 (proj2 (Hc demo_jose "tok.1" cook eq_refl))).
Defined.

(** ** New ingredients ([app/routers/ingredients.py]) *)

Lemma existsb_name_not_in (n : str) (l : list Ingredient.t) :
  existsb (fun i => str_eqb (Ingredient.name i) n) l = false ->
  ~ In n (map Ingredient.name l).
Proof.
  induction l as [|x l IH]; cbn [existsb map]; [tauto|].
  intros H. apply orb_false_iff in H as [Hx Hl]. intros [He|Hin].
  - rewrite He, str_eqb_refl in Hx. discriminate.
  - now apply IH.
Qed.

(** Creating an ingredient keeps every stored name trimmed (what the
    suggestions rely on) and the names distinct.  On success exactly one
    row is added, named by the trimmed request name, which is not blank; on
    failure the table is unchanged and the answer is 400 when the search
    finds the name and 500 otherwise. *)
Theorem create_ingredient_keeps_names (ilike : str -> str -> bool) (new_id : Z)
    (data_name : str) (d d' : Db) (r : result Ingredient.t) :
  names_trimmed d -> ingredient_names_unique d ->
  create_ingredient ilike new_id data_name d = (d', r) ->
  names_trimmed d' /\ ingredient_names_unique d'
  /\ match r with
     | Ok ing =>
         ing = Ingredient.mk new_id (strip data_name)
         /\ truthy (strip data_name) = true
         /\ ingredients d' = (ingredients d ++ [ing])%list
     | Raise e =>
         d' = d
         /\ (e = HTTPException 400 "Такой ингредиент уже есть" []
             \/ e = HTTPException 500 "Ошибка при создании ингредиента" [])
     end.
Proof.
  intros Ht Hu. unfold create_ingredient.
  destruct (first _ (ingredients d)) as [existing|].
  { cbn [reraise_http]. intros H. injection H as <- <-. auto. }
  unfold Ingredient_validate_name. rewrite strip_idempotent.
  destruct (negb (truthy (strip data_name)) || negb (truthy (strip data_name))) eqn:E.
  { cbn [bind reraise_http]. intros H. injection H as <- <-. auto. }
  destruct (len (strip data_name) >? 100).
  { cbn [bind reraise_http]. intros H. injection H as <- <-. auto. }
  cbn [bind]. unfold insert_ingredient.
  destruct (existsb _ (ingredients d)) eqn:Hex.
  { cbn [reraise_http]. intros H. injection H as <- <-. auto. }
  cbn [reraise_http]. intros H. injection H as <- <-.
  apply orb_false_iff in E as [E _]. apply negb_false_iff in E.
  split; [|split; [|auto]].
  - intros i Hi. cbn [ingredients] in Hi. apply in_app_or in Hi as [Hi|[<-|[]]].
    + now apply Ht.
    + cbn [Ingredient.name]. apply strip_idempotent.
  - unfold ingredient_names_unique. cbn [ingredients]. rewrite map_app.
    apply NoDup_app; auto.
    + repeat constructor. intros [].
    + intros a Ha [<-|[]]. now apply (existsb_name_not_in _ _ Hex).
Qed.

Lemma create_ingredient_keeps_names_witness :
  names_trimmed
    (fst (create_ingredient (fun name pattern => str_eqb (lower name) (lower pattern))
            5 " Garlic " db_pantry)).
Proof.
  set (ilike := fun name pattern => str_eqb (lower name) (lower pattern)).
  assert (Ht : names_trimmed db_pantry).
  { intros i Hi. cbn in Hi. destruct Hi as [<-|[<-|[<-|[<-|[]]]]]; reflexivity. }
  assert (Hu : ingredient_names_unique db_pantry).
  { unfold ingredient_names_unique. cbn. repeat constructor; cbn; intuition discriminate. }
  assert (Hc : create_ingredient ilike 5 " Garlic " db_pantry
               = (fst (create_ingredient ilike 5 " Garlic " db_pantry),
                  Ok (Ingredient.mk 5 "Garlic")))
    by (vm_compute; reflexivity).
  exact (proj1 (create_ingredient_keeps_names ilike 5 " Garlic " db_pantry _ _ Ht Hu Hc)).
Defined.

(** ** Every outcome of a login ([app/routers/auth.py]) *)

(** A login answers a token only for a row of the table that has the
    normalised email and whose hash the context verified against the
    submitted password; every other outcome is an HTTP error of status 400
    (empty password or hash), 401 or 500, never another exception, and with
    400 or 401 the database is left as it was. *)
Theorem login_outcomes (pwd_context : CryptContext) (jose : Jose)
    (form_data : OAuth2PasswordRequestForm) (d : Db) :
  (forall c s dt h, jwt_encode jose c <> Raise (HTTPException s dt h)) ->
  match snd (login pwd_context jose form_data d) with
  | Ok res =>
      exists u,
        In u (users d)
        /\ User.email u = strip (lower (username form_data))
        /\ verify pwd_context (password form_data) (User.hashed_password u) = Ok true
        /\ user res = User.update_last_login (utcnow jose) u
        /\ token_type res = "bearer" /\ expires_in res = 86400
  | Raise e =>
      exists status detail headers,
        e = HTTPException status detail headers
        /\ (status = 400 \/ status = 401 \/ status = 500)
        /\ (status <> 500 -> fst (fst (login pwd_context jose form_data d)) = d)
  end.
Proof.
  intros Hcodec. unfold login.
  destruct (first _ (users d)) as [u|] eqn:Hf.
  2:{ cbn. do 3 eexists. split; [reflexivity|]. split; [lia|reflexivity]. }
  apply find_some in Hf as [Hin He]. apply str_eqb_eq in He.
  unfold verify_password.
  destruct (negb (truthy (password form_data))
            || negb (truthy (User.hashed_password u))).
  { cbn. do 3 eexists. split; [reflexivity|]. split; [lia|reflexivity]. }
  destruct (verify pwd_context (password form_data) (User.hashed_password u))
    as [[|]|e] eqn:Hv.
  - unfold create_access_token.
    destruct (jwt_encode jose _) as [tok|e] eqn:Hj.
    + cbn. exists u. auto 10.
    + destruct e; cbn; try (do 3 eexists; split; [reflexivity|]; split; [lia|lia]).
      exfalso. exact (Hcodec _ _ _ _ Hj).
  - cbn. do 3 eexists. split; [reflexivity|]. split; [lia|reflexivity].
  - cbn. do 3 eexists. split; [reflexivity|]. split; [lia|lia].
Qed.

Lemma login_outcomes_witness :
  exists u,
    In u (users db_one_cook)
    /\ verify demo_pwd_context (password form_cook) (User.hashed_password u) = Ok true.
Proof.
  assert (Hc : forall c s dt h, jwt_encode demo_jose c <> Raise (HTTPException s dt h)).
  { intros c s dt h. cbn. destruct (dict_get "sub" c) as [[| | |]|]; discriminate. }
  pose proof (login_outcomes demo_pwd_context demo_jose form_cook db_one_cook Hc) as H.
  destruct (snd (login demo_pwd_context demo_jose form_cook db_one_cook)) as [res|e] eqn:E;
    [|vm_compute in E; discriminate].
  destruct H as [u [Hin [_ [Hv _]]]]. exists u. auto.
Defined.

